(** * ProjectZipperAI: the project-extraction pipeline

    A shallow embedding of [services/projectParser.ts] ([parseWithRegex],
    [processInputFiles], [safeJsonParse], [findAdditionalFiles],
    [extractDocumentationNotes]), [services/documentationService.ts]
    ([generateReadme]), [services/geminiService.ts] ([getAiClient]) and of
    the orchestrator [handleProcessInput] of [App.tsx].

    A JavaScript string is a sequence of UTF-16 code units.  The model
    covers the strings all of whose code units are below 256 and writes
    one [ascii] per code unit, so [length], [trim], [toLowerCase] and the
    regular-expression classes keep their JavaScript meaning on them
    (code unit 160 is white space, 192..222 have lower-case forms).

    The regular expressions of the source are written out as the
    matchers they denote (greedy and lazy quantifiers, leftmost match).
    The AI service is a parameter: a call either resolves with the text
    of the response or rejects with what the [catch] clause receives;
    [JSON.parse] and the ambient API key are fields of the host.
    Promises are awaited one after the other, so an [async] function is
    the function from its arguments to what it settles to. *)

From Stdlib Require Import Ascii.
From stdpp Require Import base option list strings gmap.

#[local] Set Warnings "-register-all".

(** ** Characters that cannot be written inside a literal *)

Definition LF : ascii := "010".
Definition CR : ascii := "013".
Definition DQ : ascii := "034".
Definition BSLASH : ascii := "092".
Definition BACKTICK : ascii := "096".

Definition nl : string := String LF EmptyString.
Definition dq : string := String DQ EmptyString.

Definition code (c : ascii) : nat := nat_of_ascii c.

Definition inRange (lo hi : nat) (c : ascii) : bool :=
  (lo <=? code c)%nat && (code c <=? hi)%nat.

Definition isChar (a c : ascii) : bool := Ascii.eqb a c.

Module Js.

(** *** String.prototype primitives *)

(** White space and line terminators stripped by [trim]: TAB, LF, VT, FF,
    CR, SPACE and NO-BREAK SPACE (the others lie above code unit 255). *)
Definition isWhiteSpace (c : ascii) : bool :=
  inRange 9 13 c || isChar " " c || (code c =? 160)%nat.

Fixpoint trimStart (s : string) : string :=
  match s with
  | String c s' => if isWhiteSpace c then trimStart s' else s
  | EmptyString => EmptyString
  end.

Fixpoint trimEnd (s : string) : string :=
  match s with
  | EmptyString => EmptyString
  | String c s' =>
      match trimEnd s' with
      | EmptyString => if isWhiteSpace c then EmptyString else String c EmptyString
      | t => String c t
      end
  end.

Definition trim (s : string) : string := trimEnd (trimStart s).

(** A string is truthy when it is not empty. *)
Definition truthy (s : string) : bool :=
  match s with EmptyString => false | String _ _ => true end.

Fixpoint startsWith (p s : string) : bool :=
  match p, s with
  | EmptyString, _ => true
  | String a p', String b s' => isChar a b && startsWith p' s'
  | String _ _, EmptyString => false
  end.

(** [s.substring(n)] and [s.substring(0, n)]. *)
Fixpoint substringFrom (n : nat) (s : string) : string :=
  match n, s with
  | O, _ => s
  | S n', String _ s' => substringFrom n' s'
  | S _, EmptyString => EmptyString
  end.

Fixpoint substringTo (n : nat) (s : string) : string :=
  match n, s with
  | O, _ => EmptyString
  | S n', String c s' => String c (substringTo n' s')
  | S _, EmptyString => EmptyString
  end.

(** The text before and after the first (leftmost) occurrence of [pat]. *)
Fixpoint breakOn (pat s : string) : option (string * string) :=
  if startsWith pat s then Some (EmptyString, substringFrom (String.length pat) s)
  else match s with
       | EmptyString => None
       | String c s' =>
           match breakOn pat s' with
           | Some (a, b) => Some (String c a, b)
           | None => None
           end
       end.

Definition indexOf (pat s : string) : option nat :=
  match breakOn pat s with
  | Some (a, _) => Some (String.length a)
  | None => None
  end.

Definition includes (pat s : string) : bool :=
  match breakOn pat s with Some _ => true | None => false end.

(** GetSubstitution for a string pattern (no capture groups): in the
    replacement text [$$] is a dollar sign, [$&] the matched text, [$`]
    the text before the match and [$'] the text after it; every other
    character, a lone [$] included, stands for itself. *)
Fixpoint getSubstitution (matched before after repl : string) : string :=
  match repl with
  | EmptyString => EmptyString
  | String c r =>
      if isChar "$" c then
        match r with
        | String d r' =>
            if isChar "$" d then String "$" (getSubstitution matched before after r')
            else if isChar "&" d then matched +:+ getSubstitution matched before after r'
            else if isChar BACKTICK d then before +:+ getSubstitution matched before after r'
            else if isChar "'" d then after +:+ getSubstitution matched before after r'
            else String c (getSubstitution matched before after r)
        | EmptyString => String c EmptyString
        end
      else String c (getSubstitution matched before after r)
  end.

(** [s.replace(pat, repl)] with a string pattern: the first occurrence
    only, the replacement text expanded by [getSubstitution]. *)
Definition replace (s pat repl : string) : string :=
  match breakOn pat s with
  | Some (a, b) => a +:+ getSubstitution pat a b repl +:+ b
  | None => s
  end.

(** [s.split(d)] for a non-empty separator with no special characters
    (also [s.split(/d/)] when the expression is that literal text):
    cut at each occurrence found scanning from the left. *)
Fixpoint splitFuel (fuel : nat) (d s : string) : list string :=
  match breakOn d s with
  | None => [s]
  | Some (a, b) =>
      match fuel with
      | O => [s]
      | S fuel' => a :: splitFuel fuel' d b
      end
  end.

Definition split (d s : string) : list string := splitFuel (String.length s) d s.

(** [arr.join(d)]. *)
Fixpoint join (d : string) (l : list string) : string :=
  match l with
  | [] => EmptyString
  | [x] => x
  | x :: l' => x +:+ d +:+ join d l'
  end.

Definition toLowerChar (c : ascii) : ascii :=
  if inRange 65 90 c || (inRange 192 222 c && negb (code c =? 215)%nat)
  then ascii_of_nat (code c + 32) else c.

Fixpoint toLowerCase (s : string) : string :=
  match s with
  | EmptyString => EmptyString
  | String c s' => String (toLowerChar c) (toLowerCase s')
  end.

(** *** Character classes of the regular expressions *)

Definition isDigit (c : ascii) : bool := inRange 48 57 c.
Definition isAsciiLetter (c : ascii) : bool := inRange 65 90 c || inRange 97 122 c.
Definition isWordChar (c : ascii) : bool := isAsciiLetter c || isDigit c || isChar "_" c.
(** [.] matches everything but a line terminator. *)
Definition isLineTerminator (c : ascii) : bool := isChar LF c || isChar CR c.

(** The longest prefix made of characters of a class, and the rest. *)
Fixpoint span (f : ascii -> bool) (s : string) : string * string :=
  match s with
  | EmptyString => (EmptyString, EmptyString)
  | String c s' =>
      if f c then let '(a, b) := span f s' in (String c a, b)
      else (EmptyString, s)
  end.

Definition endsWith (p s : string) : bool :=
  (String.length p <=? String.length s)%nat
  && String.eqb (substringFrom (String.length s - String.length p) s) p.

(** [s.split('.').pop()]: the text after the last dot, the whole string
    when it has none. *)
Fixpoint afterLastDot (s : string) : string :=
  match s with
  | EmptyString => EmptyString
  | String c s' =>
      if isChar "." c && negb (includes "." s') then s'
      else if includes "." s then afterLastDot s'
      else s
  end.

(** [s.split('\n')[0]]: the text before the first line feed. *)
Definition firstLineOf (s : string) : string :=
  match breakOn (String LF EmptyString) s with
  | Some (a, _) => a
  | None => s
  end.

End Js.

(** ** JSON values, [JSON.parse] and [JSON.stringify] *)

Module Json.

(** A number keeps its lexeme; an object keeps its members in source
    order (a later duplicate of a key overrides an earlier one). *)
#[local] Unset Elimination Schemes.
Inductive json : Type :=
| JNull
| JBool (b : bool)
| JNumber (lexeme : string)
| JString (s : string)
| JArray (items : list json)
| JObject (members : list (string * json)).
#[local] Set Elimination Schemes.

(** Reading a property that no prototype defines: the value of the last
    member with that key; [None] is [undefined].  Strings, numbers,
    booleans and arrays have none of the properties the pipeline reads
    ([additionalFiles], [documentationNotes], [path], [content]). *)
Fixpoint lookupMember (k : string) (ms : list (string * json)) : option json :=
  match ms with
  | [] => None
  | (k', v) :: ms' =>
      match lookupMember k ms' with
      | Some w => Some w
      | None => if String.eqb k' k then Some v else None
      end
  end.

Definition getProp (k : string) (v : json) : option json :=
  match v with
  | JObject ms => lookupMember k ms
  | _ => None
  end.

(** A number lexeme denotes zero when all digits of its mantissa are 0
    (the exponent cannot change that; a non-zero lexeme that rounds to
    zero as a double is not told apart, see [number_never_matters]). *)
Fixpoint mantissaIsZero (s : string) : bool :=
  match s with
  | EmptyString => true
  | String c s' =>
      if isChar "e" c || isChar "E" c then true
      else if inRange 49 57 c then false
      else mantissaIsZero s'
  end.

(** ToBoolean. *)
Definition truthy (v : json) : bool :=
  match v with
  | JNull => false
  | JBool b => b
  | JNumber lx => negb (mantissaIsZero lx)
  | JString s => Js.truthy s
  | JArray _ | JObject _ => true
  end.

(** *** A parser for JSON text *)

Definition isJsonWs (c : ascii) : bool :=
  isChar " " c || isChar "009" c || isChar LF c || isChar CR c.

Fixpoint skipWs (s : string) : string :=
  match s with
  | String c s' => if isJsonWs c then skipWs s' else s
  | EmptyString => EmptyString
  end.

Definition hexVal (c : ascii) : option nat :=
  if Js.isDigit c then Some (code c - 48)
  else if inRange 97 102 c then Some (code c - 87)
  else if inRange 65 70 c then Some (code c - 55)
  else None.

Definition simpleEscape (e : ascii) : option ascii :=
  if isChar DQ e then Some DQ
  else if isChar BSLASH e then Some BSLASH
  else if isChar "/" e then Some "/"%char
  else if isChar "b" e then Some "008"%char
  else if isChar "f" e then Some "012"%char
  else if isChar "n" e then Some LF
  else if isChar "r" e then Some CR
  else if isChar "t" e then Some "009"%char
  else None.

(** The characters of a string literal after its opening quote, up to
    the closing quote; an escape above code unit 255 is outside the
    model and refused. *)
Fixpoint parseChars (s : string) : option (string * string) :=
  match s with
  | EmptyString => None
  | String c r =>
      if isChar DQ c then Some (EmptyString, r)
      else if isChar BSLASH c then
        match r with
        | String e r' =>
            if isChar "u" e then
              match r' with
              | String h1 (String h2 (String h3 (String h4 r''))) =>
                  match hexVal h1, hexVal h2, hexVal h3, hexVal h4 with
                  | Some 0, Some 0, Some a, Some b =>
                      match parseChars r'' with
                      | Some (t, rest) => Some (String (ascii_of_nat (16 * a + b)) t, rest)
                      | None => None
                      end
                  | _, _, _, _ => None
                  end
              | _ => None
              end
            else
              match simpleEscape e, parseChars r' with
              | Some x, Some (t, rest) => Some (String x t, rest)
              | _, _ => None
              end
        | EmptyString => None
        end
      else if (code c <? 32)%nat then None
      else match parseChars r with
           | Some (t, rest) => Some (String c t, rest)
           | None => None
           end
  end.

Definition nonEmpty (s : string) : bool := Js.truthy s.

(** [-]? int frac? exp?, returned as lexeme and rest. *)
Definition parseNumber (s : string) : option (string * string) :=
  let '(sign, s1) :=
    match s with
    | String c r => if isChar "-" c then (String c EmptyString, r) else (EmptyString, s)
    | EmptyString => (EmptyString, s)
    end in
  let '(int, s2) := Js.span Js.isDigit s1 in
  if negb (nonEmpty int) || (Js.startsWith "0" int && negb (String.eqb int "0")) then None
  else
    let frac :=
      match s2 with
      | String c r =>
          if isChar "." c then
            let '(ds, r') := Js.span Js.isDigit r in
            if nonEmpty ds then Some (String c ds, r') else None
          else Some (EmptyString, s2)
      | EmptyString => Some (EmptyString, s2)
      end in
    match frac with
    | None => None
    | Some (f, s3) =>
        let exp :=
          match s3 with
          | String c r =>
              if isChar "e" c || isChar "E" c then
                let '(sg, r1) :=
                  match r with
                  | String d r0 =>
                      if isChar "+" d || isChar "-" d then (String d EmptyString, r0)
                      else (EmptyString, r)
                  | EmptyString => (EmptyString, r)
                  end in
                let '(ds, r2) := Js.span Js.isDigit r1 in
                if nonEmpty ds then Some (String c (sg +:+ ds), r2) else None
              else Some (EmptyString, s3)
          | EmptyString => Some (EmptyString, s3)
          end in
        match exp with
        | None => None
        | Some (e, s4) => Some (sign +:+ int +:+ f +:+ e, s4)
        end
    end.

Fixpoint parseValue (fuel : nat) (s : string) : option (json * string) :=
  match fuel with
  | O => None
  | S fuel' =>
      match skipWs s with
      | EmptyString => None
      | String c r as s0 =>
          if isChar "{" c then
            match skipWs r with
            | String c' r' =>
                if isChar "}" c' then Some (JObject [], r')
                else match parseMembers fuel' (skipWs r) with
                     | Some (ms, rest) => Some (JObject ms, rest)
                     | None => None
                     end
            | EmptyString => None
            end
          else if isChar "[" c then
            match skipWs r with
            | String c' r' =>
                if isChar "]" c' then Some (JArray [], r')
                else match parseElements fuel' (skipWs r) with
                     | Some (vs, rest) => Some (JArray vs, rest)
                     | None => None
                     end
            | EmptyString => None
            end
          else if isChar DQ c then
            match parseChars r with
            | Some (t, rest) => Some (JString t, rest)
            | None => None
            end
          else if Js.startsWith "true" s0 then Some (JBool true, Js.substringFrom 4 s0)
          else if Js.startsWith "false" s0 then Some (JBool false, Js.substringFrom 5 s0)
          else if Js.startsWith "null" s0 then Some (JNull, Js.substringFrom 4 s0)
          else match parseNumber s0 with
               | Some (lx, rest) => Some (JNumber lx, rest)
               | None => None
               end
      end
  end
with parseElements (fuel : nat) (s : string) : option (list json * string) :=
  match fuel with
  | O => None
  | S fuel' =>
      match parseValue fuel' s with
      | None => None
      | Some (v, r) =>
          match skipWs r with
          | String c r' =>
              if isChar "," c then
                match parseElements fuel' r' with
                | Some (vs, rest) => Some (v :: vs, rest)
                | None => None
                end
              else if isChar "]" c then Some ([v], r')
              else None
          | EmptyString => None
          end
      end
  end
with parseMembers (fuel : nat) (s : string) : option (list (string * json) * string) :=
  match fuel with
  | O => None
  | S fuel' =>
      match skipWs s with
      | String q r0 =>
          if isChar DQ q then
            match parseChars r0 with
            | None => None
            | Some (k, r1) =>
                match skipWs r1 with
                | String col r2 =>
                    if isChar ":" col then
                      match parseValue fuel' r2 with
                      | None => None
                      | Some (v, r3) =>
                          match skipWs r3 with
                          | String c r4 =>
                              if isChar "," c then
                                match parseMembers fuel' r4 with
                                | Some (ms, rest) => Some ((k, v) :: ms, rest)
                                | None => None
                                end
                              else if isChar "}" c then Some ([(k, v)], r4)
                              else None
                          | EmptyString => None
                          end
                      end
                    else None
                | EmptyString => None
                end
            end
          else None
      | EmptyString => None
      end
  end.

(** [JSON.parse(text)]; [None] stands for the SyntaxError it throws. *)
Definition parse (text : string) : option json :=
  match parseValue (2 * String.length text + 2) text with
  | Some (v, rest) =>
      match skipWs rest with
      | EmptyString => Some v
      | String _ _ => None
      end
  | None => None
  end.

(** *** [JSON.stringify] on an array of strings *)

Definition hexDigit (n : nat) : ascii :=
  if (n <? 10)%nat then ascii_of_nat (48 + n) else ascii_of_nat (87 + n).

Definition quoteChar (c : ascii) : string :=
  if isChar DQ c then String BSLASH (String DQ EmptyString)
  else if isChar BSLASH c then String BSLASH (String BSLASH EmptyString)
  else if isChar "008" c then String BSLASH "b"
  else if isChar "009" c then String BSLASH "t"
  else if isChar LF c then String BSLASH "n"
  else if isChar "012" c then String BSLASH "f"
  else if isChar CR c then String BSLASH "r"
  else if (code c <? 32)%nat then
    String BSLASH ("u00" +:+ String (hexDigit (code c / 16)) (String (hexDigit (code c mod 16)) EmptyString))
  else String c EmptyString.

Fixpoint quoteBody (s : string) : string :=
  match s with
  | EmptyString => EmptyString
  | String c s' => quoteChar c +:+ quoteBody s'
  end.

Definition quote (s : string) : string := dq +:+ quoteBody s +:+ dq.

Definition stringifyStrings (l : list string) : string :=
  "[" +:+ Js.join "," (quote <$> l) +:+ "]".

End Json.

(** ** Data model ([types.ts], as used by the services) *)

Record ParsedFile : Type := { path : string; content : string }.

Record PipelineData : Type := {
  fullProjectContent : string;
  files : list ParsedFile;
  documentationNotes : string
}.

Inductive WorkflowStepType : Type := FIND_FILES | EXTRACT_DOCS | GENERATE_README.

Record WorkflowStep : Type := {
  id : string;
  type : WorkflowStepType;
  name : string;
  prompt : string;
  enabled : bool
}.

Definition paths (fs : list ParsedFile) : list string := path <$> fs.

(** [files.some(f => f.path === p)]. *)
Definition somePath (p : string) (fs : list ParsedFile) : bool :=
  existsb (fun f => String.eqb (path f) p) fs.

(** ** The Text-to-File Extractor: [parseWithRegex] *)

Module Extractor.

Definition delimiter : string := nl +:+ "---" +:+ nl.

(** [fileContent.split(/\n---\n/)]. *)
Definition sections (fileContent : string) : list string :=
  Js.split delimiter fileContent.

(** The class [[\w./-]]. *)
Definition isPathChar (c : ascii) : bool :=
  Js.isWordChar c || isChar "." c || isChar "/" c || isChar "-" c.

(** A backtick, [([\w./-]+)], a backtick, at the start of [s]: the
    greedy run of path characters must be non-empty and be followed by
    the closing backtick. *)
Definition backtickPathAt (s : string) : option string :=
  match s with
  | String c r =>
      if isChar BACKTICK c then
        match Js.span isPathChar r with
        | (String _ _ as p, String c' _) => if isChar BACKTICK c' then Some p else None
        | _ => None
        end
      else None
  | EmptyString => None
  end.

(** [.*] followed by the backtick group: the greedy star first tries
    the longest run of characters other than line terminators, so the
    group found is the last one that run can reach. *)
Fixpoint lastBacktickPath (s : string) : option string :=
  match s with
  | EmptyString => None
  | String c s' =>
      if Js.isLineTerminator c then backtickPathAt s
      else match lastBacktickPath s' with
           | Some p => Some p
           | None => backtickPathAt s
           end
  end.

(** [#+]: the remaining leading hashes. *)
Fixpoint dropHashes (s : string) : string :=
  match s with
  | String c s' => if isChar "#" c then dropHashes s' else s
  | EmptyString => EmptyString
  end.

(** [firstLine.match(fileHeaderRegex)[1]] for the expression
    [^#+.*`([\w./-]+)`].  Giving hashes back to [.*] changes nothing: a
    hash cannot open the backtick group. *)
Definition fileHeaderRegex (firstLine : string) : option string :=
  match firstLine with
  | String c r => if isChar "#" c then lastBacktickPath (dropHashes r) else None
  | EmptyString => None
  end.

Definition fence : string := "```".

(** Three backticks, [(?:[a-zA-Z]+)?], a line feed, at the start of
    [s]: what follows them. *)
Definition fenceOpenAt (s : string) : option string :=
  if Js.startsWith fence s then
    match snd (Js.span Js.isAsciiLetter (Js.substringFrom 3 s)) with
    | String c body => if isChar LF c then Some body else None
    | EmptyString => None
    end
  else None.

(** The whole expression at the start of [s]: the lazy [([\s\S]*?)]
    stops at the first line feed followed by three backticks. *)
Definition codeBlockAt (s : string) : option string :=
  match fenceOpenAt s with
  | Some body =>
      match Js.breakOn (nl +:+ fence) body with
      | Some (inner, _) => Some inner
      | None => None
      end
  | None => None
  end.

(** [trimmedSection.match(codeBlockRegex)[1]]: the leftmost position at
    which the expression matches. *)
Fixpoint codeBlockRegex (s : string) : option string :=
  match codeBlockAt s with
  | Some inner => Some inner
  | None =>
      match s with
      | EmptyString => None
      | String _ s' => codeBlockRegex s'
      end
  end.

(** The body of the [for] loop: what one section contributes. *)
Definition parseSection (section : string) : option ParsedFile :=
  let trimmedSection := Js.trim section in
  if negb (Js.truthy trimmedSection) then None
  else
    let firstLine := Js.trim (Js.firstLineOf trimmedSection) in
    match fileHeaderRegex firstLine with
    | Some p =>
        let content :=
          match codeBlockRegex trimmedSection with
          | Some (String _ _ as inner) => Js.trim inner
          | _ =>
              let contentBelowHeader :=
                Js.trim (Js.substringFrom (String.length firstLine) trimmedSection) in
              if Js.truthy contentBelowHeader then contentBelowHeader else EmptyString
          end in
        Some {| path := p; content := content |}
    | None => None
    end.

(** The expression ["(icons\/icon\d+\.png)"] at the start of [s]: the
    captured path and the text after the match. *)
Definition iconOpen : string := dq +:+ "icons/icon".
Definition iconClose : string := ".png" +:+ dq.

Definition iconAt (s : string) : option (string * string) :=
  if Js.startsWith iconOpen s then
    match Js.span Js.isDigit (Js.substringFrom 11 s) with
    | (String _ _ as ds, r) =>
        if Js.startsWith iconClose r
        then Some ("icons/icon" +:+ ds +:+ ".png", Js.substringFrom 5 r)
        else None
    | _ => None
    end
  else None.

(** [[...content.matchAll(re)].map(m => m[1])]: after a match the scan
    resumes behind it, otherwise one character further. *)
Fixpoint matchAllIcons (fuel : nat) (s : string) : list string :=
  match fuel with
  | O => []
  | S fuel' =>
      match iconAt s with
      | Some (p, rest) => p :: matchAllIcons fuel' rest
      | None =>
          match s with
          | EmptyString => []
          | String _ s' => matchAllIcons fuel' s'
          end
      end
  end.

Definition iconPaths (content : string) : list string :=
  matchAllIcons (S (String.length content)) content.

(** [[...new Set(l)]]: first occurrences, in order. *)
Fixpoint uniqueFrom (seen : gset string) (l : list string) : list string :=
  match l with
  | [] => []
  | x :: l' =>
      if decide (x ∈ seen) then uniqueFrom seen l'
      else x :: uniqueFrom ({[x]} ∪ seen) l'
  end.

Definition unique (l : list string) : list string := uniqueFrom ∅ l.

(** The loop over [uniqueIconPaths], pushing the missing ones. *)
Fixpoint pushMissing (fs : list ParsedFile) (iconPaths : list string) : list ParsedFile :=
  match iconPaths with
  | [] => fs
  | iconPath :: rest =>
      if negb (somePath iconPath fs)
      then pushMissing (fs ++ [{| path := iconPath; content := EmptyString |}]) rest
      else pushMissing fs rest
  end.

Definition manifestFile (fs : list ParsedFile) : option ParsedFile :=
  snd <$> list_find (fun f => path f = "manifest.json") fs.

Definition addManifestIcons (fs : list ParsedFile) : list ParsedFile :=
  match manifestFile fs with
  | Some m => pushMissing fs (unique (iconPaths (content m)))
  | None => fs
  end.

Definition parseWithRegex (fileContent : string) : list ParsedFile :=
  addManifestIcons (omap parseSection (sections fileContent)).

End Extractor.

(** ** The AI gateway ([geminiService.ts] and the service behind it) *)

(** What a [catch] clause receives: an [Error] object with its message,
    or some other value with its [String(...)] rendering. *)
Inductive Thrown : Type :=
| ErrorObject (message : string)
| OtherValue (asString : string).

Inductive Result (A : Type) : Type :=
| Ok (a : A)
| Throw (e : Thrown).
Arguments Ok {A} a.
Arguments Throw {A} e.

#[global] Instance Result_ret : MRet Result := fun A a => Ok a.

#[global] Instance Result_bind : MBind Result := fun A B k r =>
  match r with
  | Ok a => k a
  | Throw e => Throw e
  end.

Inductive ResponseSchema : Type := fileFinderSchema | docExtractorSchema.

Record GenerateContentParameters : Type := {
  model : string;
  contents : string;
  responseSchema : option ResponseSchema
}.

(** [await ai.models.generateContent(...)]: the [text] of the response,
    or the rejection. *)
Definition GoogleGenAI : Type := GenerateContentParameters -> Result string.

Definition GEMINI_FLASH_MODEL : string := "gemini-2.5-flash".

(** The host: [JSON.parse] ([None] when it throws) and the ambient
    [process.env.API_KEY]. *)
Record Host : Type := {
  JSON_parse : string -> option Json.json;
  API_KEY : option string
}.

(** Letters of the messages that lie outside ASCII. *)
Definition e_grave : string := String "232" EmptyString.
Definition e_acute : string := String "233" EmptyString.
Definition a_grave : string := String "224" EmptyString.

Section Pipeline.

Variable host : Host.

(** [connect apiKey] is [new GoogleGenAI({ apiKey })] as the service
    answers it at the time of the call. *)
Definition Connect : Type := string -> GoogleGenAI.

Definition getAiClient (connect : Connect) (apiKeyOverride : string) : option GoogleGenAI :=
  let apiKey :=
    if Js.truthy apiKeyOverride then Some apiKeyOverride else API_KEY host in
  match apiKey with
  | Some k => if Js.truthy k then Some (connect k) else None
  | None => None
  end.

(** *** [safeJsonParse] *)

Definition jsonFenceOpen : string := "```json" +:+ nl.

(** [rawText.replace(/```json\n|```/g, '')]. *)
Fixpoint removeFences (fuel : nat) (s : string) : string :=
  match fuel with
  | O => s
  | S fuel' =>
      if Js.startsWith jsonFenceOpen s then removeFences fuel' (Js.substringFrom 8 s)
      else if Js.startsWith "```" s then removeFences fuel' (Js.substringFrom 3 s)
      else match s with
           | EmptyString => EmptyString
           | String c s' => String c (removeFences fuel' s')
           end
  end.

(** The result is a JavaScript value; [JNull] is the [null] returned
    when parsing fails (and also what the text [null] parses to). *)
Definition safeJsonParse (text : string) : Json.json :=
  let rawText := Js.trim text in
  let jsonText :=
    if Js.startsWith "```json" rawText
    then removeFences (S (String.length rawText)) rawText
    else rawText in
  match JSON_parse host jsonText with
  | Some v => v
  | None => Json.JNull
  end.

(** *** Step executor: Find Additional Files *)

Definition parsedFilePaths (pipelineData : PipelineData) : string :=
  if (0 <? length (files pipelineData))%nat
  then Json.stringifyStrings (paths (files pipelineData))
  else "Nessuno".

(** [finalPrompt]: the two [replace] calls, one after the other. *)
Definition findFilesPrompt (pipelineData : PipelineData) (promptText : string) : string :=
  Js.replace
    (Js.replace promptText "ORIGINAL_CONTENT_PLACEHOLDER" (fullProjectContent pipelineData))
    "PARSED_FILES_PLACEHOLDER" (parsedFilePaths pipelineData).

(** The request: its [contents] is [finalPrompt]. *)
Definition filesRequest (pipelineData : PipelineData) (promptText : string)
  : GenerateContentParameters :=
  {| model := GEMINI_FLASH_MODEL;
     contents := findFilesPrompt pipelineData promptText;
     responseSchema := Some fileFinderSchema |}.

(** [const { additionalFiles = [] } = aiResult || {}]. *)
Definition additionalFilesOf (aiResult : Json.json) : Json.json :=
  let source := if Json.truthy aiResult then aiResult else Json.JObject [] in
  match Json.getProp "additionalFiles" source with
  | Some v => v
  | None => Json.JArray []
  end.

(** The callback of [additionalFiles.forEach], on the file list and
    the [existingPaths] set. *)
Definition pushCandidate (acc : list ParsedFile * gset string) (file : Json.json)
  : list ParsedFile * gset string :=
  if Json.truthy file then
    match Json.getProp "path" file, Json.getProp "content" file with
    | Some (Json.JString p), Some (Json.JString c) =>
        if decide (p ∈ acc.2) then acc
        else (acc.1 ++ [{| path := p; content := c |}], {[p]} ∪ acc.2)
    | _, _ => acc
    end
  else acc.

Definition withFiles (pipelineData : PipelineData) (fs : list ParsedFile) : PipelineData :=
  {| fullProjectContent := fullProjectContent pipelineData;
     files := fs;
     documentationNotes := documentationNotes pipelineData |}.

Definition withNotes (pipelineData : PipelineData) (notes : string) : PipelineData :=
  {| fullProjectContent := fullProjectContent pipelineData;
     files := files pipelineData;
     documentationNotes := notes |}.

Definition findAdditionalFiles (connect : Connect) (pipelineData : PipelineData)
    (promptText apiKeyOverride : string) : PipelineData :=
  match getAiClient connect apiKeyOverride with
  | None => pipelineData
  | Some ai =>
      match ai (filesRequest pipelineData promptText) with
      | Ok text =>
          let aiResult := safeJsonParse text in
          let existingPaths : gset string := list_to_set (paths (files pipelineData)) in
          match additionalFilesOf aiResult with
          | Json.JArray items =>
              withFiles pipelineData
                (foldl pushCandidate (files pipelineData, existingPaths) items).1
          | _ => pipelineData
          end
      | Throw _ => pipelineData
      end
  end.

(** *** Step executor: Extract Documentation Notes *)

Definition errorText (error : Thrown) : string :=
  match error with
  | ErrorObject message => message
  | OtherValue asString => asString
  end.

Definition fallbackNote (error : Thrown) : string :=
  "Estrazione della documentazione AI fallita. Errore: " +:+ errorText error.

(** The request: [finalPrompt] is the template with the content put in
    place of the first ORIGINAL_CONTENT_PLACEHOLDER. *)
Definition docsRequest (pipelineData : PipelineData) (promptText : string)
  : GenerateContentParameters :=
  {| model := GEMINI_FLASH_MODEL;
     contents := Js.replace promptText "ORIGINAL_CONTENT_PLACEHOLDER"
                   (fullProjectContent pipelineData);
     responseSchema := Some docExtractorSchema |}.

Definition extractDocumentationNotes (connect : Connect) (pipelineData : PipelineData)
    (promptText apiKeyOverride : string) : PipelineData :=
  match getAiClient connect apiKeyOverride with
  | None => pipelineData
  | Some ai =>
      match ai (docsRequest pipelineData promptText) with
      | Ok text =>
          let aiResult := safeJsonParse text in
          if Json.truthy aiResult then
            match Json.getProp "documentationNotes" aiResult with
            | Some (Json.JString notes) => withNotes pipelineData notes
            | _ => pipelineData
            end
          else pipelineData
      | Throw error =>
          withNotes pipelineData
            (if Js.truthy (documentationNotes pipelineData)
             then documentationNotes pipelineData +:+ nl +:+ fallbackNote error
             else fallbackNote error)
      end
  end.

(** *** Step executor: Generate README ([documentationService.ts]) *)

Definition readmeSkipped : string :=
  "# Generazione README Saltata" +:+ nl +:+ nl
  +:+ "Impossibile generare il README perch" +:+ e_acute +:+ " non " +:+ e_grave
  +:+ " stata configurata una chiave API. Aggiungine una nelle impostazioni.".

Definition contentForReadme (pipelineData : PipelineData) : string :=
  nl +:+ "**Contenuto Originale del Progetto:**" +:+ nl
  +:+ fullProjectContent pipelineData +:+ nl +:+ nl
  +:+ "---" +:+ nl
  +:+ "**Note di Documentazione Aggiuntive (Estratte dall'AI, dare priorit" +:+ a_grave
  +:+ " a queste):**" +:+ nl
  +:+ (if Js.truthy (documentationNotes pipelineData)
       then documentationNotes pipelineData
       else "Nessuna nota di documentazione aggiuntiva " +:+ e_grave +:+ " stata estratta.")
  +:+ nl +:+ "  ".

Definition readmeErrorMessage (error : Thrown) : string :=
  match error with
  | ErrorObject message => message
  | OtherValue _ => "Si " +:+ e_grave +:+ " verificato un errore API sconosciuto."
  end.

Definition readmeFailed (errorMessage : string) : string :=
  "# Documentazione del Progetto" +:+ nl +:+ nl
  +:+ "**Attenzione: Impossibile generare automaticamente il README.md a causa di un errore.**"
  +:+ nl +:+ nl
  +:+ "Questo " +:+ e_grave +:+ " un file segnaposto. Si prega di esaminare i file sorgente del progetto per comprenderne la struttura e lo scopo."
  +:+ nl +:+ nl
  +:+ "**Dettagli dell'Errore:**" +:+ nl
  +:+ "```" +:+ nl +:+ errorMessage +:+ nl +:+ "```".

Definition generateReadme (connect : Connect) (pipelineData : PipelineData)
    (promptContent apiKeyOverride : string) : string :=
  match getAiClient connect apiKeyOverride with
  | None => readmeSkipped
  | Some ai =>
      match ai {| model := GEMINI_FLASH_MODEL;
                  contents := promptContent +:+ nl +:+ contentForReadme pipelineData;
                  responseSchema := None |} with
      | Ok text => Js.trim text
      | Throw error => readmeFailed (readmeErrorMessage error)
      end
  end.

End Pipeline.

(** ** The ingestor: [processInputFiles] *)

Module Ingest.

(** An entry of [zip.files], in iteration order. *)
Record ZipObject : Type := {
  entryPath : string;
  dir : bool;
  async : Result string
}.

(** A [File] of the input element: its name and MIME type, what
    [file.text()] resolves to or rejects with, and what
    [JSZip.loadAsync(file)] does. *)
Record File : Type := {
  name : string;
  type : string;
  text : Result string;
  loadAsync : Result (list ZipObject)
}.

Definition isZip (file : File) : bool :=
  String.eqb (type file) "application/zip" || Js.endsWith ".zip" (name file).

Definition serialized (p lang content : string) : string :=
  "### `" +:+ p +:+ "`" +:+ nl +:+ "```" +:+ lang +:+ nl
  +:+ content +:+ nl +:+ "```" +:+ nl +:+ "---" +:+ nl.

Fixpoint appendEntries (combinedContent : string) (entries : list ZipObject)
  : Result string :=
  match entries with
  | [] => Ok combinedContent
  | entry :: rest =>
      if negb (dir entry) then
        content ← async entry;
        let lang := Js.afterLastDot (entryPath entry) in
        appendEntries (combinedContent +:+ serialized (entryPath entry) lang content) rest
      else appendEntries combinedContent rest
  end.

Fixpoint appendFiles (combinedContent : string) (inputFiles : list File)
  : Result string :=
  match inputFiles with
  | [] => Ok combinedContent
  | file :: rest =>
      if isZip file then
        zip ← loadAsync file;
        combined ← appendEntries combinedContent zip;
        appendFiles combined rest
      else
        content ← text file;
        appendFiles (combinedContent +:+ content +:+ nl +:+ "---" +:+ nl) rest
  end.

Definition processInputFiles (inputFiles : list File) : Result string :=
  appendFiles EmptyString inputFiles.

End Ingest.

(** ** The orchestrator: [handleProcessInput] ([App.tsx]) *)

Inductive AppStep : Type := step_input | step_processing | step_editor.

Record AppState : Type := {
  appStep : AppStep;
  error : option string;
  parsedFiles : list ParsedFile;
  selectedFilePath : option string;
  processingMessage : option string
}.

Inductive UserInput : Type :=
| TextInput (s : string)
| FileInput (inputFiles : list Ingest.File).

Definition isReadme (f : ParsedFile) : Prop := Js.toLowerCase (path f) = "readme.md".

#[global] Instance isReadme_dec (f : ParsedFile) : Decision (isReadme f).
Proof. unfold isReadme. apply _. Defined.

Definition setContent (c : string) (f : ParsedFile) : ParsedFile :=
  {| path := path f; content := c |}.

(** The upsert of the GENERATE_README case: [findIndex], then either the
    assignment to [files[readmeIndex].content] or [unshift]. *)
Definition upsertReadme (readmeContent : string) (fs : list ParsedFile) : list ParsedFile :=
  match list_find isReadme fs with
  | Some (readmeIndex, _) => alter (setContent readmeContent) readmeIndex fs
  | None => {| path := "README.md"; content := readmeContent |} :: fs
  end.

Definition emptyFilesMessage : string :=
  "Impossibile analizzare i file. Verifica il formato dell'input.".

Definition unexpectedErrorMessage : string :=
  "Si " +:+ e_grave +:+ " verificato un errore imprevisto durante l'elaborazione.".

Section Orchestrator.

Variable host : Host.

(** [service i] is the AI service as it answers during the [i]-th
    active step (each step calls it at most once). *)
Variable service : nat -> Connect.
Variable workflowSteps : list WorkflowStep.
Variable apiKeyOverride : string.

Definition runStep (connect : Connect) (pipelineData : PipelineData) (step : WorkflowStep)
  : PipelineData :=
  match type step with
  | FIND_FILES => findAdditionalFiles host connect pipelineData (prompt step) apiKeyOverride
  | EXTRACT_DOCS =>
      extractDocumentationNotes host connect pipelineData (prompt step) apiKeyOverride
  | GENERATE_README =>
      let readmeContent :=
        generateReadme host connect pipelineData (prompt step) apiKeyOverride in
      withFiles pipelineData (upsertReadme readmeContent (files pipelineData))
  end.

Fixpoint runSteps (i : nat) (pipelineData : PipelineData) (activeSteps : list WorkflowStep)
  : PipelineData :=
  match activeSteps with
  | [] => pipelineData
  | step :: rest => runSteps (S i) (runStep (service i) pipelineData step) rest
  end.

Definition activeSteps : list WorkflowStep :=
  filter (fun step => enabled step = true) workflowSteps.

(** Step 1 of the [try] block: the raw text and the extractor. *)
Definition prepare (input : UserInput) : Result PipelineData :=
  content ← match input with
            | TextInput s => Ok s
            | FileInput inputFiles => Ingest.processInputFiles inputFiles
            end;
  Ok {| fullProjectContent := content;
        files := Extractor.parseWithRegex content;
        documentationNotes := EmptyString |}.

(** The state after the loop over the active steps. *)
Definition afterSteps (input : UserInput) : Result PipelineData :=
  pipelineData ← prepare input;
  Ok (runSteps 0 pipelineData activeSteps).

(** The [try] block up to the check on [files.length]. *)
Definition runPipeline (input : UserInput) : Result PipelineData :=
  pipelineData ← afterSteps input;
  if (length (files pipelineData) =? 0)%nat
  then Throw (ErrorObject emptyFilesMessage)
  else Ok pipelineData.

(** [err.message || "..."]. *)
Definition shownMessage (err : Thrown) : string :=
  match err with
  | ErrorObject message => if Js.truthy message then message else unexpectedErrorMessage
  | OtherValue _ => unexpectedErrorMessage
  end.

(** The application state once [handleProcessInput] has settled. *)
Definition handleProcessInput (state : AppState) (input : UserInput) : AppState :=
  match runPipeline input with
  | Ok pipelineData =>
      {| appStep := step_editor;
         error := None;
         parsedFiles := files pipelineData;
         selectedFilePath :=
           match files pipelineData with
           | f :: _ => if Js.truthy (path f) then Some (path f) else None
           | [] => None
           end;
         processingMessage := None |}
  | Throw err =>
      {| appStep := step_input;
         error := Some (shownMessage err);
         parsedFiles := parsedFiles state;
         selectedFilePath := selectedFilePath state;
         processingMessage := None |}
  end.

End Orchestrator.

(** ** Concrete hosts, services and inputs for the examples *)

Definition hostNoKey : Host := {| JSON_parse := Json.parse; API_KEY := None |}.
Definition hostWithKey : Host := {| JSON_parse := Json.parse; API_KEY := Some "env-key" |}.

Definition answering (text : string) : Connect := fun _ _ => Ok text.
Definition failing (msg : string) : Connect := fun _ _ => Throw (ErrorObject msg).

Definition samplePipeline : PipelineData :=
  {| fullProjectContent := "some project text";
     files := [{| path := "a.txt"; content := "hello" |}];
     documentationNotes := "prior notes" |}.

Definition initialAppState : AppState :=
  {| appStep := step_input; error := None; parsedFiles := [];
     selectedFilePath := None; processingMessage := None |}.

(** The end-to-end input: two sections, each a heading and a fenced block. *)
Definition twoFilesText : string :=
  "### `a.txt`" +:+ nl +:+ "```" +:+ nl +:+ "hello" +:+ nl +:+ "```" +:+ nl
  +:+ "---" +:+ nl
  +:+ "### `b.txt`" +:+ nl +:+ "```" +:+ nl +:+ "world" +:+ nl +:+ "```".

Definition disabledSteps : list WorkflowStep :=
  [ {| id := "1"; type := FIND_FILES; name := "Trova File Aggiuntivi";
       prompt := "ORIGINAL_CONTENT_PLACEHOLDER PARSED_FILES_PLACEHOLDER"; enabled := false |};
    {| id := "2"; type := EXTRACT_DOCS; name := "Estrai Note di Documentazione";
       prompt := "ORIGINAL_CONTENT_PLACEHOLDER"; enabled := false |};
    {| id := "3"; type := GENERATE_README; name := "Genera README.md";
       prompt := "readme"; enabled := false |} ].

(** ** Vocabulary of the properties and example data *)

(** No credential: the override is empty and the ambient key is absent
    or empty. *)
Definition noCredential (host : Host) (apiKeyOverride : string) : Prop :=
  apiKeyOverride = EmptyString
  /\ (API_KEY host = None \/ API_KEY host = Some EmptyString).

(** The parsed response carries a string [documentationNotes]. *)
Definition stringNotesOf (aiResult : Json.json) : option string :=
  match Json.getProp "documentationNotes" aiResult with
  | Some (Json.JString notes) => Some notes
  | _ => None
  end.


(** A candidate with a string [path] and a string [content]. *)
Definition wellFormed (file : Json.json) (f : ParsedFile) : Prop :=
  Json.truthy file = true
  /\ Json.getProp "path" file = Some (Json.JString (path f))
  /\ Json.getProp "content" file = Some (Json.JString (content f)).

(** A text between double quotes. *)
Definition q (s : string) : string := dq +:+ s +:+ dq.

(** A response with a duplicate of an existing path, a path repeated in
    the batch and a candidate whose path is not a string. *)
Definition duplicatesAnswer : string :=
  "{" +:+ q "additionalFiles" +:+ ": ["
  +:+ "{" +:+ q "path" +:+ ":" +:+ q "a.txt" +:+ "," +:+ q "content" +:+ ":" +:+ q "again" +:+ "},"
  +:+ "{" +:+ q "path" +:+ ":" +:+ q "n.txt" +:+ "," +:+ q "content" +:+ ":" +:+ q "first" +:+ "},"
  +:+ "{" +:+ q "path" +:+ ":" +:+ q "n.txt" +:+ "," +:+ q "content" +:+ ":" +:+ q "second" +:+ "},"
  +:+ "{" +:+ q "path" +:+ ":7," +:+ q "content" +:+ ":" +:+ q "number" +:+ "}"
  +:+ "]}".

(** The number of entries whose path is README.md up to case. *)
Definition readmeCount (fs : list ParsedFile) : nat := length (filter isReadme fs).

Definition twoReadmes : list ParsedFile :=
  [ {| path := "README.md"; content := "one" |};
    {| path := "readme.md"; content := "two" |} ].

Definition lowerCaseReadme : list ParsedFile :=
  [ {| path := "src/x.js"; content := "code" |};
    {| path := "readme.md"; content := "old" |} ].

Definition twoReadmesText : string :=
  "# `README.md`" +:+ nl +:+ "one" +:+ nl +:+ "---" +:+ nl
  +:+ "# `readme.md`" +:+ nl +:+ "two".

Definition dollarContent : PipelineData :=
  {| fullProjectContent := "cost: $$5 and $&"; files := []; documentationNotes := EmptyString |}.

(** The characters that make a pattern behind a dollar sign in the
    replacement text of [replace]: [$$], [$&], [$`] and [$']. *)
Definition isPatternChar (c : ascii) : bool :=
  isChar "$" c || isChar "&" c || isChar BACKTICK c || isChar "'" c.

Definition startsPattern (s : string) : bool :=
  match s with
  | String d _ => isPatternChar d
  | EmptyString => false
  end.

(** The text holds none of the four patterns; a dollar sign followed by
    anything else, or ending the text, is allowed. *)
Fixpoint noDollarPattern (s : string) : bool :=
  match s with
  | EmptyString => true
  | String c r => negb (isChar "$" c && startsPattern r) && noDollarPattern r
  end.

(** What the property says of one substitution: [r] is [s] with the
    first occurrence of [token], when there is one, replaced by [text]
    as it is. *)
Definition firstReplaced (token text s r : string) : Prop :=
  (Js.includes token s = false /\ r = s)
  \/ exists a b,
       s = a +:+ token +:+ b
       /\ Js.indexOf token s = Some (String.length a)
       /\ r = a +:+ text +:+ b.

(** Content and a path with dollar signs that are no pattern. *)
Definition loneDollars : PipelineData :=
  {| fullProjectContent := "price: $5, ${HOME}, $(ls), a$";
     files := [{| path := "src/$id.ts"; content := EmptyString |}];
     documentationNotes := EmptyString |}.

Fixpoint allChars (f : ascii -> bool) (s : string) : bool :=
  match s with
  | EmptyString => true
  | String c s' => f c && allChars f s'
  end.

(** [<digits>]: one or more decimal digits. *)
Definition digits (ds : string) : bool := Js.truthy ds && allChars Js.isDigit ds.

Definition iconPath (ds : string) : string := "icons/icon" +:+ ds +:+ ".png".

(** The string literal ["icons/icon<digits>.png"], quotes included. *)
Definition iconLiteral (ds : string) : string := dq +:+ iconPath ds +:+ dq.

Definition manifestWithIcons : list ParsedFile :=
  [ {| path := "manifest.json";
       content := "{" +:+ q "icons" +:+ ": [" +:+ q "icons/icon1.png" +:+ ", "
                  +:+ q "icons/icon2.png" +:+ ", " +:+ q "icons/icon1.png" +:+ "]}" |};
    {| path := "icons/icon2.png"; content := "PNG" |} ].

(** The request the Generate README step sends. *)
Definition readmeRequest (pipelineData : PipelineData) (promptContent : string)
  : GenerateContentParameters :=
  {| model := GEMINI_FLASH_MODEL;
     contents := promptContent +:+ nl +:+ contentForReadme pipelineData;
     responseSchema := None |}.

(** Some entry is README.md up to case. *)
Definition hasReadme (fs : list ParsedFile) : Prop :=
  exists p, p ∈ paths fs /\ Js.toLowerCase p = "readme.md".

Definition enabledSteps : list WorkflowStep :=
  [ {| id := "1"; type := FIND_FILES; name := "Trova File Aggiuntivi";
       prompt := "ORIGINAL_CONTENT_PLACEHOLDER PARSED_FILES_PLACEHOLDER"; enabled := true |};
    {| id := "2"; type := EXTRACT_DOCS; name := "Estrai Note di Documentazione";
       prompt := "ORIGINAL_CONTENT_PLACEHOLDER"; enabled := true |};
    {| id := "3"; type := GENERATE_README; name := "Genera README.md";
       prompt := "readme"; enabled := true |} ].

(** The text is empty or begins with a character that [trim] keeps. *)
Definition startsNonWs (s : string) : bool :=
  match s with
  | EmptyString => true
  | String c _ => negb (Js.isWhiteSpace c)
  end.

(** An archive entry as [processInputFiles] writes it, without the
    delimiter that ends it. *)
Definition entryBody (p content : string) : string :=
  "### `" +:+ p +:+ "`" +:+ nl +:+ "```" +:+ Js.afterLastDot p +:+ nl
  +:+ content +:+ nl +:+ "```".

Definition notChar (a c : ascii) : bool := negb (isChar a c).

(** An entry that survives being serialized and extracted again: its
    path is made of path characters, the text after its last dot (the
    language tag of the fence) of letters only, its content is not empty,
    has no line beginning with three backticks after its first line and
    no line that is exactly three hyphens. *)
Definition roundTrips (entry : Ingest.ZipObject) (content : string) : Prop :=
  Ingest.async entry = Ok content
  /\ Js.truthy (Ingest.entryPath entry) = true
  /\ allChars Extractor.isPathChar (Ingest.entryPath entry) = true
  /\ allChars Js.isAsciiLetter (Js.afterLastDot (Ingest.entryPath entry)) = true
  /\ Js.truthy content = true
  /\ Js.indexOf (nl +:+ "```") (content +:+ nl +:+ "```") = Some (String.length content)
  /\ Js.includes Extractor.delimiter (nl +:+ content +:+ nl) = false.

(** What the extractor is expected to give back for an entry. *)
Definition extractedEntry (entry : Ingest.ZipObject) : option ParsedFile :=
  if Ingest.dir entry then None
  else match Ingest.async entry with
       | Ok content => Some {| path := Ingest.entryPath entry; content := Js.trim content |}
       | Throw _ => None
       end.

Definition sampleEntries : list Ingest.ZipObject :=
  [ {| Ingest.entryPath := "src/"; Ingest.dir := true; Ingest.async := Ok EmptyString |};
    {| Ingest.entryPath := "src/main.py"; Ingest.dir := false;
       Ingest.async := Ok ("print(1)" +:+ nl) |};
    {| Ingest.entryPath := "README"; Ingest.dir := false; Ingest.async := Ok "hello" |} ].

Definition sampleZip : Ingest.File :=
  {| Ingest.name := "project.zip"; Ingest.type := "application/zip";
     Ingest.text := Ok EmptyString; Ingest.loadAsync := Ok sampleEntries |}.

(** Two entries that do not come back as they were: a file without a
    dot in a folder (its language tag holds a slash) and an empty file. *)
Definition leakyEntries : list Ingest.ZipObject :=
  [ {| Ingest.entryPath := "src/Makefile"; Ingest.dir := false;
       Ingest.async := Ok "all:" |};
    {| Ingest.entryPath := "empty.txt"; Ingest.dir := false;
       Ingest.async := Ok EmptyString |} ].

(** The text [processInputFiles] builds from the entries of an archive
    whose reads succeed. *)
Fixpoint archiveText (entries : list Ingest.ZipObject) : string :=
  match entries with
  | [] => EmptyString
  | entry :: rest =>
      if Ingest.dir entry then archiveText rest
      else match Ingest.async entry with
           | Ok content =>
               entryBody (Ingest.entryPath entry) content +:+ Extractor.delimiter
               +:+ archiveText rest
           | Throw _ => EmptyString
           end
  end.

(** ** The refactoring service ([codeRefactorService.ts]) *)

Module Refactor.

(** [([\s\S]+)```$] at the start of [s]: the greedy group takes all but
    the three backticks that must end the text, and is not empty. *)
Definition beforeClosingFence (s : string) : option string :=
  if Js.endsWith "```" s then
    match Js.substringTo (String.length s - 3) s with
    | String _ _ as inner => Some inner
    | EmptyString => None
    end
  else None.

(** [trimmed.match(codeBlockRegex)[1]] for [^```(?:\w+\n)?([\s\S]+)```$]:
    the optional language line is tried first, and given up when the
    rest cannot match. *)
Definition codeBlockRegex (trimmed : string) : option string :=
  if Js.startsWith "```" trimmed then
    let afterFence := Js.substringFrom 3 trimmed in
    let tagged :=
      match Js.span Js.isWordChar afterFence with
      | (String _ _, String c r) => if isChar LF c then beforeClosingFence r else None
      | _ => None
      end in
    match tagged with
    | Some inner => Some inner
    | None => beforeClosingFence afterFence
    end
  else None.

Definition cleanAiCodeResponse (rawText : string) : string :=
  let trimmed := Js.trim rawText in
  match codeBlockRegex trimmed with
  | Some inner => Js.trim inner
  | None => trimmed
  end.

Definition refactorRequest (code promptTemplate : string) : GenerateContentParameters :=
  {| model := GEMINI_FLASH_MODEL;
     contents := Js.replace promptTemplate "CODE_PLACEHOLDER" code;
     responseSchema := None |}.

Definition unavailable : string :=
  "Servizio di refactoring non disponibile. Chiave API mancante.".

Definition errorMessage (error : Thrown) : string :=
  match error with
  | ErrorObject message => message
  | OtherValue _ => "Si " +:+ e_grave +:+ " verificato un errore API sconosciuto."
  end.

Definition refactorCode (host : Host) (connect : Connect)
    (code promptTemplate apiKeyOverride : string) : Result string :=
  match getAiClient host connect apiKeyOverride with
  | None => Throw (ErrorObject unavailable)
  | Some ai =>
      if negb (Js.truthy (Js.trim code)) then Ok code
      else
        match ai (refactorRequest code promptTemplate) with
        | Ok text => Ok (cleanAiCodeResponse text)
        | Throw error =>
            Throw (ErrorObject ("Refactoring del codice fallito. Motivo: "
                                +:+ errorMessage error))
        end
  end.

(** [handleRefactorRequest] of [App.tsx]: [None] is the [null] returned
    after the alert. *)
Definition handleRefactorRequest (host : Host) (connect : Connect)
    (editableRefactorPrompt apiKeyOverride currentContent : string) : option string :=
  match refactorCode host connect currentContent editableRefactorPrompt apiKeyOverride with
  | Ok newContent => Some newContent
  | Throw _ => None
  end.

End Refactor.

(** ** The editor view ([EditorView.tsx]) *)

Module FileEditor.

(** The local state of the text editor. *)
Record State : Type := {
  content : string;
  isDirty : bool;
  isRefactoring : bool
}.

(** [handleRefactorClick], with [onRefactor] the request of the parent
    (which never throws). *)
Definition handleRefactorClick (file : option ParsedFile)
    (onRefactor : string -> option string) (st : State) : State :=
  match file with
  | None => st
  | Some _ =>
      if isRefactoring st then st
      else
        match onRefactor (content st) with
        | Some newContent =>
            {| content := newContent; isDirty := true; isRefactoring := false |}
        | None =>
            {| content := content st; isDirty := isDirty st; isRefactoring := false |}
        end
  end.

End FileEditor.

Module EditorView.

Definition withParsedFiles (st : AppState) (fs : list ParsedFile) (sel : option string)
  : AppState :=
  {| appStep := appStep st; error := error st; parsedFiles := fs;
     selectedFilePath := sel; processingMessage := processingMessage st |}.

(** [currentFiles.map(f => f.path === path ? { ...f, content } : f)]. *)
Definition handleSaveFile (p c : string) (st : AppState) : AppState :=
  withParsedFiles st
    ((fun f => if String.eqb (path f) p then setContent c f else f) <$> parsedFiles st)
    (selectedFilePath st).

Definition handleAddFile (p : string) (st : AppState) : AppState :=
  if negb (Js.truthy p) || somePath p (parsedFiles st) then st
  else withParsedFiles st
         (parsedFiles st ++ [{| path := p; content := EmptyString |}]) (Some p).

(** [confirmed] is the answer to the [confirm] dialog. *)
Definition handleDeleteFile (confirmed : bool) (p : string) (st : AppState) : AppState :=
  if confirmed then
    withParsedFiles st
      (filter (fun f => path f <> p) (parsedFiles st))
      (if decide (selectedFilePath st = Some p) then None else selectedFilePath st)
  else st.

(** [parsedFiles.find(f => f.path === selectedFilePath) || null]. *)
Definition selectedFile (st : AppState) : option ParsedFile :=
  match selectedFilePath st with
  | Some p => snd <$> list_find (fun f => path f = p) (parsedFiles st)
  | None => None
  end.

(** [handleAddFileSubmit] of the file tree: the typed path is trimmed
    and a blank one is ignored. *)
Definition handleAddFileSubmit (newFilePath : string) (st : AppState) : AppState :=
  if Js.truthy (Js.trim newFilePath) then handleAddFile (Js.trim newFilePath) st else st.

End EditorView.

(** ** The workflow editor ([WorkflowEditor.tsx]) *)

Module WorkflowEditor.

(** [steps.map(s => s.id === updatedStep.id ? updatedStep : s)]. *)
Definition handleUpdate (updatedStep : WorkflowStep) (steps : list WorkflowStep)
  : list WorkflowStep :=
  (fun s => if String.eqb (id s) (id updatedStep) then updatedStep else s) <$> steps.

Definition handleDelete (confirmed : bool) (i : string) (steps : list WorkflowStep)
  : list WorkflowStep :=
  if confirmed then filter (fun s => id s <> i) steps else steps.

(** [uuid] is what [uuidv4()] returns. *)
Definition handleClone (uuid : string) (i : string) (steps : list WorkflowStep)
  : list WorkflowStep :=
  match list_find (fun s => id s = i) steps with
  | None => steps
  | Some (index, stepToClone) =>
      let newStep :=
        {| id := uuid; type := type stepToClone;
           name := name stepToClone +:+ " (Copia)";
           prompt := prompt stepToClone; enabled := enabled stepToClone |} in
      take (S index) steps ++ newStep :: drop (S index) steps
  end.

(** The start of [splice(start, ...)] on an array of length [len]. *)
Definition spliceStart (start : Z) (len : nat) : nat :=
  if (start <? 0)%Z then Z.to_nat (Z.max (Z.of_nat len + start) 0)
  else Nat.min (Z.to_nat start) len.

Definition findIndex (i : string) (steps : list WorkflowStep) : Z :=
  match list_find (fun s => id s = i) steps with
  | Some (index, _) => Z.of_nat index
  | None => (-1)%Z
  end.

(** [handleDrop]: the dragged step is taken out and put back at the
    index the target had.  [None]: the array would hold [undefined]
    (nothing could be taken out of an empty array). *)
Definition handleDrop (draggedItemId : option string) (targetId : string)
    (steps : list WorkflowStep) : option (list WorkflowStep) :=
  match draggedItemId with
  | None => Some steps
  | Some dragged =>
      if negb (Js.truthy dragged) || String.eqb dragged targetId then Some steps
      else
        let draggedIndex := findIndex dragged steps in
        let targetIndex := findIndex targetId steps in
        let from := spliceStart draggedIndex (length steps) in
        match steps !! from with
        | None => None
        | Some draggedItem =>
            let newSteps := delete from steps in
            let to := spliceStart targetIndex (length newSteps) in
            Some (take to newSteps ++ draggedItem :: drop to newSteps)
        end
  end.

End WorkflowEditor.

(** ** The chat with the architect ([App.tsx], [ChatArchitectView.tsx]) *)

Module Chat.

Inductive Role : Type := user | model.

#[global] Instance Role_eq_dec : EqDecision Role.
Proof. solve_decision. Defined.

Record ChatMessage : Type := {
  role : Role;
  content : string
}.

Inductive AppView : Type := architect | main.

(** What iterating over the stream yields: the chunks that arrive, and
    the value thrown after them when the stream breaks. *)
Record Stream : Type := {
  chunks : list string;
  failure : option Thrown
}.

(** [currentChat.sendMessageStream({ message })]. *)
Definition Session : Type := string -> Result Stream.

Record State : Type := {
  chatHistory : list ChatMessage;
  error : option string;
  isArchitectProcessing : bool;
  projectInputText : string;
  currentView : AppView
}.

Definition missingKey : string :=
  "Per favore, fornisci una chiave API valida per usare l'Architetto Chat.".

(** [err.message || 'Errore sconosciuto'] behind the fixed prefix. *)
Definition errorMessage (err : Thrown) : string :=
  "Si " +:+ e_grave +:+ " verificato un errore con l'Architetto AI: "
  +:+ match err with
      | ErrorObject message => if Js.truthy message then message else "Errore sconosciuto"
      | OtherValue _ => "Errore sconosciuto"
      end.

Definition placeholder : ChatMessage := {| role := model; content := "..." |}.

(** [msg.role !== 'model' || msg.content !== '...']. *)
Definition notPlaceholder (msg : ChatMessage) : Prop :=
  role msg <> model \/ content msg <> "...".

#[global] Instance notPlaceholder_dec msg : Decision (notPlaceholder msg).
Proof. unfold notPlaceholder. apply _. Defined.

(** The [for await] loop: each chunk is added to [modelResponse], which
    then overwrites the last message of the history. *)
Fixpoint receive (modelResponse : string) (arrived : list string)
    (history : list ChatMessage) : list ChatMessage :=
  match arrived with
  | [] => history
  | chunk :: rest =>
      let modelResponse' := modelResponse +:+ chunk in
      receive modelResponse' rest
        (<[length history - 1 := {| role := model; content := modelResponse' |}]> history)
  end.

Definition settled (st : State) (history : list ChatMessage) (err : option string) : State :=
  {| chatHistory := history; error := err; isArchitectProcessing := false;
     projectInputText := projectInputText st; currentView := currentView st |}.

Definition handleSendMessageToArchitect (host : Host) (connect : Connect)
    (currentChat : Session) (apiKeyOverride message : string) (st : State) : State :=
  match getAiClient host connect apiKeyOverride with
  | None =>
      {| chatHistory := chatHistory st; error := Some missingKey;
         isArchitectProcessing := isArchitectProcessing st;
         projectInputText := projectInputText st; currentView := currentView st |}
  | Some _ =>
      let updatedHistory := chatHistory st ++ [{| role := user; content := message |}] in
      match currentChat message with
      | Throw err =>
          settled st (filter notPlaceholder updatedHistory) (Some (errorMessage err))
      | Ok stream =>
          let history := receive EmptyString (chunks stream) (updatedHistory ++ [placeholder]) in
          match failure stream with
          | None => settled st history None
          | Some err => settled st (filter notPlaceholder history) (Some (errorMessage err))
          end
      end
  end.

(** [[...chatHistory].reverse().find(m => m.role === 'model')]. *)
Definition lastModelMessage (history : list ChatMessage) : option ChatMessage :=
  snd <$> list_find (fun m => role m = model) (reverse history).

Definition handleUseProjectFromChat (st : State) : State :=
  {| chatHistory := chatHistory st; error := error st;
     isArchitectProcessing := isArchitectProcessing st;
     projectInputText :=
       match lastModelMessage (chatHistory st) with
       | Some m => content m
       | None => projectInputText st
       end;
     currentView := main |}.

(** [chatHistory.some(m => m.role === 'model' && m.content.includes('###'))]. *)
Definition isReadyToUseProject (history : list ChatMessage) : bool :=
  existsb (fun m => bool_decide (role m = model) && Js.includes "###" (content m)) history.

End Chat.

(** ** Vocabulary of the further properties *)

(** The selected path, when there is one, names a file of the project. *)
Definition validSelection (st : AppState) : Prop :=
  forall p, selectedFilePath st = Some p -> p ∈ paths (parsedFiles st).

Definition editorState : AppState :=
  {| appStep := step_editor; error := None;
     parsedFiles := [ {| path := "a.txt"; content := "hello" |};
                      {| path := "b.txt"; content := "world" |} ];
     selectedFilePath := Some "a.txt"; processingMessage := None |}.

Definition ids (steps : list WorkflowStep) : list string := id <$> steps.

(** The copy [handleClone] makes of a step. *)
Definition cloneOf (uuid : string) (s : WorkflowStep) : WorkflowStep :=
  {| id := uuid; type := type s; name := name s +:+ " (Copia)";
     prompt := prompt s; enabled := enabled s |}.

(** [s] is the first step with its identifier, at index [i]. *)
Definition firstWithId (steps : list WorkflowStep) (i : nat) (s : WorkflowStep) : Prop :=
  list_find (fun x => id x = id s) steps = Some (i, s).

(** The chunks of a stream put together. *)
Definition fullAnswer (chunks : list string) : string :=
  foldr String.append EmptyString chunks.

Definition userMessage (message : string) : Chat.ChatMessage :=
  {| Chat.role := Chat.user; Chat.content := message |}.

Definition modelMessage (text : string) : Chat.ChatMessage :=
  {| Chat.role := Chat.model; Chat.content := text |}.

Definition sampleChat : Chat.State :=
  {| Chat.chatHistory := [modelMessage "Ciao!"]; Chat.error := None;
     Chat.isArchitectProcessing := false; Chat.projectInputText := "draft";
     Chat.currentView := Chat.architect |}.

Definition streaming (arrived : list string) (broken : option Thrown) : Chat.Session :=
  fun _ => Ok {| Chat.chunks := arrived; Chat.failure := broken |}.

Definition cleanEditor : FileEditor.State :=
  {| FileEditor.content := "let x = 1"; FileEditor.isDirty := false;
     FileEditor.isRefactoring := false |}.

(** The texts of plain files, each followed by the delimiter line. *)
Definition plainText (texts : list string) : string :=
  foldr (fun t rest => t +:+ nl +:+ "---" +:+ nl +:+ rest) EmptyString texts.

(** A plain file that is read as [t]. *)
Definition plainFile (file : Ingest.File) (t : string) : Prop :=
  Ingest.isZip file = false /\ Ingest.text file = Ok t.

Definition readableEntry (entry : Ingest.ZipObject) : Prop :=
  Ingest.dir entry = true \/ exists c, Ingest.async entry = Ok c.

(** Every read of the file succeeds. *)
Definition readable (file : Ingest.File) : Prop :=
  if Ingest.isZip file
  then exists entries,
         Ingest.loadAsync file = Ok entries /\ Forall readableEntry entries
  else exists t, Ingest.text file = Ok t.

(** The first read of the file that does not succeed throws [err]: the
    read of a plain file, the opening of an archive, or the read of
    the first entry of the archive that cannot be read. *)
Definition failsWith (file : Ingest.File) (err : Thrown) : Prop :=
  if Ingest.isZip file
  then Ingest.loadAsync file = Throw err
       \/ exists before entry after,
            Ingest.loadAsync file = Ok (before ++ entry :: after)
            /\ Forall readableEntry before
            /\ Ingest.dir entry = false
            /\ Ingest.async entry = Throw err
  else Ingest.text file = Throw err.

Definition notesFile : Ingest.File :=
  {| Ingest.name := "notes.md"; Ingest.type := "text/markdown";
     Ingest.text := Ok "# notes";
     Ingest.loadAsync := Throw (OtherValue "not an archive") |}.

Definition lockedFile : Ingest.File :=
  {| Ingest.name := "locked.md"; Ingest.type := "text/markdown";
     Ingest.text := Throw (ErrorObject "The requested file could not be read");
     Ingest.loadAsync := Throw (OtherValue "not an archive") |}.

Definition brokenZip : Ingest.File :=
  {| Ingest.name := "broken.zip"; Ingest.type := "application/zip";
     Ingest.text := Ok EmptyString;
     Ingest.loadAsync := Throw (ErrorObject "Corrupted zip: missing central directory") |}.

Definition notesAnswer : string :=
  "{" +:+ q "documentationNotes" +:+ ":" +:+ q "new notes" +:+ "}".

Definition findStep : WorkflowStep :=
  {| id := "1"; type := FIND_FILES; name := "Trova File Aggiuntivi";
     prompt := "ORIGINAL_CONTENT_PLACEHOLDER PARSED_FILES_PLACEHOLDER"; enabled := true |}.

Definition docsStep : WorkflowStep :=
  {| id := "2"; type := EXTRACT_DOCS; name := "Estrai Note di Documentazione";
     prompt := "ORIGINAL_CONTENT_PLACEHOLDER"; enabled := true |}.

Definition readmeStep : WorkflowStep :=
  {| id := "3"; type := GENERATE_README; name := "Genera README.md";
     prompt := "readme"; enabled := true |}.

Definition switchedOff (s : WorkflowStep) : WorkflowStep :=
  {| id := id s; type := type s; name := name s; prompt := prompt s; enabled := false |}.

(** * Properties *)

(** ** Facts about the string primitives *)

Section StringFacts.

Lemma isChar_eq a b : isChar a b = true <-> a = b.
Proof. unfold isChar. apply Ascii.eqb_eq. Qed.

Lemma isChar_refl a : isChar a a = true.
Proof. by apply isChar_eq. Qed.

Lemma app_cons c s t : String c s +:+ t = String c (s +:+ t).
Proof. reflexivity. Qed.

Lemma app_empty_l s : EmptyString +:+ s = s.
Proof. reflexivity. Qed.

Lemma app_empty_r s : s +:+ EmptyString = s.
Proof. induction s as [|c s IH]; [done | by rewrite app_cons, IH]. Qed.

Lemma app_assoc_s a b c : (a +:+ b) +:+ c = a +:+ (b +:+ c).
Proof. induction a as [|x a IH]; [done | by rewrite !app_cons, IH]. Qed.

Lemma length_app_s a b : String.length (a +:+ b) = String.length a + String.length b.
Proof. induction a as [|x a IH]; [done | rewrite app_cons; simpl; by rewrite IH]. Qed.

Lemma startsWith_app p s : Js.startsWith p (p +:+ s) = true.
Proof.
  induction p as [|c p IH]; [done |].
  rewrite app_cons. simpl. by rewrite isChar_refl, IH.
Qed.

Lemma startsWith_inv p s :
  Js.startsWith p s = true -> s = p +:+ Js.substringFrom (String.length p) s.
Proof.
  revert s. induction p as [|c p IH]; intros s H; [by destruct s |].
  destruct s as [|d s]; [done |]. simpl in H.
  apply andb_true_iff in H as [Hc Hp]. apply isChar_eq in Hc as ->.
  rewrite app_cons. simpl. f_equal. by apply IH.
Qed.

Lemma substringFrom_app a b : Js.substringFrom (String.length a) (a +:+ b) = b.
Proof. induction a as [|x a IH]; [by destruct b | by rewrite app_cons]. Qed.

Lemma startsWith_app_more p x y :
  Js.startsWith p x = true -> Js.startsWith p (x +:+ y) = true.
Proof.
  revert x. induction p as [|c p IH]; intros x H; [done |].
  destruct x as [|d x]; [done |]. rewrite app_cons. simpl in *.
  apply andb_true_iff in H as [-> Hp]. simpl. by apply IH.
Qed.

Lemma startsWith_app_short p x y :
  Js.startsWith p (x +:+ y) = true -> String.length p <= String.length x ->
  Js.startsWith p x = true.
Proof.
  revert x. induction p as [|c p IH]; intros x H Hlen; [done |].
  destruct x as [|d x]; simpl in Hlen; [lia |]. rewrite app_cons in H. simpl in *.
  apply andb_true_iff in H as [-> Hp]. simpl. apply IH; [done | lia].
Qed.

Lemma breakOn_Some d s a b : Js.breakOn d s = Some (a, b) -> s = a +:+ d +:+ b.
Proof.
  revert a. induction s as [|c s IH]; intros a; simpl.
  - destruct (Js.startsWith d EmptyString) eqn:E; [|done].
    intros [= <- <-]. by apply startsWith_inv.
  - destruct (Js.startsWith d (String c s)) eqn:E.
    + intros [= <- <-]. by apply startsWith_inv.
    + destruct (Js.breakOn d s) as [[a' b']|] eqn:Eb; [|done].
      intros [= <- <-]. rewrite app_cons. f_equal. by apply IH.
Qed.

Lemma truthy_nonempty s : Js.truthy s = true <-> s <> EmptyString.
Proof. by destruct s. Qed.

Lemma breakOn_eq d s :
  Js.breakOn d s =
  if Js.startsWith d s then Some (EmptyString, Js.substringFrom (String.length d) s)
  else match s with
       | EmptyString => None
       | String c s' =>
           match Js.breakOn d s' with
           | Some (a, b) => Some (String c a, b)
           | None => None
           end
       end.
Proof. by destruct s. Qed.

Lemma includes_mid d a b : Js.includes d (a +:+ d +:+ b) = true.
Proof.
  unfold Js.includes. induction a as [|c a IH].
  - rewrite app_empty_l, breakOn_eq. by rewrite startsWith_app.
  - rewrite app_cons, breakOn_eq.
    destruct (Js.startsWith d (String c (a +:+ d +:+ b))); [done |].
    by destruct (Js.breakOn d (a +:+ d +:+ b)) as [[]|].
Qed.

End StringFacts.

(** ** The step executors *)

Section StepFacts.

Context (host : Host) (connect : Connect).

Lemma getAiClient_noCredential apiKeyOverride :
  noCredential host apiKeyOverride -> getAiClient host connect apiKeyOverride = None.
Proof.
  intros [-> [H | H]]; unfold getAiClient; simpl; by rewrite H.
Qed.

Lemma getProp_truthy k v w : Json.getProp k v = Some w -> Json.truthy v = true.
Proof. by destruct v. Qed.

(** Text that [JSON.parse] refuses is read as [null]. *)
Lemma safeJsonParse_malformed text :
  (forall jsonText, JSON_parse host jsonText = None) ->
  safeJsonParse host text = Json.JNull /\ stringNotesOf (safeJsonParse host text) = None.
Proof. intros Hbad. unfold safeJsonParse. by rewrite Hbad. Qed.

(** Whether a number counts as true or false never matters to the
    steps: a number has none of the properties they read. *)
Lemma number_never_matters lexeme acc :
  additionalFilesOf (Json.JNumber lexeme) = Json.JArray []
  /\ stringNotesOf (Json.JNumber lexeme) = None
  /\ pushCandidate acc (Json.JNumber lexeme) = acc.
Proof.
  unfold additionalFilesOf, stringNotesOf, pushCandidate. simpl.
  by destruct (negb (Json.mantissaIsZero lexeme)).
Qed.

(** C5: without a credential Find Additional Files and Extract
    Documentation Notes return the state they were given, and Generate
    README returns the fixed, non-empty text saying that no API key was
    configured; each is a total function, so nothing is thrown. *)
Theorem no_credential_steps_skip pipelineData promptText apiKeyOverride :
  noCredential host apiKeyOverride ->
  findAdditionalFiles host connect pipelineData promptText apiKeyOverride = pipelineData
  /\ extractDocumentationNotes host connect pipelineData promptText apiKeyOverride
     = pipelineData
  /\ generateReadme host connect pipelineData promptText apiKeyOverride = readmeSkipped
  /\ readmeSkipped <> EmptyString
  /\ Js.includes "stata configurata una chiave API" readmeSkipped = true.
Proof.
  intros Hno. apply getAiClient_noCredential in Hno.
  unfold findAdditionalFiles, extractDocumentationNotes, generateReadme.
  rewrite Hno. by vm_compute.
Qed.

(** C10: whatever the service does, Extract Documentation Notes leaves
    [fullProjectContent] and [files] as they were; only
    [documentationNotes] can differ. *)
Theorem extractDocumentationNotes_frame pipelineData promptText apiKeyOverride :
  fullProjectContent
    (extractDocumentationNotes host connect pipelineData promptText apiKeyOverride)
  = fullProjectContent pipelineData
  /\ files (extractDocumentationNotes host connect pipelineData promptText apiKeyOverride)
     = files pipelineData.
Proof.
  unfold extractDocumentationNotes.
  destruct (getAiClient host connect apiKeyOverride) as [ai|]; [|done].
  destruct (ai _) as [text|err]; [|done].
  destruct (Json.truthy _); [|done].
  destruct (Json.getProp _ _) as [[]|]; done.
Qed.

(** C1, as the code has it: when the service call is rejected the step
    appends the marked diagnostic to the notes (after a line feed, or
    alone when there were none), keeping the prior notes in front; when
    the call answers but the text is not JSON or has no string
    [documentationNotes], the state is returned as it was. *)
Theorem extractDocumentationNotes_failures pipelineData promptText apiKeyOverride ai :
  getAiClient host connect apiKeyOverride = Some ai ->
  let result :=
    extractDocumentationNotes host connect pipelineData promptText apiKeyOverride in
  (forall error, ai (docsRequest pipelineData promptText) = Throw error ->
     documentationNotes result
     = (if Js.truthy (documentationNotes pipelineData)
        then documentationNotes pipelineData +:+ nl +:+ fallbackNote error
        else fallbackNote error)
     /\ Js.startsWith (documentationNotes pipelineData) (documentationNotes result) = true
     /\ Js.includes "Estrazione della documentazione AI fallita. Errore: "
          (documentationNotes result) = true)
  /\ (forall text, ai (docsRequest pipelineData promptText) = Ok text ->
        stringNotesOf (safeJsonParse host text) = None ->
        result = pipelineData).
Proof.
  intros Hai result. subst result. unfold extractDocumentationNotes. rewrite Hai.
  fold (docsRequest pipelineData promptText). split.
  - intros error ->. unfold withNotes. cbn [documentationNotes].
    destruct (Js.truthy (documentationNotes pipelineData)) eqn:E.
    + split; [done |]. split; [apply startsWith_app |].
      unfold fallbackNote. rewrite <- (app_assoc_s _ nl). apply includes_mid.
    + destruct (documentationNotes pipelineData); [|done].
      split; [done |]. split; [done |]. unfold fallbackNote.
      rewrite <- (app_empty_l ("Estrazione della documentazione AI fallita. Errore: " +:+ _)).
      apply includes_mid.
  - intros text ->. unfold stringNotesOf. intros H.
    destruct (Json.truthy _); [|done].
    destruct (Json.getProp _ _) as [[]|]; done.
Qed.

End StepFacts.

Lemma no_credential_steps_skip_witness :
  noCredential hostNoKey EmptyString
  /\ findAdditionalFiles hostNoKey (answering "{}") samplePipeline "p" EmptyString
     = samplePipeline.
Proof.
  assert (H : noCredential hostNoKey EmptyString) by (split; [done | by left]).
  split; [exact H |].
  exact (proj1 (no_credential_steps_skip hostNoKey (answering "{}") samplePipeline "p"
                  EmptyString H)).
Defined.

Lemma extractDocumentationNotes_failures_witness :
  getAiClient hostWithKey (failing "boom") EmptyString = Some (failing "boom" "env-key")
  /\ documentationNotes
       (extractDocumentationNotes hostWithKey (failing "boom") samplePipeline "p" EmptyString)
     = "prior notes" +:+ nl +:+ "Estrazione della documentazione AI fallita. Errore: boom".
Proof.
  assert (H : getAiClient hostWithKey (failing "boom") EmptyString
              = Some (failing "boom" "env-key")) by reflexivity.
  split; [exact H |].
  exact (proj1 (proj1 (extractDocumentationNotes_failures hostWithKey (failing "boom")
                         samplePipeline "p" EmptyString _ H)
                  (ErrorObject "boom") eq_refl)).
Defined.

(** C1 as stated fails: a response that is not JSON, or a JSON object
    without [documentationNotes], leaves the notes exactly as they were,
    with no diagnostic in them. *)
Lemma extractDocumentationNotes_silent_on_bad_response :
  safeJsonParse hostWithKey "this is not JSON" = Json.JNull
  /\ extractDocumentationNotes hostWithKey (answering "this is not JSON")
       samplePipeline "ORIGINAL_CONTENT_PLACEHOLDER" EmptyString = samplePipeline
  /\ safeJsonParse hostWithKey "{}" = Json.JObject []
  /\ extractDocumentationNotes hostWithKey (answering "{}")
       samplePipeline "ORIGINAL_CONTENT_PLACEHOLDER" EmptyString = samplePipeline
  /\ documentationNotes samplePipeline = "prior notes"
  /\ Js.includes "fallita" (documentationNotes samplePipeline) = false.
Proof. by vm_compute. Qed.

(** ** The orchestrator *)

Section OrchestratorFacts.

Context (host : Host) (service : nat -> Connect).
Context (workflowSteps : list WorkflowStep) (apiKeyOverride : string).

Lemma activeSteps_all_disabled :
  Forall (fun step => enabled step = false) workflowSteps ->
  activeSteps workflowSteps = [].
Proof.
  unfold activeSteps. induction 1 as [|step l Hstep _ IH]; [done |].
  rewrite filter_cons. destruct (decide (enabled step = true)) as [E|E]; [congruence | done].
Qed.

(** C4: when the file collection is empty after the extractor and the
    enabled steps, the run ends in the failure state (back at the input
    stage) with the fixed human-readable message; the files of the run
    are not published. *)
Theorem empty_collection_is_failure state input pipelineData :
  afterSteps host service workflowSteps apiKeyOverride input = Ok pipelineData ->
  files pipelineData = [] ->
  runPipeline host service workflowSteps apiKeyOverride input
  = Throw (ErrorObject emptyFilesMessage)
  /\ handleProcessInput host service workflowSteps apiKeyOverride state input
     = {| appStep := step_input;
          error := Some emptyFilesMessage;
          parsedFiles := parsedFiles state;
          selectedFilePath := selectedFilePath state;
          processingMessage := None |}
  /\ emptyFilesMessage <> EmptyString.
Proof.
  intros Hafter Hfiles.
  assert (Hrun : runPipeline host service workflowSteps apiKeyOverride input
                 = Throw (ErrorObject emptyFilesMessage)).
  { unfold runPipeline. rewrite Hafter. simpl. by rewrite Hfiles. }
  split; [done |]. split; [|done].
  unfold handleProcessInput. by rewrite Hrun.
Qed.

(** A run that reaches the editor publishes a non-empty collection. *)
Lemma success_has_files state input :
  appStep (handleProcessInput host service workflowSteps apiKeyOverride state input)
  = step_editor ->
  parsedFiles (handleProcessInput host service workflowSteps apiKeyOverride state input)
  <> [].
Proof.
  unfold handleProcessInput, runPipeline.
  destruct (afterSteps _ _ _ _ _) as [pd|e]; simpl; [|done].
  destruct (files pd) eqn:E; simpl; [done |]. by rewrite E.
Qed.

(** C9: with every step disabled, the end-to-end input yields [a.txt]
    with content [hello] then [b.txt] with content [world], and empty
    notes; the run ends in the editor with exactly these files. *)
Theorem two_files_end_to_end state :
  Forall (fun step => enabled step = false) workflowSteps ->
  runPipeline host service workflowSteps apiKeyOverride (TextInput twoFilesText)
  = Ok {| fullProjectContent := twoFilesText;
          files := [ {| path := "a.txt"; content := "hello" |};
                     {| path := "b.txt"; content := "world" |} ];
          documentationNotes := EmptyString |}
  /\ handleProcessInput host service workflowSteps apiKeyOverride state
       (TextInput twoFilesText)
     = {| appStep := step_editor;
          error := None;
          parsedFiles := [ {| path := "a.txt"; content := "hello" |};
                           {| path := "b.txt"; content := "world" |} ];
          selectedFilePath := Some "a.txt";
          processingMessage := None |}.
Proof.
  intros Hoff.
  assert (Hrun : runPipeline host service workflowSteps apiKeyOverride
                   (TextInput twoFilesText)
                 = Ok {| fullProjectContent := twoFilesText;
                         files := [ {| path := "a.txt"; content := "hello" |};
                                    {| path := "b.txt"; content := "world" |} ];
                         documentationNotes := EmptyString |}).
  { unfold runPipeline, afterSteps. rewrite (activeSteps_all_disabled Hoff).
    by vm_compute. }
  split; [done |]. unfold handleProcessInput. by rewrite Hrun.
Qed.

End OrchestratorFacts.

Lemma empty_collection_is_failure_witness :
  afterSteps hostNoKey (fun _ => answering "{}") disabledSteps EmptyString
    (TextInput "plain prose, no headings and no fences")
  = Ok {| fullProjectContent := "plain prose, no headings and no fences";
          files := []; documentationNotes := EmptyString |}
  /\ error (handleProcessInput hostNoKey (fun _ => answering "{}") disabledSteps EmptyString
              initialAppState (TextInput "plain prose, no headings and no fences"))
     = Some emptyFilesMessage.
Proof.
  assert (H : afterSteps hostNoKey (fun _ => answering "{}") disabledSteps EmptyString
                (TextInput "plain prose, no headings and no fences")
              = Ok {| fullProjectContent := "plain prose, no headings and no fences";
                      files := []; documentationNotes := EmptyString |})
    by (vm_compute; reflexivity).
  split; [exact H |].
  exact (f_equal error
           (proj1 (proj2 (empty_collection_is_failure hostNoKey (fun _ => answering "{}")
                            disabledSteps EmptyString initialAppState _ _ H eq_refl)))).
Defined.

Lemma two_files_end_to_end_witness :
  Forall (fun step => enabled step = false) disabledSteps
  /\ runPipeline hostNoKey (fun _ => answering "{}") disabledSteps EmptyString
       (TextInput twoFilesText)
     = Ok {| fullProjectContent := twoFilesText;
             files := [ {| path := "a.txt"; content := "hello" |};
                        {| path := "b.txt"; content := "world" |} ];
             documentationNotes := EmptyString |}.
Proof.
  assert (H : Forall (fun step => enabled step = false) disabledSteps)
    by (repeat constructor).
  split; [exact H |].
  exact (proj1 (two_files_end_to_end hostNoKey (fun _ => answering "{}") disabledSteps
                  EmptyString initialAppState H)).
Defined.

(** ** Find Additional Files: path uniqueness *)

Section FindFilesFacts.

Lemma pushCandidate_cases acc file :
  pushCandidate acc file = acc
  \/ exists f, wellFormed file f /\ (path f ∉ acc.2)
               /\ pushCandidate acc file = (acc.1 ++ [f], {[path f]} ∪ acc.2).
Proof.
  unfold pushCandidate.
  destruct (Json.truthy file) eqn:Ht; [|by left].
  destruct (Json.getProp "path" file) as [[| | |p| |]|] eqn:Hp; try by left.
  destruct (Json.getProp "content" file) as [[| | |c| |]|] eqn:Hc; try by left.
  destruct (decide (p ∈ acc.2)) as [Hin|Hin]; [by left |].
  right. by exists {| path := p; content := c |}.
Qed.

Lemma pushCandidate_wellFormed acc file f :
  wellFormed file f ->
  pushCandidate acc file
  = if decide (path f ∈ acc.2) then acc else (acc.1 ++ [f], {[path f]} ∪ acc.2).
Proof.
  intros (Ht & Hp & Hc). unfold pushCandidate. rewrite Ht, Hp, Hc.
  by destruct f.
Qed.

Lemma paths_app fs gs : paths (fs ++ gs) = paths fs ++ paths gs.
Proof. unfold paths. apply fmap_app. Qed.

Lemma pushCandidate_present fs file f :
  wellFormed file f ->
  path f ∈ paths (pushCandidate (fs, list_to_set (paths fs)) file).1.
Proof.
  intros Hw. rewrite (pushCandidate_wellFormed _ _ f Hw). simpl.
  destruct (decide (path f ∈ _)) as [Hin|Hin]; simpl.
  - by apply elem_of_list_to_set in Hin.
  - rewrite paths_app. apply elem_of_app. right. simpl. by left.
Qed.

Lemma foldl_pushCandidate items : forall fs (ex : gset string),
  ex = list_to_set (paths fs) ->
  exists added,
    (foldl pushCandidate (fs, ex) items).1 = fs ++ added
    /\ NoDup (paths added)
    /\ (forall f, f ∈ added ->
          (path f ∉ paths fs) /\ exists file, file ∈ items /\ wellFormed file f)
    /\ (forall file f, file ∈ items -> wellFormed file f -> path f ∈ paths (fs ++ added)).
Proof.
  induction items as [|file items IH]; intros fs ex Hex.
  - exists []. simpl. rewrite app_nil_r.
    split; [done |]. split; [constructor |].
    split; [by intros f Hf%elem_of_nil | by intros file f Hf%elem_of_nil].
  - simpl.
    assert (Hhead : forall f, wellFormed file f ->
              path f ∈ paths (pushCandidate (fs, ex) file).1).
    { intros f Hw. subst ex. by apply pushCandidate_present. }
    destruct (pushCandidate_cases (fs, ex) file)
      as [Hsame | (new & Hwf & Hfresh & Hpush)].
    + rewrite Hsame in *. simpl in Hhead.
      destruct (IH fs ex Hex) as (added & Heq & Hnd & Hfrom & Hall).
      exists added. split; [done |]. split; [done |]. split.
      * intros f Hf. destruct (Hfrom f Hf) as (Hnot & file' & Hin & Hw).
        split; [done |]. exists file'. split; [by right | done].
      * intros file' f [-> | Hin]%elem_of_cons Hw; [|by eapply Hall].
        rewrite paths_app. apply elem_of_app. left. by apply Hhead.
    + simpl in Hpush, Hfresh. rewrite Hpush in *. simpl in Hhead.
      destruct (IH (fs ++ [new]) ({[path new]} ∪ ex)) as (added & Heq & Hnd & Hfrom & Hall).
      { subst ex. rewrite paths_app, list_to_set_app_L. simpl.
        rewrite (right_id_L ∅ (∪)). apply (comm_L (∪)). }
      exists (new :: added). rewrite Heq, <- app_assoc. simpl.
      split; [done |]. split; [|split].
      * apply NoDup_cons. split; [|done].
        intros (g & Hg & Hin)%list_elem_of_fmap.
        destruct (Hfrom g Hin) as (Hnot & _). apply Hnot.
        rewrite paths_app, elem_of_app. right. rewrite <- Hg. simpl. by left.
      * intros f [-> | Hin]%elem_of_cons.
        -- split; [subst ex; by rewrite elem_of_list_to_set in Hfresh |].
           exists file. split; [by left | done].
        -- destruct (Hfrom f Hin) as (Hnot & file' & Hin' & Hw). split.
           ++ intros Hf. apply Hnot. rewrite paths_app, elem_of_app. by left.
           ++ exists file'. split; [by right | done].
      * intros file' f [-> | Hin]%elem_of_cons Hw.
        -- specialize (Hhead f Hw). change (fs ++ new :: added) with (fs ++ [new] ++ added).
           rewrite app_assoc, paths_app. apply elem_of_app. by left.
        -- specialize (Hall file' f Hin Hw). by rewrite <- app_assoc in Hall.
Qed.

End FindFilesFacts.

Section FindFilesTheorem.

Context (host : Host) (connect : Connect).


End FindFilesTheorem.


(** On that response only the first [n.txt] is appended. *)
Example findAdditionalFiles_duplicates :
  files (findAdditionalFiles hostWithKey (answering duplicatesAnswer)
           samplePipeline "PARSED_FILES_PLACEHOLDER" EmptyString)
  = [ {| path := "a.txt"; content := "hello" |};
      {| path := "n.txt"; content := "first" |} ].
Proof. by vm_compute. Qed.

(** ** The README upsert *)

Section UpsertFacts.

Variable readmeContent : string.

Lemma alter_setContent_insert (fs : list ParsedFile) (i : nat) f :
  fs !! i = Some f ->
  alter (setContent readmeContent) i fs
  = <[i := {| path := path f; content := readmeContent |}]> fs.
Proof.
  intros Hi. apply list_eq. intros j.
  destruct (decide (i = j)) as [<- | Hne].
  - rewrite list_lookup_alter_eq, Hi. simpl.
    rewrite list_lookup_insert_eq; [done |]. by eapply lookup_lt_Some.
  - by rewrite list_lookup_alter_ne, list_lookup_insert_ne.
Qed.

Lemma paths_alter_setContent (fs : list ParsedFile) (i : nat) :
  paths (alter (setContent readmeContent) i fs) = paths fs.
Proof.
  unfold paths. rewrite (list_fmap_alter path (setContent readmeContent) (fun p => p));
    [|by apply Forall_forall].
  by apply list_alter_id.
Qed.

Lemma readmeCount_paths fs gs : paths fs = paths gs -> readmeCount fs = readmeCount gs.
Proof.
  unfold readmeCount, paths. revert gs.
  induction fs as [|f fs IH]; intros [|g gs] Heq; try done.
  injection Heq as Hp Hrest. rewrite !filter_cons.
  specialize (IH gs Hrest).
  destruct (decide (isReadme f)) as [Hf|Hf], (decide (isReadme g)) as [Hg|Hg];
    simpl; try (by rewrite IH); exfalso.
  - apply Hg. unfold isReadme in *. by rewrite <- Hp.
  - apply Hf. unfold isReadme in *. by rewrite Hp.
Qed.

Lemma readmeCount_zero fs : readmeCount fs = 0 <-> forall f, f ∈ fs -> ~ isReadme f.
Proof.
  unfold readmeCount. rewrite length_zero_iff_nil. split.
  - intros Hnil f Hin Hf.
    assert (Hmem : f ∈ filter isReadme fs) by by apply list_elem_of_filter.
    rewrite Hnil in Hmem. by apply elem_of_nil in Hmem.
  - intros Hnone. destruct (filter isReadme fs) as [|f l] eqn:E; [done |].
    assert (Hmem : f ∈ filter isReadme fs) by (rewrite E; by left).
    apply list_elem_of_filter in Hmem as [Hf Hin]. by destruct (Hnone f Hin).
Qed.

(** C3, as the code has it: the FIRST entry whose path is README.md up
    to case gets the generated content, keeping its path and position,
    every other entry and the length of the collection, so the number
    of README entries is what it was; with no such entry a file
    README.md with the generated content is put in front. *)
Theorem upsertReadme_spec (fs : list ParsedFile) :
  (forall (i : nat) f,
      fs !! i = Some f -> isReadme f ->
      (forall (j : nat) g, j < i -> fs !! j = Some g -> ~ isReadme g) ->
      upsertReadme readmeContent fs
      = <[i := {| path := path f; content := readmeContent |}]> fs
      /\ paths (upsertReadme readmeContent fs) = paths fs
      /\ readmeCount (upsertReadme readmeContent fs) = readmeCount fs)
  /\ ((forall f, f ∈ fs -> ~ isReadme f) ->
      upsertReadme readmeContent fs
      = {| path := "README.md"; content := readmeContent |} :: fs
      /\ readmeCount (upsertReadme readmeContent fs) = 1).
Proof.
  split.
  - intros i f Hi Hf Hfirst.
    assert (Hfind : list_find isReadme fs = Some (i, f)).
    { apply list_find_Some. split; [done |]. split; [done |].
      intros j g Hj Hlt. by apply (Hfirst j g). }
    unfold upsertReadme. rewrite Hfind.
    split; [by apply alter_setContent_insert |].
    split; [apply paths_alter_setContent |].
    apply readmeCount_paths, paths_alter_setContent.
  - intros Hnone.
    assert (Hfind : list_find isReadme fs = None).
    { apply list_find_None, Forall_forall. intros f Hin. by apply Hnone. }
    unfold upsertReadme. rewrite Hfind. split; [done |].
    unfold readmeCount. rewrite filter_cons.
    destruct (decide (isReadme _)) as [_|Hno]; [|by destruct Hno].
    simpl. f_equal. by apply readmeCount_zero.
Qed.

(** In every case the README count after the upsert is the old count,
    or one when there was none. *)
Lemma upsertReadme_count fs :
  readmeCount (upsertReadme readmeContent fs) = Nat.max 1 (readmeCount fs).
Proof.
  unfold upsertReadme. destruct (list_find isReadme fs) as [[i f]|] eqn:Hfind.
  - rewrite (readmeCount_paths _ fs) by apply paths_alter_setContent.
    apply list_find_Some in Hfind as (Hi & Hf & _).
    assert (readmeCount fs <> 0); [|lia].
    rewrite readmeCount_zero. intros Hnone. apply (Hnone f); [|done].
    by eapply list_elem_of_lookup_2.
  - assert (Hnone : forall f, f ∈ fs -> ~ isReadme f).
    { intros f Hin. apply list_find_None in Hfind.
      by apply (proj1 (Forall_forall _ _) Hfind). }
    apply readmeCount_zero in Hnone. unfold readmeCount in *. rewrite filter_cons.
    destruct (decide (isReadme _)) as [_|Hno]; [|by destruct Hno].
    simpl. by rewrite Hnone.
Qed.

End UpsertFacts.

Lemma upsertReadme_spec_witness :
  lowerCaseReadme !! 1 = Some {| path := "readme.md"; content := "old" |}
  /\ upsertReadme "new" lowerCaseReadme
     = [ {| path := "src/x.js"; content := "code" |};
         {| path := "readme.md"; content := "new" |} ].
Proof.
  split; [reflexivity |].
  refine (proj1 (proj1 (upsertReadme_spec "new" lowerCaseReadme) 1
                   {| path := "readme.md"; content := "old" |} eq_refl eq_refl _)).
  intros [|j] g Hlt Hj; [|lia]. injection Hj as <-. by vm_compute.
Defined.

(** C3 as stated fails: two entries can both be README.md up to case
    (the extractor produces them from two sections); the upsert rewrites
    the first and leaves two README entries, not exactly one. *)
Lemma upsertReadme_two_readmes :
  Extractor.parseWithRegex twoReadmesText = twoReadmes
  /\ NoDup (paths twoReadmes)
  /\ upsertReadme "new" twoReadmes
     = [ {| path := "README.md"; content := "new" |};
         {| path := "readme.md"; content := "two" |} ]
  /\ readmeCount (upsertReadme "new" twoReadmes) = 2.
Proof.
  split; [by vm_compute |]. split; [|by vm_compute].
  apply NoDup_cons. split; [|apply NoDup_singleton].
  intros Hin%list_elem_of_singleton. discriminate Hin.
Qed.

(** ** The extractor: cutting the text into sections *)

Section SplitFacts.

Lemma breakOn_length d s a b :
  Js.breakOn d s = Some (a, b) ->
  String.length s = String.length a + String.length d + String.length b.
Proof. intros ->%breakOn_Some. rewrite !length_app_s. lia. Qed.

Lemma breakOn_app_exact d b : Js.breakOn d (d +:+ b) = Some (EmptyString, b).
Proof. rewrite breakOn_eq, startsWith_app. by rewrite substringFrom_app. Qed.

(** No occurrence of [d] lies inside the text before its first one. *)
Lemma breakOn_before d s a b :
  d <> EmptyString -> Js.breakOn d s = Some (a, b) -> Js.breakOn d a = None.
Proof.
  intros Hd. revert a. induction s as [|c s IH]; intros a; rewrite breakOn_eq.
  - destruct (Js.startsWith d EmptyString) eqn:E; [|done].
    by destruct d.
  - destruct (Js.startsWith d (String c s)) eqn:E.
    + intros [= <- <-]. by destruct d.
    + destruct (Js.breakOn d s) as [[a' b']|] eqn:Eb; [|done].
      intros [= <- <-]. rewrite breakOn_eq, (IH a' eq_refl).
      destruct (Js.startsWith d (String c a')) eqn:E'; [|done].
      apply breakOn_Some in Eb. rewrite Eb, <- app_cons in E.
      by rewrite (startsWith_app_more _ _ _ E') in E.
Qed.

(** The first occurrence of [d0 c] in [a d0 c b] is the one shown when
    none lies in [a d0]. *)
Lemma breakOn_first d0 c a b :
  Js.breakOn (d0 +:+ String c EmptyString) (a +:+ d0) = None ->
  Js.breakOn (d0 +:+ String c EmptyString) (a +:+ (d0 +:+ String c EmptyString) +:+ b)
  = Some (a, b).
Proof.
  set (d := d0 +:+ String c EmptyString).
  induction a as [|x a IH]; intros Hnone.
  - rewrite app_empty_l. apply breakOn_app_exact.
  - rewrite app_cons, breakOn_eq in Hnone.
    destruct (Js.startsWith d (String x (a +:+ d0))) eqn:E; [done |].
    destruct (Js.breakOn d (a +:+ d0)) as [[]|] eqn:Eb; [done |].
    rewrite app_cons, breakOn_eq, (IH eq_refl).
    destruct (Js.startsWith d (String x (a +:+ d +:+ b))) eqn:E'; [|done].
    exfalso. unfold d in E' at 2.
    rewrite (app_assoc_s d0), <- (app_assoc_s a d0), <- app_cons in E'.
    apply startsWith_app_short in E'; [congruence |].
    unfold d. simpl. rewrite !length_app_s. simpl. lia.
Qed.

Lemma splitFuel_nonempty n d s : Js.splitFuel n d s <> [].
Proof. destruct n; simpl; by destruct (Js.breakOn d s) as [[]|]. Qed.

Lemma join_cons d x l : l <> [] -> Js.join d (x :: l) = x +:+ d +:+ Js.join d l.
Proof. by destruct l. Qed.

Lemma splitFuel_join d n : forall s, Js.join d (Js.splitFuel n d s) = s.
Proof.
  induction n as [|n IH]; intros s; simpl.
  - by destruct (Js.breakOn d s) as [[]|].
  - destruct (Js.breakOn d s) as [[a b]|] eqn:E; [|done].
    rewrite join_cons by apply splitFuel_nonempty.
    rewrite IH. symmetry. by apply breakOn_Some.
Qed.

Lemma length_nonempty d : d <> EmptyString -> 0 < String.length d.
Proof. destruct d; simpl; [done | lia]. Qed.

Lemma splitFuel_clean d n : d <> EmptyString -> forall s,
  String.length s <= n ->
  Forall (fun x => Js.includes d x = false) (Js.splitFuel n d s).
Proof.
  intros Hd. induction n as [|n IH]; intros s Hlen; simpl.
  - destruct (Js.breakOn d s) as [[a b]|] eqn:E.
    + apply breakOn_length in E. apply length_nonempty in Hd. lia.
    + constructor; [|constructor]. unfold Js.includes. by rewrite E.
  - destruct (Js.breakOn d s) as [[a b]|] eqn:E.
    + constructor.
      * unfold Js.includes. by rewrite (breakOn_before _ _ _ _ Hd E).
      * apply IH. apply breakOn_length in E. apply length_nonempty in Hd. lia.
    + constructor; [|constructor]. unfold Js.includes. by rewrite E.
Qed.

Lemma splitFuel_enough d n : d <> EmptyString -> forall m s,
  String.length s <= n -> String.length s <= m ->
  Js.splitFuel n d s = Js.splitFuel m d s.
Proof.
  intros Hd. induction n as [|n IH]; intros m s Hn Hm.
  - destruct s; [|simpl in Hn; lia].
    destruct d; [done |]. by destruct m.
  - simpl. destruct (Js.breakOn d s) as [[a b]|] eqn:E.
    + pose proof (breakOn_length _ _ _ _ E) as Hl. apply length_nonempty in Hd as Hpos.
      destruct m as [|m]; [lia |]. simpl. rewrite E. f_equal. apply IH; lia.
    + destruct m; simpl; by rewrite E.
Qed.

End SplitFacts.

Lemma delimiter_nonempty : Extractor.delimiter <> EmptyString.
Proof. done. Qed.

(** C6, as the code has it: the text is cut at the occurrences of the
    five characters LF, three hyphens, LF, found from the left.  Joining
    the sections with that separator gives the text back, no section
    contains the separator, and where the text is [a], the separator,
    [b] with no earlier occurrence, the first section is [a] and the
    others are the sections of [b].  (A line of three hyphens that
    lacks the line feed before or after it is not a cut.) *)
Theorem sections_spec text :
  Js.join Extractor.delimiter (Extractor.sections text) = text
  /\ Forall (fun s => Js.includes Extractor.delimiter s = false) (Extractor.sections text)
  /\ (forall a b,
        text = a +:+ Extractor.delimiter +:+ b ->
        Js.includes Extractor.delimiter (a +:+ nl +:+ "---") = false ->
        Extractor.sections text = a :: Extractor.sections b).
Proof.
  unfold Extractor.sections, Js.split. split; [apply splitFuel_join |]. split.
  - by apply splitFuel_clean.
  - intros a b -> Hfirst.
    assert (Hbreak : Js.breakOn Extractor.delimiter (a +:+ Extractor.delimiter +:+ b)
                     = Some (a, b)).
    { unfold Js.includes in Hfirst.
      destruct (Js.breakOn Extractor.delimiter (a +:+ nl +:+ "---")) as [[]|] eqn:Hb;
        [done |].
      exact (breakOn_first (nl +:+ "---") LF a b Hb). }
    pose proof (breakOn_length _ _ _ _ Hbreak) as Hlen.
    change (String.length Extractor.delimiter) with 5 in Hlen.
    destruct (String.length (a +:+ Extractor.delimiter +:+ b)) as [|n] eqn:En; [lia |].
    simpl. rewrite Hbreak. f_equal.
    apply splitFuel_enough; [done | lia | lia].
Qed.

Lemma sections_spec_witness :
  Js.includes Extractor.delimiter ("x" +:+ nl +:+ "---") = false
  /\ Extractor.sections ("x" +:+ Extractor.delimiter +:+ "y" +:+ Extractor.delimiter +:+ "z")
     = ["x"; "y"; "z"].
Proof.
  split; [reflexivity |].
  exact (proj2 (proj2 (sections_spec _)) "x" ("y" +:+ Extractor.delimiter +:+ "z")
           eq_refl eq_refl).
Defined.

(** C6 as stated fails: a line of three hyphens at the very start or at
    the very end of the text, or right after another such line, is not a
    cut; with one in front, the first file of the end-to-end input is
    lost because its section now begins with the hyphens. *)
Lemma sections_miss_edge_delimiters :
  Extractor.sections ("---" +:+ nl +:+ "b") = ["---" +:+ nl +:+ "b"]
  /\ Extractor.sections ("a" +:+ nl +:+ "---") = ["a" +:+ nl +:+ "---"]
  /\ Extractor.sections ("a" +:+ nl +:+ "---" +:+ nl +:+ "---" +:+ nl +:+ "b")
     = ["a"; "---" +:+ nl +:+ "b"]
  /\ Extractor.parseWithRegex ("---" +:+ nl +:+ twoFilesText)
     = [ {| path := "b.txt"; content := "world" |} ].
Proof. by vm_compute. Qed.

(** ** Find Additional Files: the effective prompt *)

Section ReplaceFacts.

Lemma includes_cons p c s :
  Js.includes (String p EmptyString) (String c s)
  = isChar p c || Js.includes (String p EmptyString) s.
Proof.
  unfold Js.includes. rewrite breakOn_eq. simpl. rewrite andb_true_r.
  destruct (isChar p c); [done |].
  by destruct (Js.breakOn (String p EmptyString) s) as [[]|].
Qed.

Lemma includes_char_empty p : Js.includes (String p EmptyString) EmptyString = false.
Proof. done. Qed.

Lemma includes_char_app p a b :
  Js.includes (String p EmptyString) (a +:+ b)
  = Js.includes (String p EmptyString) a || Js.includes (String p EmptyString) b.
Proof.
  induction a as [|c a IH]; [done |].
  rewrite app_cons, !includes_cons, IH. by rewrite orb_assoc.
Qed.

Lemma app_inv_length a a' b b' :
  a +:+ b = a' +:+ b' -> String.length a = String.length a' -> a = a' /\ b = b'.
Proof.
  revert a'. induction a as [|c a IH]; intros [|c' a'] Heq Hlen; try done.
  rewrite !app_cons in Heq. injection Heq as -> Heq. simpl in Hlen.
  destruct (IH a' Heq) as [-> ->]; [lia | done].
Qed.

(** [pat] first occurs in [a pat] at the end of [a]: then it first
    occurs there in [a pat b] too. *)
Lemma breakOn_at pat a b :
  Js.indexOf pat (a +:+ pat) = Some (String.length a) ->
  Js.breakOn pat (a +:+ pat +:+ b) = Some (a, b).
Proof.
  unfold Js.indexOf. induction a as [|x a IH]; intros Hidx.
  - rewrite app_empty_l. apply breakOn_app_exact.
  - rewrite app_cons, breakOn_eq in Hidx. rewrite app_cons, breakOn_eq.
    destruct (Js.startsWith pat (String x (a +:+ pat))) eqn:E; [done |].
    destruct (Js.breakOn pat (a +:+ pat)) as [[a' b']|] eqn:Eb; [|done].
    injection Hidx as Hlen. rewrite IH by by rewrite Hlen.
    destruct (Js.startsWith pat (String x (a +:+ pat +:+ b))) eqn:E'; [|done].
    exfalso. rewrite <- app_assoc_s, <- app_cons in E'.
    apply startsWith_app_short in E'; [congruence |].
    simpl. rewrite length_app_s. lia.
Qed.

(** Without one of the four patterns the replacement text stands for
    itself. *)
Lemma getSubstitution_verbatim matched before after repl :
  noDollarPattern repl = true ->
  Js.getSubstitution matched before after repl = repl.
Proof.
  induction repl as [|c r IH]; [done |].
  cbn [noDollarPattern]. intros [Hc Hr]%andb_true_iff.
  cbn [Js.getSubstitution]. destruct (isChar "$" c) eqn:E; [|by rewrite IH].
  destruct r as [|d r']; [done |].
  cbn [andb negb startsPattern] in Hc. apply negb_true_iff in Hc.
  unfold isPatternChar in Hc.
  apply orb_false_iff in Hc as [Hc H4]. apply orb_false_iff in Hc as [Hc H3].
  apply orb_false_iff in Hc as [H1 H2].
  rewrite H1, H2, H3, H4. by rewrite IH.
Qed.

(** [replace] with a replacement text that holds no pattern. *)
Lemma replace_firstReplaced s token text :
  noDollarPattern text = true ->
  firstReplaced token text s (Js.replace s token text).
Proof.
  intros Hplain. unfold firstReplaced, Js.replace, Js.includes, Js.indexOf.
  destruct (Js.breakOn token s) as [[a b]|] eqn:E; [|by left].
  right. exists a, b. rewrite (getSubstitution_verbatim _ _ _ _ Hplain).
  by rewrite (breakOn_Some _ _ _ _ E) at 1.
Qed.

(** The relation leaves no choice. *)
Lemma firstReplaced_unique token text s r r' :
  firstReplaced token text s r -> firstReplaced token text s r' -> r = r'.
Proof.
  unfold firstReplaced, Js.includes, Js.indexOf.
  intros [[Hno ->] | (a & b & Hs & Hidx & ->)] [[Hno' ->] | (a' & b' & Hs' & Hidx' & ->)];
    try done.
  - by destruct (Js.breakOn token s) as [[]|].
  - by destruct (Js.breakOn token s) as [[]|].
  - rewrite Hidx in Hidx'. injection Hidx' as Hlen.
    rewrite Hs in Hs'. destruct (app_inv_length _ _ _ _ Hs' Hlen) as [-> Hb].
    destruct (app_inv_length token token b b' Hb eq_refl) as [_ ->]. done.
Qed.

Lemma noDollarPattern_quoteChar c u :
  noDollarPattern (Json.quoteChar c +:+ u)
  = negb (isChar "$" c && startsPattern u) && noDollarPattern u.
Proof. destruct c as [[] [] [] [] [] [] [] []]; reflexivity. Qed.

Lemma startsPattern_quoteChar c u :
  startsPattern (Json.quoteChar c +:+ u) = isPatternChar c.
Proof. destruct c as [[] [] [] [] [] [] [] []]; reflexivity. Qed.

Lemma noDollarPattern_quoteBody p t :
  noDollarPattern p = true -> noDollarPattern t = true -> startsPattern t = false ->
  noDollarPattern (Json.quoteBody p +:+ t) = true.
Proof.
  intros Hp Ht Hstart. induction p as [|c p IH]; [done |].
  cbn [noDollarPattern] in Hp. apply andb_true_iff in Hp as [Hc Hp].
  cbn [Json.quoteBody]. rewrite app_assoc_s, noDollarPattern_quoteChar, (IH Hp), andb_true_r.
  destruct p as [|d p]; [by rewrite app_empty_l, Hstart, andb_false_r |].
  cbn [Json.quoteBody]. by rewrite app_assoc_s, startsPattern_quoteChar.
Qed.

Lemma noDollarPattern_quote p t :
  noDollarPattern p = true -> noDollarPattern t = true ->
  noDollarPattern (Json.quote p +:+ t) = true.
Proof.
  intros Hp Ht. unfold Json.quote. rewrite !app_assoc_s.
  change (dq +:+ Json.quoteBody p +:+ dq +:+ t)
    with (String DQ (Json.quoteBody p +:+ String DQ t)).
  cbn [noDollarPattern]. change (isChar "$" DQ) with false. cbn [andb negb].
  by apply noDollarPattern_quoteBody.
Qed.

Lemma noDollarPattern_join l t :
  Forall (fun p => noDollarPattern p = true) l -> noDollarPattern t = true ->
  noDollarPattern (Js.join "," (Json.quote <$> l) +:+ t) = true.
Proof.
  intros Hall Ht. induction Hall as [|p l Hp Hl IH]; [done |].
  destruct l as [|p' l].
  - cbn [fmap list_fmap Js.join]. by apply noDollarPattern_quote.
  - rewrite fmap_cons, join_cons by done. rewrite !app_assoc_s.
    apply noDollarPattern_quote; [done |]. by rewrite app_cons, app_empty_l.
Qed.

Lemma noDollarPattern_parsedFilePaths pipelineData :
  Forall (fun f => noDollarPattern (path f) = true) (files pipelineData) ->
  noDollarPattern (parsedFilePaths pipelineData) = true.
Proof.
  intros Hall. unfold parsedFilePaths.
  destruct (0 <? length (files pipelineData)); [|done].
  unfold Json.stringifyStrings. rewrite app_cons, app_empty_l.
  cbn [noDollarPattern]. change (isChar "$" "[") with false. cbn [andb negb].
  apply noDollarPattern_join; [|done]. unfold paths. by apply Forall_fmap.
Qed.

(** At a first occurrence that is given, the relation fixes the result. *)
Lemma firstReplaced_at token text a b r :
  Js.indexOf token (a +:+ token) = Some (String.length a) ->
  firstReplaced token text (a +:+ token +:+ b) r ->
  r = a +:+ text +:+ b.
Proof.
  intros Hidx Hr. apply (firstReplaced_unique token text (a +:+ token +:+ b)); [done |].
  right. exists a, b. split; [done |]. split; [|done].
  unfold Js.indexOf. by rewrite (breakOn_at _ _ _ Hidx).
Qed.

(** *** The paths text is a JSON encoding of the paths *)

Lemma parseChars_quoteChar c t :
  Json.parseChars (Json.quoteChar c +:+ t)
  = match Json.parseChars t with
    | Some (u, rest) => Some (String c u, rest)
    | None => None
    end.
Proof. destruct c as [[] [] [] [] [] [] [] []]; reflexivity. Qed.

Lemma parseChars_quoteBody s rest :
  Json.parseChars (Json.quoteBody s +:+ String DQ rest) = Some (s, rest).
Proof.
  induction s as [|c s IH]; [done |].
  cbn [Json.quoteBody]. by rewrite app_assoc_s, parseChars_quoteChar, IH.
Qed.

Lemma parseValue_quote fuel s rest :
  Json.parseValue (S fuel) (Json.quote s +:+ rest) = Some (Json.JString s, rest).
Proof.
  unfold Json.quote. rewrite !app_assoc_s.
  change (dq +:+ Json.quoteBody s +:+ dq +:+ rest)
    with (String DQ (Json.quoteBody s +:+ String DQ rest)).
  cbn [Json.parseValue Json.skipWs]. change (Json.isJsonWs DQ) with false. cbn iota.
  change (isChar "{" DQ) with false. change (isChar "[" DQ) with false.
  change (isChar DQ DQ) with true. cbn iota.
  by rewrite parseChars_quoteBody.
Qed.

Lemma parseElements_quotes l : forall p fuel rest,
  length l + 2 <= fuel ->
  Json.parseElements fuel (Js.join "," (Json.quote <$> p :: l) +:+ String "]" rest)
  = Some (Json.JString <$> p :: l, rest).
Proof.
  induction l as [|p' l IH]; intros p fuel rest Hfuel.
  - destruct fuel as [|[|fuel]]; [cbn in Hfuel; lia.. |].
    cbn [fmap list_fmap Js.join]. cbn [Json.parseElements].
    rewrite parseValue_quote. cbn [Json.skipWs].
    change (Json.isJsonWs "]") with false. cbn iota.
    change (isChar "," "]") with false. change (isChar "]" "]") with true. done.
  - destruct fuel as [|fuel]; [cbn in Hfuel; lia |].
    rewrite fmap_cons, join_cons by done. rewrite !app_assoc_s.
    cbn [Json.parseElements].
    destruct fuel as [|fuel]; [cbn in Hfuel; lia |].
    rewrite parseValue_quote.
    rewrite app_cons, app_empty_l. cbn [Json.skipWs].
    change (Json.isJsonWs ",") with false. cbn iota.
    change (isChar "," ",") with true. cbn iota.
    rewrite IH by (cbn in Hfuel; lia). done.
Qed.

Lemma parse_stringifyStrings p l :
  Json.parse (Json.stringifyStrings (p :: l)) = Some (Json.JArray (Json.JString <$> p :: l)).
Proof.
  unfold Json.parse, Json.stringifyStrings.
  set (body := Js.join "," (Json.quote <$> p :: l)).
  assert (Hlen : length l <= String.length body).
  { unfold body. clear. revert p. induction l as [|p' l IH]; intros p; [cbn; lia |].
    rewrite fmap_cons, join_cons by done. rewrite !length_app_s.
    specialize (IH p'). cbn [length String.length]. lia. }
  assert (Hquote : exists r, body = String DQ r).
  { unfold body. destruct l; [by eexists |].
    rewrite fmap_cons, join_cons by done. by eexists. }
  destruct Hquote as [r Hr].
  rewrite app_cons, app_empty_l.
  replace (2 * String.length (String "[" (body +:+ "]")) + 2)
    with (S (S (String.length body + (String.length body + 4))))
    by (cbn [String.length]; rewrite length_app_s; cbn [String.length]; lia).
  cbn [Json.parseValue Json.skipWs]. change (Json.isJsonWs "[") with false. cbn iota.
  change (isChar "{" "[") with false. change (isChar "[" "[") with true. cbn iota.
  assert (Hskip : Json.skipWs (body +:+ "]") = String DQ (r +:+ "]")).
  { by rewrite Hr. }
  rewrite Hskip. change (isChar "]" DQ) with false. cbn iota.
  rewrite <- app_cons, <- Hr. unfold body in *.
  rewrite parseElements_quotes by lia. done.
Qed.

End ReplaceFacts.

(** C8, as the code has it: whatever the template, the prompt is the
    template with the first occurrence of ORIGINAL_CONTENT_PLACEHOLDER,
    when there is one, replaced by the content, and then the first
    occurrence of PARSED_FILES_PLACEHOLDER in the result, when there is
    one, replaced by the paths text; both are put in as they are when
    they hold none of the patterns [$$], [$&], [$`] and [$'] (a dollar
    sign before anything else stays).  The paths text is the marker
    [Nessuno] when there is no file, and otherwise a JSON text that
    parses to the array of the current paths. *)
Theorem findFilesPrompt_spec pipelineData promptText :
  noDollarPattern (fullProjectContent pipelineData) = true ->
  Forall (fun f => noDollarPattern (path f) = true) (files pipelineData) ->
  exists withContent pathsText,
    firstReplaced "ORIGINAL_CONTENT_PLACEHOLDER" (fullProjectContent pipelineData)
      promptText withContent
    /\ firstReplaced "PARSED_FILES_PLACEHOLDER" pathsText
         withContent (findFilesPrompt pipelineData promptText)
    /\ (files pipelineData = [] -> pathsText = "Nessuno")
    /\ (files pipelineData <> [] ->
          Json.parse pathsText
          = Some (Json.JArray (Json.JString <$> paths (files pipelineData)))).
Proof.
  intros Hcontent Hpaths.
  exists (Js.replace promptText "ORIGINAL_CONTENT_PLACEHOLDER"
            (fullProjectContent pipelineData)), (parsedFilePaths pipelineData).
  split; [by apply replace_firstReplaced |].
  split; [by apply replace_firstReplaced, noDollarPattern_parsedFilePaths |].
  unfold parsedFilePaths. destruct (files pipelineData) as [|f fs]; [done |].
  split; [done |]. intros _. cbn [length Nat.ltb Nat.leb].
  unfold paths. rewrite fmap_cons. apply parse_stringifyStrings.
Qed.

Lemma findFilesPrompt_spec_witness :
  findFilesPrompt loneDollars
    ("Text: " +:+ "ORIGINAL_CONTENT_PLACEHOLDER" +:+ " Files: "
     +:+ "PARSED_FILES_PLACEHOLDER" +:+ ".")
  = "Text: price: $5, ${HOME}, $(ls), a$ Files: [" +:+ q "src/$id.ts" +:+ "]."
  /\ exists withContent pathsText,
       firstReplaced "ORIGINAL_CONTENT_PLACEHOLDER" (fullProjectContent loneDollars)
         ("Text: " +:+ "ORIGINAL_CONTENT_PLACEHOLDER" +:+ " Files: "
          +:+ "PARSED_FILES_PLACEHOLDER" +:+ ".") withContent
       /\ firstReplaced "PARSED_FILES_PLACEHOLDER" pathsText withContent
            (findFilesPrompt loneDollars
               ("Text: " +:+ "ORIGINAL_CONTENT_PLACEHOLDER" +:+ " Files: "
                +:+ "PARSED_FILES_PLACEHOLDER" +:+ "."))
       /\ (files loneDollars = [] -> pathsText = "Nessuno")
       /\ (files loneDollars <> [] ->
             Json.parse pathsText
             = Some (Json.JArray (Json.JString <$> paths (files loneDollars)))).
Proof.
  split; [reflexivity |].
  apply (findFilesPrompt_spec loneDollars
           ("Text: " +:+ "ORIGINAL_CONTENT_PLACEHOLDER" +:+ " Files: "
            +:+ "PARSED_FILES_PLACEHOLDER" +:+ ".")); [reflexivity |].
  by repeat constructor.
Defined.

(** C8 as stated fails: the marker for an empty collection is [Nessuno],
    not [None]; and the content is not put in verbatim when it holds
    dollar patterns, which [replace] expands. *)
Lemma findFilesPrompt_marker_and_dollar :
  findFilesPrompt dollarContent "files: PARSED_FILES_PLACEHOLDER" = "files: Nessuno"
  /\ findFilesPrompt dollarContent "<ORIGINAL_CONTENT_PLACEHOLDER>"
     = "<cost: $5 and ORIGINAL_CONTENT_PLACEHOLDER>"
  /\ Js.includes (fullProjectContent dollarContent)
       (findFilesPrompt dollarContent "<ORIGINAL_CONTENT_PLACEHOLDER>") = false.
Proof. by vm_compute. Qed.

(** ** The extractor: icons referenced by the manifest *)

Section IconFacts.

Lemma span_spec f s a b :
  Js.span f s = (a, b) -> s = a +:+ b /\ allChars f a = true.
Proof.
  revert a b. induction s as [|c s IH]; intros a b; simpl.
  - by intros [= <- <-].
  - destruct (f c) eqn:Hc; [|by intros [= <- <-]].
    destruct (Js.span f s) as [a' b']. intros [= <- <-].
    destruct (IH a' b' eq_refl) as [-> Ha]. simpl. by rewrite Hc.
Qed.

Lemma span_stop f ds c r :
  allChars f ds = true -> f c = false ->
  Js.span f (ds +:+ String c r) = (ds, String c r).
Proof.
  intros Hds Hc. induction ds as [|d ds IH].
  - rewrite app_empty_l. simpl. by rewrite Hc.
  - simpl in Hds. apply andb_true_iff in Hds as [Hd Hds].
    rewrite app_cons. simpl. by rewrite Hd, (IH Hds).
Qed.

Lemma iconAt_literal ds post :
  digits ds = true ->
  Extractor.iconAt (iconLiteral ds +:+ post) = Some (iconPath ds, post).
Proof.
  intros [Hne Hall]%andb_true_iff. unfold Extractor.iconAt.
  assert (Hshape : iconLiteral ds +:+ post
                   = Extractor.iconOpen +:+ ds +:+ Extractor.iconClose +:+ post).
  { unfold iconLiteral, iconPath, Extractor.iconOpen, Extractor.iconClose.
    by rewrite !app_assoc_s. }
  rewrite Hshape, startsWith_app.
  change 11 with (String.length Extractor.iconOpen). rewrite substringFrom_app.
  change (Extractor.iconClose +:+ post)
    with (String "." ("png" +:+ dq +:+ post)).
  rewrite (span_stop _ _ _ _ Hall) by done.
  destruct ds as [|d ds]; [done |].
  change (String "." ("png" +:+ dq +:+ post)) with (Extractor.iconClose +:+ post).
  rewrite startsWith_app.
  change 5 with (String.length Extractor.iconClose). by rewrite substringFrom_app.
Qed.

Lemma iconAt_inv s p rest :
  Extractor.iconAt s = Some (p, rest) ->
  exists ds, digits ds = true /\ p = iconPath ds /\ s = iconLiteral ds +:+ rest.
Proof.
  unfold Extractor.iconAt.
  destruct (Js.startsWith Extractor.iconOpen s) eqn:Hopen; [|done].
  apply startsWith_inv in Hopen. change (String.length Extractor.iconOpen) with 11 in Hopen.
  destruct (Js.span Js.isDigit (Js.substringFrom 11 s)) as [ds r] eqn:Hspan.
  apply span_spec in Hspan as [Hrest Hall].
  destruct ds as [|d ds]; [done |].
  destruct (Js.startsWith Extractor.iconClose r) eqn:Hclose; [|done].
  apply startsWith_inv in Hclose. change (String.length Extractor.iconClose) with 5 in Hclose.
  intros [= <- <-]. exists (String d ds). split; [by apply andb_true_iff |].
  split; [done |].
  rewrite Hopen, Hrest, Hclose.
  unfold iconLiteral, iconPath, Extractor.iconOpen, Extractor.iconClose.
  by rewrite !app_assoc_s.
Qed.

Lemma matchAllIcons_sound n : forall s p,
  p ∈ Extractor.matchAllIcons n s ->
  exists ds pre post,
    digits ds = true /\ p = iconPath ds /\ s = pre +:+ iconLiteral ds +:+ post.
Proof.
  induction n as [|n IH]; intros s p; simpl; [by intros ?%elem_of_nil |].
  destruct (Extractor.iconAt s) as [[p' rest]|] eqn:Hat.
  - intros [-> | Hin]%elem_of_cons.
    + destruct (iconAt_inv _ _ _ Hat) as (ds & Hds & -> & ->).
      by exists ds, EmptyString, rest.
    + destruct (IH _ _ Hin) as (ds & pre & post & Hds & -> & ->).
      destruct (iconAt_inv _ _ _ Hat) as (ds' & _ & _ & ->).
      exists ds, (iconLiteral ds' +:+ pre), post. by rewrite app_assoc_s.
  - destruct s as [|c s]; [by intros ?%elem_of_nil |].
    intros Hin. destruct (IH _ _ Hin) as (ds & pre & post & Hds & -> & ->).
    by exists ds, (String c pre), post.
Qed.

Lemma app_eq_app_s a b c d :
  a +:+ b = c +:+ d ->
  (exists w, c = a +:+ w /\ b = w +:+ d) \/ (exists w, a = c +:+ w /\ d = w +:+ b).
Proof.
  revert c. induction a as [|x a IH]; intros c Heq.
  - left. by exists c.
  - destruct c as [|y c].
    + right. by exists (String x a).
    + rewrite !app_cons in Heq. injection Heq as -> Heq.
      destruct (IH c Heq) as [(w & -> & ->) | (w & -> & ->)].
      * left. by exists w.
      * right. by exists w.
Qed.

(** A quote-free text followed by a quote: the quote shown is the
    first one. *)
Lemma first_quote x u w :
  Js.includes dq x = false -> x +:+ dq = u +:+ String DQ w -> u = x /\ w = EmptyString.
Proof.
  unfold dq. revert u. induction x as [|c x IH]; intros u Hx Heq.
  - destruct u as [|d u]; [by injection Heq as <- |].
    rewrite app_cons in Heq. injection Heq as _ Heq. by destruct u.
  - rewrite includes_cons in Hx. apply orb_false_iff in Hx as [Hc Hx].
    destruct u as [|d u].
    + rewrite app_cons, app_empty_l in Heq. injection Heq as -> _.
      by rewrite isChar_refl in Hc.
    + rewrite !app_cons in Heq. injection Heq as -> Heq.
      by destruct (IH u Hx Heq) as [-> ->].
Qed.

Lemma digits_no_quote ds : allChars Js.isDigit ds = true -> Js.includes dq ds = false.
Proof.
  induction ds as [|c ds IH]; [done |]. simpl.
  intros [Hc Hds]%andb_true_iff. unfold dq. rewrite includes_cons.
  apply orb_false_iff. split; [|by apply IH].
  destruct (isChar DQ c) eqn:E; [|done].
  apply isChar_eq in E as <-. done.
Qed.

Lemma iconPath_no_quote ds : digits ds = true -> Js.includes dq (iconPath ds) = false.
Proof.
  intros [_ Hall]%andb_true_iff. unfold iconPath, dq.
  rewrite !includes_char_app. fold dq. by rewrite (digits_no_quote ds Hall).
Qed.

End IconFacts.

Section IconCollection.

Lemma endsWith_app p x : Js.endsWith p (x +:+ p) = true.
Proof.
  unfold Js.endsWith. rewrite length_app_s.
  replace (String.length x + String.length p - String.length p) with (String.length x)
    by lia.
  rewrite substringFrom_app, String.eqb_refl, andb_true_r.
  apply Nat.leb_le. lia.
Qed.

(** Every occurrence of an icon literal whose opening quote does not
    directly follow [.png] is found by the scan. *)
Lemma matchAllIcons_complete n : forall s pre ds post,
  String.length s < n ->
  s = pre +:+ iconLiteral ds +:+ post ->
  digits ds = true ->
  (forall pre0, pre <> pre0 +:+ ".png") ->
  iconPath ds ∈ Extractor.matchAllIcons n s.
Proof.
  induction n as [|n IH]; intros s pre ds post Hlen Hs Hds Hpre; [lia |].
  simpl. destruct (Extractor.iconAt s) as [[p rest]|] eqn:Hat.
  - destruct (iconAt_inv _ _ _ Hat) as (ds' & Hds' & -> & Hs').
    destruct pre as [|c pre1].
    + rewrite app_empty_l in Hs. rewrite Hs, (iconAt_literal _ _ Hds) in Hat.
      apply elem_of_cons. left. congruence.
    + right.
      assert (Hshort : String.length rest < n).
      { apply (f_equal String.length) in Hs'.
        rewrite length_app_s in Hs'. unfold iconLiteral, dq in Hs'.
        rewrite app_cons in Hs'. simpl in Hs'. lia. }
      rewrite Hs in Hs'.
      destruct (app_eq_app_s _ _ _ _ Hs') as [(w & Hlit & Hrest) | (w & Hp & Hrest)].
      * destruct w as [|x w].
        -- rewrite app_empty_l in Hrest.
           apply (IH rest EmptyString ds post); [done | by rewrite app_empty_l | done |].
           by intros [|? ?].
        -- exfalso.
           assert (x = DQ) as ->.
           { unfold iconLiteral at 1 in Hrest. unfold dq in Hrest.
             rewrite !app_cons in Hrest. by injection Hrest as <-. }
           unfold iconLiteral in Hlit. unfold dq at 1 in Hlit.
           rewrite !app_cons, app_empty_l in Hlit. injection Hlit as <- Hlit.
           apply first_quote in Hlit as [-> _]; [|by apply iconPath_no_quote].
           apply (Hpre (dq +:+ "icons/icon" +:+ ds')).
           unfold iconPath. by rewrite !app_assoc_s.
      * apply (IH rest w ds post); [done | done | done |].
        intros pre0 ->. apply (Hpre (iconLiteral ds' +:+ pre0)).
        by rewrite Hp, app_assoc_s.
  - destruct pre as [|c pre1].
    + rewrite app_empty_l in Hs. by rewrite Hs, (iconAt_literal _ _ Hds) in Hat.
    + rewrite Hs, app_cons. apply (IH _ pre1 ds post); [| done | done |].
      * rewrite Hs, app_cons in Hlen. simpl in Hlen. lia.
      * intros pre0 ->. by apply (Hpre (String c pre0)).
Qed.

Lemma somePath_spec p fs : somePath p fs = true <-> p ∈ paths fs.
Proof.
  unfold somePath, paths. induction fs as [|f fs IH]; simpl.
  - split; [done | by intros ?%elem_of_nil].
  - rewrite orb_true_iff, IH, elem_of_cons, String.eqb_eq.
    split; (intros [H | H]; [left; congruence | by right]).
Qed.

Lemma uniqueFrom_spec l : forall seen x,
  x ∈ l -> x ∈ seen \/ x ∈ Extractor.uniqueFrom seen l.
Proof.
  induction l as [|y l IH]; intros seen x; simpl; [by intros ?%elem_of_nil |].
  intros [-> | Hin]%elem_of_cons.
  - destruct (decide (y ∈ seen)); [by left | right; by left].
  - destruct (decide (y ∈ seen)) as [Hy|Hy]; [by apply IH |].
    destruct (IH ({[y]} ∪ seen) x Hin) as [[->%elem_of_singleton | Hs]%elem_of_union | Hu].
    + right. by left.
    + by left.
    + right. by right.
Qed.

Lemma uniqueFrom_sub l : forall seen x, x ∈ Extractor.uniqueFrom seen l -> x ∈ l.
Proof.
  induction l as [|y l IH]; intros seen x; simpl; [done |].
  destruct (decide (y ∈ seen)).
  - intros Hin. right. by eapply IH.
  - intros [-> | Hin]%elem_of_cons; [by left | right; by eapply IH].
Qed.

Lemma pushMissing_spec ps : forall fs,
  exists stubs,
    Extractor.pushMissing fs ps = fs ++ stubs
    /\ Forall (fun f => content f = EmptyString) stubs
    /\ NoDup (paths stubs)
    /\ (forall f, f ∈ stubs -> (path f ∉ paths fs) /\ path f ∈ ps)
    /\ (forall p, p ∈ ps -> p ∈ paths (fs ++ stubs)).
Proof.
  induction ps as [|p ps IH]; intros fs; simpl.
  - exists []. rewrite app_nil_r. split; [done |]. split; [done |].
    split; [constructor |].
    split; [by intros f ?%elem_of_nil | by intros p ?%elem_of_nil].
  - destruct (somePath p fs) eqn:Hsome; simpl.
    + apply somePath_spec in Hsome.
      destruct (IH fs) as (stubs & Heq & Hempty & Hnd & Hfrom & Hall).
      exists stubs. split; [done |]. split; [done |]. split; [done |]. split.
      * intros f Hf. destruct (Hfrom f Hf). split; [done | by right].
      * intros p' [-> | Hin]%elem_of_cons; [|by apply Hall].
        rewrite paths_app. apply elem_of_app. by left.
    + assert (Hfresh : p ∉ paths fs).
      { intros Hin%somePath_spec. congruence. }
      destruct (IH (fs ++ [{| path := p; content := EmptyString |}]))
        as (stubs & Heq & Hempty & Hnd & Hfrom & Hall).
      exists ({| path := p; content := EmptyString |} :: stubs).
      rewrite Heq, <- app_assoc. split; [done |].
      split; [by constructor |]. split; [|split].
      * apply NoDup_cons. split; [|done].
        intros (g & Hg & Hin)%list_elem_of_fmap.
        destruct (Hfrom g Hin) as (Hnot & _). apply Hnot.
        rewrite paths_app, elem_of_app. right. rewrite <- Hg. by left.
      * intros f [-> | Hin]%elem_of_cons; [split; [done | by left] |].
        destruct (Hfrom f Hin) as (Hnot & Hps). split; [|by right].
        intros Hf. apply Hnot. rewrite paths_app, elem_of_app. by left.
      * intros p' [-> | Hin]%elem_of_cons.
        -- rewrite paths_app, elem_of_app. right. by left.
        -- specialize (Hall p' Hin). by rewrite <- app_assoc in Hall.
Qed.

End IconCollection.

(** C7: when a file [manifest.json] is among the extracted files, the
    result is the extracted files followed by stubs: every stub has
    empty content and a path [icons/icon<digits>.png] whose literal
    occurs in the content of the (first) manifest file, stub paths are
    pairwise distinct and none was already present; and for every such
    literal in the manifest (its opening quote not being the quote that
    closes a preceding [.png] literal) the path was already present or
    its empty stub is among those appended. *)
Theorem addManifestIcons_spec fs m :
  Extractor.manifestFile fs = Some m ->
  m ∈ fs /\ path m = "manifest.json"
  /\ exists stubs,
       Extractor.addManifestIcons fs = fs ++ stubs
       /\ Forall (fun f => content f = EmptyString) stubs
       /\ NoDup (paths stubs)
       /\ (forall f, f ∈ stubs ->
             (path f ∉ paths fs)
             /\ exists ds, digits ds = true /\ path f = iconPath ds
                           /\ Js.includes (iconLiteral ds) (content m) = true)
       /\ (forall pre ds post,
             content m = pre +:+ iconLiteral ds +:+ post ->
             digits ds = true ->
             Js.endsWith ".png" pre = false ->
             iconPath ds ∈ paths fs
             \/ {| path := iconPath ds; content := EmptyString |} ∈ stubs).
Proof.
  intros Hm. unfold Extractor.addManifestIcons. rewrite Hm.
  unfold Extractor.manifestFile in Hm.
  destruct (list_find _ fs) as [[i m']|] eqn:Hfind; [|done].
  injection Hm as ->. apply list_find_Some in Hfind as (Hi & Hpath & _).
  split; [by eapply list_elem_of_lookup_2 |]. split; [done |].
  destruct (pushMissing_spec (Extractor.unique (Extractor.iconPaths (content m))) fs)
    as (stubs & Heq & Hempty & Hnd & Hfrom & Hall).
  exists stubs. rewrite Heq. split; [done |]. split; [done |]. split; [done |]. split.
  - intros f Hf. destruct (Hfrom f Hf) as (Hnot & Hin). split; [done |].
    apply uniqueFrom_sub, matchAllIcons_sound in Hin
      as (ds & pre & post & Hds & Hp & Hc).
    exists ds. split; [done |]. split; [done |]. rewrite Hc. apply includes_mid.
  - intros pre ds post Hc Hds Hpre.
    assert (Hfound : iconPath ds ∈ Extractor.unique (Extractor.iconPaths (content m))).
    { destruct (uniqueFrom_spec (Extractor.iconPaths (content m)) ∅ (iconPath ds))
        as [Hin | Hin]; [| by apply elem_of_empty in Hin | done].
      apply (matchAllIcons_complete _ _ pre ds post); [lia | done | done |].
      intros pre0 ->. by rewrite endsWith_app in Hpre. }
    apply Hall in Hfound. rewrite paths_app in Hfound.
    apply elem_of_app in Hfound as [Hold | Hnew]; [by left | right].
    apply list_elem_of_fmap in Hnew as (g & Hg & Hin).
    pose proof (proj1 (Forall_forall _ _) Hempty g Hin) as Hcontent.
    destruct g as [gp gc]. simpl in Hg, Hcontent. by subst.
Qed.

(** A manifest is found as soon as some extracted file has that path. *)
Lemma manifestFile_exists fs f :
  f ∈ fs -> path f = "manifest.json" -> is_Some (Extractor.manifestFile fs).
Proof.
  intros Hin Hpath. unfold Extractor.manifestFile.
  destruct (list_find_elem_of (fun g => path g = "manifest.json") fs f Hin Hpath)
    as [[i m] ->].
  by eexists.
Qed.

(** Without a manifest the extracted files are returned as they are. *)
Lemma addManifestIcons_no_manifest fs :
  Extractor.manifestFile fs = None -> Extractor.addManifestIcons fs = fs.
Proof. unfold Extractor.addManifestIcons. by intros ->. Qed.

Lemma addManifestIcons_spec_witness :
  Extractor.manifestFile manifestWithIcons
  = Some {| path := "manifest.json";
            content := "{" +:+ q "icons" +:+ ": [" +:+ q "icons/icon1.png" +:+ ", "
                       +:+ q "icons/icon2.png" +:+ ", " +:+ q "icons/icon1.png" +:+ "]}" |}
  /\ path {| path := "manifest.json";
             content := "{" +:+ q "icons" +:+ ": [" +:+ q "icons/icon1.png" +:+ ", "
                        +:+ q "icons/icon2.png" +:+ ", " +:+ q "icons/icon1.png" +:+ "]}" |}
     = "manifest.json".
Proof.
  split; [reflexivity |].
  exact (proj1 (proj2 (addManifestIcons_spec manifestWithIcons _ eq_refl))).
Defined.

(** The manifest names icon1 twice and icon2 once; icon2 is already
    there, so a single stub for icon1 is appended. *)
Example addManifestIcons_stubs :
  Extractor.addManifestIcons manifestWithIcons
  = manifestWithIcons ++ [ {| path := "icons/icon1.png"; content := EmptyString |} ].
Proof. by vm_compute. Qed.

(** The manifest rule through the whole extractor: both icons missing,
    one of them named twice. *)
Example parseWithRegex_manifest :
  paths (Extractor.parseWithRegex
           ("### `manifest.json`" +:+ nl +:+ "```json" +:+ nl
            +:+ "[" +:+ q "icons/icon1.png" +:+ "," +:+ q "icons/icon2.png" +:+ ","
            +:+ q "icons/icon1.png" +:+ "]" +:+ nl +:+ "```"))
  = ["manifest.json"; "icons/icon1.png"; "icons/icon2.png"].
Proof. by vm_compute. Qed.

(** * Further properties *)

(** ** What the steps do to the pipeline state *)

Section StepShapes.

Context (host : Host) (connect : Connect).

Lemma withFiles_same pipelineData : withFiles pipelineData (files pipelineData) = pipelineData.
Proof. by destruct pipelineData. Qed.

Lemma withNotes_same pipelineData :
  withNotes pipelineData (documentationNotes pipelineData) = pipelineData.
Proof. by destruct pipelineData. Qed.

Lemma findAdditionalFiles_shape pipelineData promptText apiKeyOverride :
  exists added,
    findAdditionalFiles host connect pipelineData promptText apiKeyOverride
    = withFiles pipelineData (files pipelineData ++ added).
Proof.
  assert (Hsame : exists added,
            pipelineData = withFiles pipelineData (files pipelineData ++ added)).
  { exists []. by rewrite app_nil_r, withFiles_same. }
  unfold findAdditionalFiles.
  destruct (getAiClient host connect apiKeyOverride) as [ai|]; [|done].
  destruct (ai _) as [text|err]; [|done].
  destruct (additionalFilesOf _) as [| | | |items|]; try done.
  destruct (foldl_pushCandidate items (files pipelineData)
              (list_to_set (paths (files pipelineData))) eq_refl)
    as (added & Heq & _).
  exists added. by rewrite Heq.
Qed.

Lemma extractDocumentationNotes_shape pipelineData promptText apiKeyOverride :
  exists notes,
    extractDocumentationNotes host connect pipelineData promptText apiKeyOverride
    = withNotes pipelineData notes.
Proof.
  assert (Hsame : exists notes, pipelineData = withNotes pipelineData notes).
  { exists (documentationNotes pipelineData). by rewrite withNotes_same. }
  unfold extractDocumentationNotes.
  destruct (getAiClient host connect apiKeyOverride) as [ai|]; [|done].
  destruct (ai _) as [text|err]; [|by eexists].
  destruct (Json.truthy _); [|done].
  destruct (Json.getProp _ _) as [[| | |notes| |]|]; try done. by eexists.
Qed.

(** X4: Find Additional Files never touches the raw text or the notes,
    and when the service call is rejected, or the answer is not JSON
    (read as [null]), it returns the state exactly as it was: the
    failure leaves no trace. *)
Theorem findAdditionalFiles_failures pipelineData promptText apiKeyOverride ai :
  getAiClient host connect apiKeyOverride = Some ai ->
  fullProjectContent (findAdditionalFiles host connect pipelineData promptText apiKeyOverride)
  = fullProjectContent pipelineData
  /\ documentationNotes
       (findAdditionalFiles host connect pipelineData promptText apiKeyOverride)
     = documentationNotes pipelineData
  /\ (forall error, ai (filesRequest pipelineData promptText) = Throw error ->
        findAdditionalFiles host connect pipelineData promptText apiKeyOverride
        = pipelineData)
  /\ (forall text, ai (filesRequest pipelineData promptText) = Ok text ->
        safeJsonParse host text = Json.JNull ->
        findAdditionalFiles host connect pipelineData promptText apiKeyOverride
        = pipelineData).
Proof.
  intros Hai.
  destruct (findAdditionalFiles_shape pipelineData promptText apiKeyOverride)
    as (added & Hshape).
  split; [by rewrite Hshape |]. split; [by rewrite Hshape |].
  unfold findAdditionalFiles. rewrite Hai. split.
  - by intros error ->.
  - intros text -> Hnull. rewrite Hnull. simpl. by rewrite withFiles_same.
Qed.

(** X5: when the answer carries a string [documentationNotes], that
    string REPLACES the notes: what was there before is dropped, also
    when the new string is empty. *)
Theorem extractDocumentationNotes_replaces pipelineData promptText apiKeyOverride ai text notes :
  getAiClient host connect apiKeyOverride = Some ai ->
  ai (docsRequest pipelineData promptText) = Ok text ->
  stringNotesOf (safeJsonParse host text) = Some notes ->
  extractDocumentationNotes host connect pipelineData promptText apiKeyOverride
  = withNotes pipelineData notes.
Proof.
  intros Hai Hok Hnotes. unfold extractDocumentationNotes. rewrite Hai, Hok.
  unfold stringNotesOf in Hnotes.
  destruct (Json.getProp "documentationNotes" (safeJsonParse host text))
    as [[| | |n| |]|] eqn:Hprop; try done.
  injection Hnotes as ->. by rewrite (getProp_truthy _ _ _ Hprop).
Qed.

(** X6: with a client, Generate README returns the trimmed answer, and
    when the call is rejected it returns the placeholder document, which
    is not empty and shows the reason of the failure. *)
Theorem generateReadme_outcomes pipelineData promptContent apiKeyOverride ai :
  getAiClient host connect apiKeyOverride = Some ai ->
  (forall text, ai (readmeRequest pipelineData promptContent) = Ok text ->
     generateReadme host connect pipelineData promptContent apiKeyOverride = Js.trim text)
  /\ (forall error, ai (readmeRequest pipelineData promptContent) = Throw error ->
        generateReadme host connect pipelineData promptContent apiKeyOverride
        = readmeFailed (readmeErrorMessage error)
        /\ Js.startsWith "# Documentazione del Progetto"
             (generateReadme host connect pipelineData promptContent apiKeyOverride) = true
        /\ Js.includes (readmeErrorMessage error)
             (generateReadme host connect pipelineData promptContent apiKeyOverride) = true).
Proof.
  intros Hai. unfold generateReadme. rewrite Hai.
  fold (readmeRequest pipelineData promptContent). split.
  - by intros text ->.
  - intros error ->. split; [done |]. split; [done |].
    unfold readmeFailed.
    rewrite <- !(app_assoc_s _ _ (readmeErrorMessage error +:+ _)).
    apply includes_mid.
Qed.

End StepShapes.

(** ** Invariants of the run *)

Section UpsertComposition.

Lemma list_find_isReadme_paths fs gs :
  paths fs = paths gs -> fst <$> list_find isReadme fs = fst <$> list_find isReadme gs.
Proof.
  unfold paths. revert gs. induction fs as [|f fs IH]; intros [|g gs] Heq; try done.
  injection Heq as Hp Hrest. simpl.
  destruct (decide (isReadme f)) as [Hf|Hf], (decide (isReadme g)) as [Hg|Hg]; simpl.
  - done.
  - exfalso. apply Hg. unfold isReadme in *. by rewrite <- Hp.
  - exfalso. apply Hf. unfold isReadme in *. by rewrite Hp.
  - specialize (IH gs Hrest).
    destruct (list_find isReadme fs) as [[i x]|], (list_find isReadme gs) as [[j y]|];
      simpl in *; congruence.
Qed.

(** X7: a second upsert overwrites the content written by the first,
    in the same entry: two README steps in a row leave what the last
    one generated, and no extra entry. *)
Theorem upsertReadme_twice c1 c2 fs :
  upsertReadme c2 (upsertReadme c1 fs) = upsertReadme c2 fs.
Proof.
  unfold upsertReadme at 2 3.
  destruct (list_find isReadme fs) as [[i f]|] eqn:Hfind.
  - pose proof (list_find_isReadme_paths (alter (setContent c1) i fs) fs
                  (paths_alter_setContent c1 fs i)) as Hsame.
    rewrite Hfind in Hsame. simpl in Hsame. unfold upsertReadme.
    destruct (list_find isReadme (alter (setContent c1) i fs)) as [[j g]|]; [|done].
    injection Hsame as ->. rewrite list_alter_alter_eq.
    by apply list_alter_ext.
  - unfold upsertReadme. simpl.
    destruct (decide (isReadme {| path := "README.md"; content := c1 |})) as [_|Hno];
      [done | by destruct Hno].
Qed.

Lemma upsertReadme_hasReadme c fs : hasReadme (upsertReadme c fs).
Proof.
  unfold upsertReadme, hasReadme.
  destruct (list_find isReadme fs) as [[i f]|] eqn:Hfind.
  - apply list_find_Some in Hfind as (Hi & Hf & _).
    exists (path f). rewrite paths_alter_setContent. split; [|done].
    apply list_elem_of_fmap_2. by eapply list_elem_of_lookup_2.
  - exists "README.md". split; [by left | done].
Qed.

Lemma upsertReadme_sublist c fs : paths fs `sublist_of` paths (upsertReadme c fs).
Proof.
  unfold upsertReadme. destruct (list_find isReadme fs) as [[i f]|].
  - by rewrite paths_alter_setContent.
  - by apply sublist_cons.
Qed.

End UpsertComposition.

Section RunInvariants.

Context (host : Host) (service : nat -> Connect).
Context (workflowSteps : list WorkflowStep) (apiKeyOverride : string).

Lemma runStep_content connect pipelineData step :
  fullProjectContent (runStep host apiKeyOverride connect pipelineData step)
  = fullProjectContent pipelineData.
Proof.
  unfold runStep. destruct (type step).
  - destruct (findAdditionalFiles_shape host connect pipelineData (prompt step)
                apiKeyOverride) as (added & ->). done.
  - destruct (extractDocumentationNotes_shape host connect pipelineData (prompt step)
                apiKeyOverride) as (notes & ->). done.
  - done.
Qed.

Lemma runStep_sublist connect pipelineData step :
  paths (files pipelineData)
  `sublist_of` paths (files (runStep host apiKeyOverride connect pipelineData step)).
Proof.
  unfold runStep. destruct (type step).
  - destruct (findAdditionalFiles_shape host connect pipelineData (prompt step)
                apiKeyOverride) as (added & ->).
    simpl. rewrite paths_app. by apply sublist_inserts_r.
  - destruct (extractDocumentationNotes_shape host connect pipelineData (prompt step)
                apiKeyOverride) as (notes & ->). done.
  - simpl. apply upsertReadme_sublist.
Qed.

(** X1: the raw project text is never changed by the steps, whatever
    their kinds, their order and the answers of the service. *)
Theorem runSteps_content steps : forall i pipelineData,
  fullProjectContent (runSteps host service apiKeyOverride i pipelineData steps)
  = fullProjectContent pipelineData.
Proof.
  induction steps as [|step steps IH]; intros i pipelineData; simpl; [done |].
  by rewrite IH, runStep_content.
Qed.

Lemma runSteps_sublist steps : forall i pipelineData,
  paths (files pipelineData)
  `sublist_of` paths (files (runSteps host service apiKeyOverride i pipelineData steps)).
Proof.
  induction steps as [|step steps IH]; intros i pipelineData; simpl; [done |].
  etrans; [apply runStep_sublist | apply IH].
Qed.

(** X2: the steps never drop, rename or reorder a file: the paths of
    the collection before the steps are, in the same order, among the
    paths after them (so the collection never shrinks). *)
Theorem runSteps_keeps_paths steps i pipelineData :
  paths (files pipelineData)
  `sublist_of` paths (files (runSteps host service apiKeyOverride i pipelineData steps)).
Proof.
  revert i pipelineData.
  induction steps as [|step steps IH]; intros i pipelineData; simpl; [done |].
  etrans; [apply runStep_sublist | apply IH].
Qed.

Lemma hasReadme_sublist fs gs : paths fs `sublist_of` paths gs -> hasReadme fs -> hasReadme gs.
Proof.
  intros Hsub (p & Hin & Hp). exists p. split; [|done].
  by apply (sublist_subseteq _ _ Hsub).
Qed.

Lemma runSteps_readme steps : forall i pipelineData,
  (exists step, step ∈ steps /\ type step = GENERATE_README) ->
  hasReadme (files (runSteps host service apiKeyOverride i pipelineData steps)).
Proof.
  induction steps as [|step steps IH]; intros i pipelineData (s & Hin & Hs).
  - by apply elem_of_nil in Hin.
  - simpl. apply elem_of_cons in Hin as [<- | Hin].
    + eapply hasReadme_sublist; [apply runSteps_sublist |].
      unfold runStep. rewrite Hs. simpl. apply upsertReadme_hasReadme.
    + apply IH. by exists s.
Qed.

(** X3: when an enabled step generates the README, a run on pasted
    text cannot end in the empty-collection failure: even for text with
    nothing to extract it reaches the editor, with a README entry. *)
Theorem readme_step_never_fails state text :
  (exists step, step ∈ workflowSteps /\ enabled step = true /\ type step = GENERATE_README) ->
  exists pipelineData,
    runPipeline host service workflowSteps apiKeyOverride (TextInput text) = Ok pipelineData
    /\ hasReadme (files pipelineData)
    /\ appStep (handleProcessInput host service workflowSteps apiKeyOverride state
                  (TextInput text)) = step_editor
    /\ parsedFiles (handleProcessInput host service workflowSteps apiKeyOverride state
                      (TextInput text)) = files pipelineData.
Proof.
  intros (step & Hin & Hon & Hkind).
  set (pd0 := {| fullProjectContent := text;
                 files := Extractor.parseWithRegex text;
                 documentationNotes := EmptyString |}).
  set (pd := runSteps host service apiKeyOverride 0 pd0 (activeSteps workflowSteps)).
  assert (Hreadme : hasReadme (files pd)).
  { apply runSteps_readme. exists step. split; [|done].
    unfold activeSteps. by apply list_elem_of_filter. }
  assert (Hrun : runPipeline host service workflowSteps apiKeyOverride (TextInput text)
                 = Ok pd).
  { unfold runPipeline, afterSteps, prepare. simpl. fold pd0. fold pd.
    destruct Hreadme as (p & Hp & _). destruct (files pd); [|done].
    by apply elem_of_nil in Hp. }
  exists pd. split; [done |]. split; [done |].
  unfold handleProcessInput. by rewrite Hrun.
Qed.

End RunInvariants.

Lemma readme_step_never_fails_witness :
  (exists step, step ∈ enabledSteps /\ enabled step = true /\ type step = GENERATE_README)
  /\ exists pipelineData,
       runPipeline hostNoKey (fun _ => answering "{}") enabledSteps EmptyString
         (TextInput "plain prose, no headings and no fences") = Ok pipelineData
       /\ hasReadme (files pipelineData).
Proof.
  assert (H : exists step, step ∈ enabledSteps /\ enabled step = true
                           /\ type step = GENERATE_README).
  { eexists. split; [do 2 right; left |]. done. }
  split; [exact H |].
  destruct (readme_step_never_fails hostNoKey (fun _ => answering "{}") enabledSteps
              EmptyString initialAppState "plain prose, no headings and no fences" H)
    as (pd & Hrun & Hreadme & _).
  by exists pd.
Defined.

(** ** What the extractor returns *)

Section TrimFacts.

Lemma trimStart_starts s : startsNonWs (Js.trimStart s) = true.
Proof.
  induction s as [|c s IH]; [done |]. simpl.
  destruct (Js.isWhiteSpace c) eqn:E; [done |]. simpl. by rewrite E.
Qed.

Lemma trimStart_id s : startsNonWs s = true -> Js.trimStart s = s.
Proof. destruct s as [|c s]; [done |]. simpl. by destruct (Js.isWhiteSpace c). Qed.

Lemma trimEnd_cons c s :
  Js.trimEnd (String c s)
  = match Js.trimEnd s with
    | EmptyString => if Js.isWhiteSpace c then EmptyString else String c EmptyString
    | t => String c t
    end.
Proof. done. Qed.

Lemma trimEnd_idem s : Js.trimEnd (Js.trimEnd s) = Js.trimEnd s.
Proof.
  induction s as [|c s IH]; [done |]. rewrite trimEnd_cons.
  destruct (Js.trimEnd s) as [|d t] eqn:E.
  - destruct (Js.isWhiteSpace c) eqn:Hc; [done |]. rewrite trimEnd_cons. simpl. by rewrite Hc.
  - rewrite trimEnd_cons, IH. done.
Qed.

Lemma trimEnd_starts s : startsNonWs s = true -> startsNonWs (Js.trimEnd s) = true.
Proof.
  destruct s as [|c s]; [done |]. rewrite trimEnd_cons. simpl. intros Hc.
  destruct (Js.trimEnd s); [|done].
  apply negb_true_iff in Hc. rewrite Hc. simpl. by rewrite Hc.
Qed.

Lemma trim_idem s : Js.trim (Js.trim s) = Js.trim s.
Proof.
  unfold Js.trim.
  rewrite (trimStart_id (Js.trimEnd (Js.trimStart s))).
  - apply trimEnd_idem.
  - apply trimEnd_starts, trimStart_starts.
Qed.

Lemma includes_trimStart p s :
  Js.includes (String p EmptyString) s = false ->
  Js.includes (String p EmptyString) (Js.trimStart s) = false.
Proof.
  induction s as [|c s IH]; [done |]. simpl. intros H.
  destruct (Js.isWhiteSpace c); [|done].
  rewrite includes_cons in H. apply orb_false_iff in H as [_ H]. by apply IH.
Qed.

Lemma includes_trimEnd p s :
  Js.includes (String p EmptyString) s = false ->
  Js.includes (String p EmptyString) (Js.trimEnd s) = false.
Proof.
  induction s as [|c s IH]; [done |]. rewrite trimEnd_cons, includes_cons.
  intros [Hc Hs]%orb_false_iff. specialize (IH Hs).
  destruct (Js.trimEnd s) as [|d t].
  - destruct (Js.isWhiteSpace c); [done |]. by rewrite includes_cons, Hc.
  - by rewrite includes_cons, Hc, IH.
Qed.

Lemma includes_trim p s :
  Js.includes (String p EmptyString) s = false ->
  Js.includes (String p EmptyString) (Js.trim s) = false.
Proof. intros H. by apply includes_trimEnd, includes_trimStart. Qed.

Lemma includes_firstLineOf p s :
  Js.includes (String p EmptyString) s = false ->
  Js.includes (String p EmptyString) (Js.firstLineOf s) = false.
Proof.
  unfold Js.firstLineOf. destruct (Js.breakOn _ s) as [[a b]|] eqn:E; [|done].
  apply breakOn_Some in E. rewrite E, includes_char_app.
  by intros [H _]%orb_false_iff.
Qed.

Lemma includes_join p d l :
  Js.includes (String p EmptyString) (Js.join d l) = false ->
  Forall (fun x => Js.includes (String p EmptyString) x = false) l.
Proof.
  induction l as [|x l IH]; [by constructor |].
  destruct l as [|y l].
  - simpl. intros H. by repeat constructor.
  - rewrite join_cons by done. rewrite !includes_char_app.
    intros [Hx [_ Hl]%orb_false_iff]%orb_false_iff. constructor; [done | by apply IH].
Qed.

End TrimFacts.

Section ExtractorInvariants.

Lemma allChars_app f a b : allChars f (a +:+ b) = allChars f a && allChars f b.
Proof.
  induction a as [|c a IH]; [done |]. rewrite app_cons. simpl.
  by rewrite IH, andb_assoc.
Qed.

Lemma allChars_impl (f g : ascii -> bool) s :
  (forall c, f c = true -> g c = true) -> allChars f s = true -> allChars g s = true.
Proof.
  intros Hfg. induction s as [|c s IH]; [done |]. simpl.
  intros [Hc Hs]%andb_true_iff. by rewrite (Hfg c Hc), IH.
Qed.

Lemma isDigit_isPathChar c : Js.isDigit c = true -> Extractor.isPathChar c = true.
Proof.
  intros H. unfold Extractor.isPathChar, Js.isWordChar. rewrite H.
  by rewrite orb_true_r.
Qed.

Lemma backtickPathAt_path s p :
  Extractor.backtickPathAt s = Some p ->
  Js.truthy p = true /\ allChars Extractor.isPathChar p = true.
Proof.
  unfold Extractor.backtickPathAt. destruct s as [|c r]; [done |].
  destruct (isChar BACKTICK c); [|done].
  destruct (Js.span Extractor.isPathChar r) as [a b] eqn:Hspan.
  apply span_spec in Hspan as [_ Hall].
  destruct a as [|x a]; [done |]. destruct b as [|y b]; [done |].
  destruct (isChar BACKTICK y); [|done]. by intros [= <-].
Qed.

Lemma lastBacktickPath_path s p :
  Extractor.lastBacktickPath s = Some p ->
  Js.truthy p = true /\ allChars Extractor.isPathChar p = true.
Proof.
  induction s as [|c s IH]; [done |]. cbn [Extractor.lastBacktickPath].
  destruct (Js.isLineTerminator c); [apply backtickPathAt_path |].
  destruct (Extractor.lastBacktickPath s) as [p'|].
  - intros [= <-]. by apply IH.
  - apply backtickPathAt_path.
Qed.

Lemma fileHeaderRegex_path line p :
  Extractor.fileHeaderRegex line = Some p ->
  Js.truthy p = true /\ allChars Extractor.isPathChar p = true.
Proof.
  unfold Extractor.fileHeaderRegex. destruct line as [|c r]; [done |].
  destruct (isChar "#" c); [|done]. apply lastBacktickPath_path.
Qed.

Lemma parseSection_spec section f :
  Extractor.parseSection section = Some f ->
  Js.truthy (path f) = true
  /\ allChars Extractor.isPathChar (path f) = true
  /\ Js.trim (content f) = content f.
Proof.
  unfold Extractor.parseSection.
  destruct (negb (Js.truthy (Js.trim section))); [done |].
  destruct (Extractor.fileHeaderRegex _) as [p|] eqn:Hhead; [|done].
  apply fileHeaderRegex_path in Hhead as [Hne Hall].
  intros [= <-]. cbn [path content]. split; [done |]. split; [done |].
  set (below := Js.trim (Js.substringFrom _ _)).
  assert (Hbelow : Js.trim (if Js.truthy below then below else EmptyString)
                   = (if Js.truthy below then below else EmptyString)).
  { destruct (Js.truthy below); [apply trim_idem | done]. }
  destruct (Extractor.codeBlockRegex _) as [[|c inner]|];
    [exact Hbelow | apply trim_idem | exact Hbelow].
Qed.

Lemma iconPath_pathChars ds :
  digits ds = true -> allChars Extractor.isPathChar (iconPath ds) = true.
Proof.
  intros [_ Hall]%andb_true_iff. unfold iconPath. rewrite !allChars_app.
  by rewrite (allChars_impl _ _ _ isDigit_isPathChar Hall).
Qed.

Lemma iconPath_truthy ds : Js.truthy (iconPath ds) = true.
Proof. done. Qed.

(** X8: every file the extractor returns, stubs included, has a
    non-empty path made only of letters, digits, underscore, dot, slash
    and hyphen, and a content without white space at either end. *)
Theorem parseWithRegex_wellFormed fileContent f :
  f ∈ Extractor.parseWithRegex fileContent ->
  Js.truthy (path f) = true
  /\ allChars Extractor.isPathChar (path f) = true
  /\ Js.trim (content f) = content f.
Proof.
  unfold Extractor.parseWithRegex, Extractor.addManifestIcons.
  set (fs := omap Extractor.parseSection (Extractor.sections fileContent)).
  assert (Hfs : forall g, g ∈ fs ->
            Js.truthy (path g) = true
            /\ allChars Extractor.isPathChar (path g) = true
            /\ Js.trim (content g) = content g).
  { intros g (section & _ & Hsec)%list_elem_of_omap. by eapply parseSection_spec. }
  destruct (Extractor.manifestFile fs) as [m|]; [|apply Hfs].
  destruct (pushMissing_spec (Extractor.unique (Extractor.iconPaths (content m))) fs)
    as (stubs & -> & Hempty & _ & Hfrom & _).
  intros [Hold | Hstub]%elem_of_app; [by apply Hfs |].
  destruct (Hfrom f Hstub) as (_ & Hin).
  apply uniqueFrom_sub, matchAllIcons_sound in Hin as (ds & _ & _ & Hds & -> & _).
  split; [apply iconPath_truthy |]. split; [by apply iconPath_pathChars |].
  by rewrite (proj1 (Forall_forall _ _) Hempty f Hstub).
Qed.

Lemma fileHeaderRegex_needs_hash line :
  Js.includes "#" line = false -> Extractor.fileHeaderRegex line = None.
Proof.
  destruct line as [|c r]; [done |]. rewrite includes_cons.
  intros [Hc _]%orb_false_iff. unfold Extractor.fileHeaderRegex. by rewrite Hc.
Qed.

Lemma parseSection_needs_hash section :
  Js.includes "#" section = false -> Extractor.parseSection section = None.
Proof.
  intros H. unfold Extractor.parseSection.
  destruct (negb (Js.truthy (Js.trim section))); [done |].
  rewrite fileHeaderRegex_needs_hash; [done |].
  by apply includes_trim, includes_firstLineOf, includes_trim.
Qed.

(** X9: text without a single hash sign holds no heading, so the
    extractor returns no file at all. *)
Theorem parseWithRegex_no_hash fileContent :
  Js.includes "#" fileContent = false -> Extractor.parseWithRegex fileContent = [].
Proof.
  intros H. unfold Extractor.parseWithRegex.
  assert (Hnone : omap Extractor.parseSection (Extractor.sections fileContent) = []).
  { assert (Hall : Forall (fun x => Js.includes "#" x = false)
                     (Extractor.sections fileContent)).
    { apply (includes_join _ Extractor.delimiter).
      unfold Extractor.sections, Js.split. by rewrite splitFuel_join. }
    induction Hall as [|x l Hx _ IH]; [done |].
    simpl. by rewrite (parseSection_needs_hash x Hx). }
  by rewrite Hnone.
Qed.

End ExtractorInvariants.

Lemma parseWithRegex_wellFormed_witness :
  {| path := "b.txt"; content := "world" |} ∈ Extractor.parseWithRegex twoFilesText
  /\ allChars Extractor.isPathChar "b.txt" = true.
Proof.
  assert (H : {| path := "b.txt"; content := "world" |}
              ∈ Extractor.parseWithRegex twoFilesText).
  { vm_compute. right. left. }
  split; [exact H |].
  exact (proj1 (proj2 (parseWithRegex_wellFormed twoFilesText _ H))).
Defined.

Lemma parseWithRegex_no_hash_witness :
  Js.includes "#" "plain prose, no headings and no fences" = false
  /\ Extractor.parseWithRegex "plain prose, no headings and no fences" = [].
Proof.
  split; [reflexivity |].
  exact (parseWithRegex_no_hash "plain prose, no headings and no fences" eq_refl).
Defined.

(** ** From an archive to files and back *)

(** Replace a closed text by the characters it is made of. *)
Ltac normal_form t := let v := eval vm_compute in t in change t with v.

Section RoundTripFacts.

Lemma includes_step d c s :
  Js.includes d (String c s) = Js.startsWith d (String c s) || Js.includes d s.
Proof.
  unfold Js.includes. rewrite breakOn_eq.
  destruct (Js.startsWith d (String c s)); [done |].
  by destruct (Js.breakOn d s) as [[]|].
Qed.

(** Characters other than a line feed cannot begin the delimiter. *)
Lemma includes_delimiter_skip a x :
  allChars (notChar LF) a = true ->
  Js.includes Extractor.delimiter (a +:+ x) = Js.includes Extractor.delimiter x.
Proof.
  induction a as [|c a IH]; [done |]. simpl. intros [Hc Ha]%andb_true_iff.
  rewrite app_cons, includes_step, (IH Ha).
  unfold notChar in Hc. apply negb_true_iff in Hc.
  unfold Extractor.delimiter, nl. rewrite app_cons. cbn [Js.startsWith]. by rewrite Hc.
Qed.

(** The closing fence and the hyphens after it hold no delimiter. *)
Lemma includes_delimiter_tail a :
  Js.includes Extractor.delimiter (a +:+ "```" +:+ nl +:+ "---")
  = Js.includes Extractor.delimiter a.
Proof.
  induction a as [|c a IH]; [done |].
  rewrite app_cons, !includes_step, IH. f_equal.
  normal_form Extractor.delimiter. normal_form ("```" +:+ nl +:+ "---").
  destruct a as [|c1 [|c2 [|c3 [|c4 a]]]];
    rewrite ?app_cons, ?app_empty_l; cbn [Js.startsWith];
    repeat (destruct (isChar _ _); cbn; try done).
Qed.

End RoundTripFacts.

Section RoundTripSection.

Lemma isPathChar_plain c :
  Extractor.isPathChar c = true ->
  isChar LF c = false /\ isChar BACKTICK c = false /\ Js.isLineTerminator c = false.
Proof.
  destruct c as [[] [] [] [] [] [] [] []]; vm_compute; intros H;
    try discriminate H; done.
Qed.

Lemma isAsciiLetter_plain c :
  Js.isAsciiLetter c = true -> isChar LF c = false.
Proof.
  destruct c as [[] [] [] [] [] [] [] []]; vm_compute; intros H;
    try discriminate H; done.
Qed.

Lemma pathChars_notLF p :
  allChars Extractor.isPathChar p = true -> allChars (notChar LF) p = true.
Proof.
  apply allChars_impl. intros c Hc. unfold notChar.
  by rewrite (proj1 (isPathChar_plain c Hc)).
Qed.

Lemma letters_notLF p :
  allChars Js.isAsciiLetter p = true -> allChars (notChar LF) p = true.
Proof.
  apply allChars_impl. intros c Hc. unfold notChar.
  by rewrite (isAsciiLetter_plain c Hc).
Qed.

Lemma app_empty_inv a b : a +:+ b = EmptyString -> b = EmptyString.
Proof. by destruct a. Qed.

Lemma trimEnd_app a b :
  b <> EmptyString -> Js.trimEnd b = b -> Js.trimEnd (a +:+ b) = a +:+ b.
Proof.
  intros Hne Hb. induction a as [|x a IH]; [done |].
  rewrite app_cons, trimEnd_cons, IH.
  destruct (a +:+ b) eqn:E; [|done]. by apply app_empty_inv in E.
Qed.

(** No white space is stripped from a text that begins with a hash
    sign and ends with a backtick. *)
Lemma trim_hash_backtick a :
  Js.trim (String "#" (a +:+ "`")) = String "#" (a +:+ "`").
Proof.
  unfold Js.trim.
  change (Js.trimStart (String "#" (a +:+ "`"))) with (String "#" a +:+ "`").
  by apply trimEnd_app.
Qed.

Lemma breakOn_char c a rest :
  allChars (notChar c) a = true ->
  Js.breakOn (String c EmptyString) (a +:+ String c rest) = Some (a, rest).
Proof.
  induction a as [|x a IH].
  - intros _. rewrite app_empty_l, breakOn_eq. cbn [Js.startsWith].
    by rewrite isChar_refl.
  - cbn [allChars]. intros [Hx Ha]%andb_true_iff. rewrite app_cons, breakOn_eq, (IH Ha).
    cbn [Js.startsWith]. unfold notChar in Hx. apply negb_true_iff in Hx. by rewrite Hx.
Qed.

Lemma lastBacktickPath_closing p :
  allChars Extractor.isPathChar p = true ->
  Extractor.lastBacktickPath (p +:+ "`") = None.
Proof.
  induction p as [|x p IH]; [done |]. cbn [allChars]. intros [Hx Hp]%andb_true_iff.
  rewrite app_cons. cbn [Extractor.lastBacktickPath].
  destruct (isPathChar_plain x Hx) as (_ & Hbt & Hlt).
  rewrite Hlt, (IH Hp). unfold Extractor.backtickPathAt. by rewrite Hbt.
Qed.

Lemma backtickPathAt_exact p rest :
  Js.truthy p = true -> allChars Extractor.isPathChar p = true ->
  Extractor.backtickPathAt (String BACKTICK (p +:+ String BACKTICK rest)) = Some p.
Proof.
  intros Hne Hp. unfold Extractor.backtickPathAt. rewrite isChar_refl.
  rewrite (span_stop _ _ _ _ Hp) by done.
  destruct p; [done |]. by rewrite isChar_refl.
Qed.

Lemma fileHeaderRegex_heading p :
  Js.truthy p = true -> allChars Extractor.isPathChar p = true ->
  Extractor.fileHeaderRegex ("### `" +:+ p +:+ "`") = Some p.
Proof.
  intros Hne Hp.
  change ("### `" +:+ p +:+ "`")
    with (String "#" (String "#" (String "#" (String " " (String BACKTICK (p +:+ "`")))))).
  unfold Extractor.fileHeaderRegex. rewrite isChar_refl.
  cbn [Extractor.dropHashes]. rewrite !isChar_refl.
  change (isChar "#" " ") with false. cbn iota.
  cbn [Extractor.lastBacktickPath].
  change (Js.isLineTerminator " ") with false.
  change (Js.isLineTerminator BACKTICK) with false. cbn iota.
  rewrite (lastBacktickPath_closing p Hp).
  pose proof (backtickPathAt_exact p EmptyString Hne Hp) as Hb.
  unfold BACKTICK in *. by rewrite Hb.
Qed.

Lemma codeBlockRegex_skip c s :
  Js.startsWith Extractor.fence (String c s) = false ->
  Extractor.codeBlockRegex (String c s) = Extractor.codeBlockRegex s.
Proof.
  intros H. cbn [Extractor.codeBlockRegex].
  unfold Extractor.codeBlockAt, Extractor.fenceOpenAt. by rewrite H.
Qed.

Lemma startsWith_fence_first c s :
  isChar BACKTICK c = false -> Js.startsWith Extractor.fence (String c s) = false.
Proof.
  intros H. normal_form Extractor.fence. cbn [Js.startsWith].
  unfold BACKTICK in H. by rewrite H.
Qed.

Lemma startsWith_fence_second c d s :
  isChar BACKTICK d = false ->
  Js.startsWith Extractor.fence (String c (String d s)) = false.
Proof.
  intros H. normal_form Extractor.fence. cbn [Js.startsWith].
  unfold BACKTICK in H. rewrite H. by rewrite andb_false_r.
Qed.

Lemma codeBlockRegex_skip_chars a s :
  allChars (notChar BACKTICK) a = true ->
  Extractor.codeBlockRegex (a +:+ s) = Extractor.codeBlockRegex s.
Proof.
  induction a as [|c a IH]; [done |]. cbn [allChars].
  intros [Hc Ha]%andb_true_iff. rewrite app_cons.
  rewrite codeBlockRegex_skip; [by apply IH |].
  apply startsWith_fence_first. unfold notChar in Hc. by apply negb_true_iff in Hc.
Qed.

Lemma pathChars_notBacktick p :
  allChars Extractor.isPathChar p = true -> allChars (notChar BACKTICK) p = true.
Proof.
  apply allChars_impl. intros c Hc. unfold notChar.
  by rewrite (proj1 (proj2 (isPathChar_plain c Hc))).
Qed.

Lemma codeBlockAt_fenced lang content :
  allChars Js.isAsciiLetter lang = true ->
  Js.indexOf (nl +:+ "```") (content +:+ nl +:+ "```") = Some (String.length content) ->
  Extractor.codeBlockAt ("```" +:+ lang +:+ nl +:+ content +:+ nl +:+ "```") = Some content.
Proof.
  intros Hlang Hclose. unfold Extractor.codeBlockAt, Extractor.fenceOpenAt.
  change "```" with Extractor.fence at 1. rewrite startsWith_app.
  change 3 with (String.length Extractor.fence). rewrite substringFrom_app.
  change (nl +:+ content +:+ nl +:+ "```") with (String LF (content +:+ nl +:+ "```")).
  rewrite (span_stop _ _ _ _ Hlang) by done. cbn [snd]. rewrite isChar_refl.
  pose proof (breakOn_at (nl +:+ "```") content EmptyString Hclose) as Hb.
  rewrite app_empty_r in Hb. change Extractor.fence with "```". by rewrite Hb.
Qed.

Lemma codeBlockRegex_fenced lang content :
  allChars Js.isAsciiLetter lang = true ->
  Js.indexOf (nl +:+ "```") (content +:+ nl +:+ "```") = Some (String.length content) ->
  Extractor.codeBlockRegex ("```" +:+ lang +:+ nl +:+ content +:+ nl +:+ "```")
  = Some content.
Proof.
  intros Hlang Hclose.
  pose proof (codeBlockAt_fenced lang content Hlang Hclose) as Hat.
  destruct ("```" +:+ lang +:+ nl +:+ content +:+ nl +:+ "```");
    cbn [Extractor.codeBlockRegex]; by rewrite Hat.
Qed.

Lemma codeBlockRegex_entry p content :
  Js.truthy p = true -> allChars Extractor.isPathChar p = true ->
  allChars Js.isAsciiLetter (Js.afterLastDot p) = true ->
  Js.indexOf (nl +:+ "```") (content +:+ nl +:+ "```") = Some (String.length content) ->
  Extractor.codeBlockRegex (entryBody p content) = Some content.
Proof.
  intros Hne Hp Hlang Hclose. unfold entryBody.
  destruct p as [|x p]; [done |]. cbn [allChars] in Hp.
  apply andb_true_iff in Hp as [Hx Hp].
  match goal with
  | |- context [ "### `" +:+ String x p +:+ ?r ] =>
      change ("### `" +:+ String x p +:+ r)
        with ("### " +:+ String BACKTICK (String x (p +:+ r)))
  end.
  rewrite (codeBlockRegex_skip_chars "### ") by done.
  rewrite codeBlockRegex_skip
    by (apply startsWith_fence_second; apply (isPathChar_plain x Hx)).
  rewrite <- app_cons.
  rewrite (codeBlockRegex_skip_chars (String x p))
    by (apply pathChars_notBacktick; cbn [allChars]; by rewrite Hx, Hp).
  match goal with
  | |- context [ "`" +:+ nl +:+ ?r ] =>
      change ("`" +:+ nl +:+ r) with (String BACKTICK (String LF r))
  end.
  rewrite codeBlockRegex_skip by (by apply startsWith_fence_second).
  rewrite codeBlockRegex_skip by (by apply startsWith_fence_first).
  by apply codeBlockRegex_fenced.
Qed.

Lemma entryBody_shape p content :
  entryBody p content
  = String "#" (("## `" +:+ p +:+ "`" +:+ nl +:+ "```" +:+ Js.afterLastDot p +:+ nl
                 +:+ content +:+ nl +:+ "``") +:+ "`").
Proof. unfold entryBody. by rewrite !app_assoc_s. Qed.

Lemma entryBody_lines p content :
  entryBody p content
  = ("### `" +:+ p +:+ "`")
    +:+ String LF ("```" +:+ Js.afterLastDot p +:+ nl +:+ content +:+ nl +:+ "```").
Proof. unfold entryBody. by rewrite !app_assoc_s. Qed.

Lemma heading_notLF p :
  allChars Extractor.isPathChar p = true ->
  allChars (notChar LF) ("### `" +:+ p +:+ "`") = true.
Proof.
  intros Hp. rewrite !allChars_app. by rewrite (pathChars_notLF p Hp).
Qed.

Lemma firstLineOf_entry p content :
  allChars Extractor.isPathChar p = true ->
  Js.firstLineOf (entryBody p content) = "### `" +:+ p +:+ "`".
Proof.
  intros Hp. unfold Js.firstLineOf. rewrite entryBody_lines.
  by rewrite (breakOn_char LF _ _ (heading_notLF p Hp)).
Qed.

Lemma parseSection_entry p content :
  Js.truthy p = true -> allChars Extractor.isPathChar p = true ->
  allChars Js.isAsciiLetter (Js.afterLastDot p) = true ->
  Js.truthy content = true ->
  Js.indexOf (nl +:+ "```") (content +:+ nl +:+ "```") = Some (String.length content) ->
  Extractor.parseSection (entryBody p content)
  = Some {| path := p; content := Js.trim content |}.
Proof.
  intros Hne Hp Hlang Hcontent Hclose. unfold Extractor.parseSection.
  assert (Htrim : Js.trim (entryBody p content) = entryBody p content).
  { rewrite entryBody_shape. apply trim_hash_backtick. }
  rewrite Htrim, (firstLineOf_entry p content Hp).
  assert (Hhead : Js.trim ("### `" +:+ p +:+ "`") = "### `" +:+ p +:+ "`").
  { change ("### `" +:+ p +:+ "`") with (String "#" ("## `" +:+ p +:+ "`")).
    rewrite <- (app_assoc_s "## `" p "`"). apply trim_hash_backtick. }
  rewrite Hhead, (fileHeaderRegex_heading p Hne Hp).
  rewrite (codeBlockRegex_entry p content Hne Hp Hlang Hclose).
  rewrite entryBody_shape at 1. cbn [Js.truthy negb].
  by destruct content.
Qed.

Lemma sections_cons a b :
  Js.includes Extractor.delimiter (a +:+ nl +:+ "---") = false ->
  Extractor.sections (a +:+ Extractor.delimiter +:+ b) = a :: Extractor.sections b.
Proof.
  intros Hfirst. unfold Extractor.sections, Js.split.
  assert (Hbreak : Js.breakOn Extractor.delimiter (a +:+ Extractor.delimiter +:+ b)
                   = Some (a, b)).
  { unfold Js.includes in Hfirst.
    destruct (Js.breakOn Extractor.delimiter (a +:+ nl +:+ "---")) as [[]|] eqn:Hb;
      [done |].
    exact (breakOn_first (nl +:+ "---") LF a b Hb). }
  pose proof (breakOn_length _ _ _ _ Hbreak) as Hlen.
  change (String.length Extractor.delimiter) with 5 in Hlen.
  destruct (String.length (a +:+ Extractor.delimiter +:+ b)) as [|n] eqn:En; [lia |].
  cbn [Js.splitFuel]. rewrite Hbreak. f_equal.
  apply splitFuel_enough; [done | lia | lia].
Qed.

Lemma entryBody_delimiter p content :
  allChars Extractor.isPathChar p = true ->
  allChars Js.isAsciiLetter (Js.afterLastDot p) = true ->
  Js.includes Extractor.delimiter (nl +:+ content +:+ nl) = false ->
  Js.includes Extractor.delimiter (entryBody p content +:+ nl +:+ "---") = false.
Proof.
  intros Hp Hlang Hlines. rewrite entryBody_lines, app_assoc_s.
  rewrite (includes_delimiter_skip _ _ (heading_notLF p Hp)).
  rewrite app_cons, includes_step.
  assert (Hnot : forall r, Js.startsWith Extractor.delimiter
                             (String LF ("```" +:+ r)) = false).
  { intros r. by normal_form Extractor.delimiter. }
  rewrite !app_assoc_s, Hnot, orb_false_l.
  rewrite <- (app_assoc_s "```" (Js.afterLastDot p)).
  rewrite includes_delimiter_skip
    by (rewrite allChars_app; by rewrite (letters_notLF _ Hlang)).
  rewrite <- (app_assoc_s content nl), <- (app_assoc_s nl (content +:+ nl)).
  by rewrite includes_delimiter_tail.
Qed.

Lemma appendEntries_archive entries : forall combined,
  Forall (fun e => Ingest.dir e = true \/ exists c, roundTrips e c) entries ->
  Ingest.appendEntries combined entries = Ok (combined +:+ archiveText entries).
Proof.
  induction entries as [|e entries IH]; intros combined Hall.
  - simpl. by rewrite app_empty_r.
  - apply Forall_cons in Hall as [He Hrest]. cbn [Ingest.appendEntries archiveText].
    destruct (Ingest.dir e) eqn:Hdir; [by apply IH |].
    destruct He as [He | (c & Hasync & _)]; [done |].
    rewrite Hasync. cbn. rewrite (IH _ Hrest). f_equal.
    unfold Ingest.serialized, entryBody, Extractor.delimiter. by rewrite !app_assoc_s.
Qed.

Lemma omap_cons_eq {A B} (f : A -> option B) x l :
  omap f (x :: l) = match f x with Some y => y :: omap f l | None => omap f l end.
Proof. done. Qed.

Lemma parse_archive entries :
  Forall (fun e => Ingest.dir e = true \/ exists c, roundTrips e c) entries ->
  omap Extractor.parseSection (Extractor.sections (archiveText entries))
  = omap extractedEntry entries.
Proof.
  induction 1 as [|e entries He _ IH]; [by vm_compute |].
  cbn [archiveText]. rewrite (omap_cons_eq extractedEntry). unfold extractedEntry at 1.
  destruct (Ingest.dir e) eqn:Hdir; [done |].
  destruct He as [He | (c & Hasync & Hne & Hp & Hlang & Hc & Hclose & Hlines)];
    [congruence |].
  rewrite Hasync, sections_cons by (by apply entryBody_delimiter).
  rewrite omap_cons_eq. by rewrite parseSection_entry, IH.
Qed.

End RoundTripSection.

(** X10: an archive whose entries are directories or text files that
    meet [roundTrips] is read back exactly: the extractor returns, in
    order, one file per non-directory entry with the entry's path and
    its content trimmed (followed by the icon stubs a manifest asks
    for). *)
Theorem archive_round_trip file entries :
  Ingest.isZip file = true ->
  Ingest.loadAsync file = Ok entries ->
  Forall (fun e => Ingest.dir e = true \/ exists c, roundTrips e c) entries ->
  Ingest.processInputFiles [file] = Ok (archiveText entries)
  /\ Extractor.parseWithRegex (archiveText entries)
     = Extractor.addManifestIcons (omap extractedEntry entries).
Proof.
  intros Hzip Hload Hall. split.
  - unfold Ingest.processInputFiles. cbn [Ingest.appendFiles]. rewrite Hzip, Hload. cbn.
    by rewrite (appendEntries_archive entries EmptyString Hall).
  - unfold Extractor.parseWithRegex. by rewrite parse_archive.
Qed.

Lemma archive_round_trip_witness :
  Ingest.isZip sampleZip = true
  /\ Extractor.parseWithRegex (archiveText sampleEntries)
     = [ {| path := "src/main.py"; content := "print(1)" |};
         {| path := "README"; content := "hello" |} ].
Proof.
  split; [reflexivity |].
  refine (proj2 (archive_round_trip sampleZip sampleEntries eq_refl eq_refl _)).
  apply Forall_cons. split; [by left |].
  apply Forall_cons. split; [right; exists ("print(1)" +:+ nl); by vm_compute |].
  apply Forall_cons. split; [right; exists "hello"; by vm_compute |].
  apply Forall_nil_2.
Defined.

(** Outside [roundTrips] the fences leak into the content. *)
Example archive_leaks :
  Ingest.processInputFiles
    [ {| Ingest.name := "p.zip"; Ingest.type := EmptyString; Ingest.text := Ok EmptyString;
         Ingest.loadAsync := Ok leakyEntries |} ]
  = Ok (archiveText leakyEntries)
  /\ Extractor.parseWithRegex (archiveText leakyEntries)
     = [ {| path := "src/Makefile";
            content := "```src/Makefile" +:+ nl +:+ "all:" +:+ nl +:+ "```" |};
         {| path := "empty.txt"; content := "```txt" +:+ nl +:+ nl +:+ "```" |} ].
Proof. by vm_compute. Qed.

(** ** The refactoring service *)

Section RefactorFacts.

Lemma trimEnd_app_ws a c :
  Js.isWhiteSpace c = true -> Js.trimEnd (a +:+ String c EmptyString) = Js.trimEnd a.
Proof.
  intros Hc. induction a as [|x a IH].
  - rewrite app_empty_l, trimEnd_cons. cbn [Js.trimEnd]. by rewrite Hc.
  - by rewrite app_cons, !trimEnd_cons, IH.
Qed.

Lemma trim_app_ws a c :
  Js.isWhiteSpace c = true -> Js.trim (a +:+ String c EmptyString) = Js.trim a.
Proof.
  intros Hc. unfold Js.trim. induction a as [|x a IH].
  - rewrite app_empty_l. cbn [Js.trimStart]. by rewrite Hc.
  - rewrite app_cons. cbn [Js.trimStart]. destruct (Js.isWhiteSpace x); [done |].
    rewrite <- app_cons. by apply trimEnd_app_ws.
Qed.

Lemma trim_ws_cons c a : Js.isWhiteSpace c = true -> Js.trim (String c a) = Js.trim a.
Proof. intros Hc. unfold Js.trim. cbn [Js.trimStart]. by rewrite Hc. Qed.

Lemma trim_keeps c a b :
  Js.isWhiteSpace c = false -> b <> EmptyString -> Js.trimEnd b = b ->
  Js.trim (String c (a +:+ b)) = String c (a +:+ b).
Proof.
  intros Hc Hne Hb. unfold Js.trim. cbn [Js.trimStart]. rewrite Hc.
  rewrite <- app_cons. by apply trimEnd_app.
Qed.

Lemma substringTo_app a b : Js.substringTo (String.length a) (a +:+ b) = a.
Proof. induction a as [|x a IH]; [by destruct b |]. rewrite app_cons. cbn. by rewrite IH. Qed.

Lemma beforeClosingFence_app a :
  a <> EmptyString -> Refactor.beforeClosingFence (a +:+ "```") = Some a.
Proof.
  intros Ha. unfold Refactor.beforeClosingFence. rewrite endsWith_app, length_app_s.
  replace (String.length a + String.length "```" - 3) with (String.length a)
    by (cbn; lia).
  rewrite substringTo_app. by destruct a.
Qed.

Lemma isWordChar_notLF c : Js.isWordChar c = true -> isChar LF c = false.
Proof. destruct c as [[] [] [] [] [] [] [] []]; vm_compute; congruence. Qed.

End RefactorFacts.

(** X11: an answer wrapped in one Markdown fence, with or without a
    language tag made of word characters, is unwrapped: the refactored
    code is the trimmed inside of the fence, whatever it contains. *)
Theorem cleanAiCodeResponse_fenced lang code :
  allChars Js.isWordChar lang = true ->
  Refactor.cleanAiCodeResponse ("```" +:+ lang +:+ nl +:+ code +:+ nl +:+ "```")
  = Js.trim code.
Proof.
  intros Hlang. unfold Refactor.cleanAiCodeResponse.
  assert (Htrim : Js.trim ("```" +:+ lang +:+ nl +:+ code +:+ nl +:+ "```")
                  = "```" +:+ lang +:+ nl +:+ code +:+ nl +:+ "```").
  { replace ("```" +:+ lang +:+ nl +:+ code +:+ nl +:+ "```")
      with (String "`" (("``" +:+ lang +:+ nl +:+ code +:+ nl) +:+ "```"))
      by (by rewrite !app_assoc_s).
    by apply trim_keeps. }
  rewrite Htrim. unfold Refactor.codeBlockRegex.
  rewrite startsWith_app.
  assert (Hsub : Js.substringFrom 3 ("```" +:+ lang +:+ nl +:+ code +:+ nl +:+ "```")
                 = lang +:+ String LF ((code +:+ nl) +:+ "```")).
  { change 3 with (String.length "```"). rewrite substringFrom_app.
    unfold nl. by rewrite ?app_cons, ?app_empty_l, ?app_assoc_s. }
  rewrite Hsub. cbn zeta.
  rewrite (span_stop _ _ _ _ Hlang) by done.
  assert (Hne : code +:+ nl <> EmptyString).
  { destruct code; done. }
  destruct lang as [|l lang].
  - rewrite app_empty_l.
    change (String LF ((code +:+ nl) +:+ "```")) with ((String LF (code +:+ nl)) +:+ "```").
    rewrite beforeClosingFence_app by done.
    rewrite trim_ws_cons by done. by apply trim_app_ws.
  - change (isChar LF LF) with true. cbn iota.
    rewrite beforeClosingFence_app by done. by apply trim_app_ws.
Qed.

(** ** The editor view *)

Section EditorFacts.

Lemma paths_handleSaveFile p c st :
  paths (parsedFiles (EditorView.handleSaveFile p c st)) = paths (parsedFiles st).
Proof.
  unfold EditorView.handleSaveFile, paths. cbn [parsedFiles EditorView.withParsedFiles].
  rewrite <- list_fmap_compose. apply list_fmap_ext. intros i f _. cbn.
  by destruct (String.eqb (path f) p).
Qed.

Lemma paths_filter_path p (fs : list ParsedFile) :
  paths (filter (fun f => path f <> p) fs) = filter (fun x => x <> p) (paths fs).
Proof.
  unfold paths. induction fs as [|f fs IH]; [done |].
  rewrite fmap_cons, !filter_cons.
  destruct (decide (path f <> p)); [by rewrite fmap_cons, IH | done].
Qed.

Lemma handleAddFile_new p st :
  p <> EmptyString -> p ∉ paths (parsedFiles st) ->
  EditorView.handleAddFile p st
  = EditorView.withParsedFiles st
      (parsedFiles st ++ [{| path := p; content := EmptyString |}]) (Some p).
Proof.
  intros Hne Hnew. unfold EditorView.handleAddFile.
  destruct p; [done |]. cbn [Js.truthy negb orb].
  destruct (somePath _ _) eqn:Hs; [|done]. by apply somePath_spec in Hs.
Qed.

Lemma handleAddFile_cases p st :
  EditorView.handleAddFile p st = st
  \/ (p <> EmptyString /\ (p ∉ paths (parsedFiles st))
      /\ EditorView.handleAddFile p st
         = EditorView.withParsedFiles st
             (parsedFiles st ++ [{| path := p; content := EmptyString |}]) (Some p)).
Proof.
  unfold EditorView.handleAddFile.
  destruct (Js.truthy p) eqn:Hp; cbn [negb orb]; [|by left].
  destruct (somePath p (parsedFiles st)) eqn:Hs; [by left |].
  right. split; [by destruct p |]. split; [|done].
  intros Hin%somePath_spec. congruence.
Qed.

Lemma list_find_path p (fs : list ParsedFile) :
  p ∈ paths fs ->
  exists i f, list_find (fun f => path f = p) fs = Some (i, f) /\ path f = p.
Proof.
  intros Hin. unfold paths in Hin. apply list_elem_of_fmap in Hin as (f & -> & Hf).
  destruct (list_find (fun g => path g = path f) fs) as [[i g]|] eqn:E.
  - exists i, g. split; [done |]. by apply list_find_Some in E as (_ & ? & _).
  - apply list_find_None in E. rewrite Forall_forall in E. by destruct (E f Hf).
Qed.

End EditorFacts.

(** X12: four transitions keep a valid selection valid.  When the
    selected path names a file of the project, it still does after
    [handleSaveFile], [handleAddFile], [handleDeleteFile] and
    [handleProcessInput], and [selectedFile] finds a file with that
    path.  The selection made by a click in the file tree, whose path
    is rebuilt from the tree, is not one of these transitions. *)
Theorem edits_keep_selection_valid host service workflowSteps apiKeyOverride input
    p c confirmed st :
  validSelection st ->
  validSelection (EditorView.handleSaveFile p c st)
  /\ validSelection (EditorView.handleAddFile p st)
  /\ validSelection (EditorView.handleDeleteFile confirmed p st)
  /\ validSelection (handleProcessInput host service workflowSteps apiKeyOverride st input)
  /\ (forall q, selectedFilePath st = Some q ->
        exists f, EditorView.selectedFile st = Some f /\ path f = q).
Proof.
  intros Hv. repeat split.
  - intros q Hq. rewrite paths_handleSaveFile. by apply Hv.
  - destruct (handleAddFile_cases p st) as [-> | (_ & _ & ->)]; [done |].
    intros q [= <-]. cbn [parsedFiles EditorView.withParsedFiles].
    rewrite paths_app. apply elem_of_app. right. by apply list_elem_of_singleton.
  - unfold EditorView.handleDeleteFile. destruct confirmed; [|done].
    intros q. cbn [selectedFilePath parsedFiles EditorView.withParsedFiles].
    destruct (decide (selectedFilePath st = Some p)) as [E|E]; [done |].
    intros Hq. rewrite paths_filter_path. apply list_elem_of_filter. split.
    + intros ->. by destruct E.
    + by apply Hv.
  - unfold handleProcessInput.
    destruct (runPipeline _ _ _ _ _) as [pd|err]; [|done].
    intros q. cbn [selectedFilePath parsedFiles].
    destruct (files pd) as [|f fs]; [done |].
    destruct (Js.truthy (path f)); [|done]. intros [= <-].
    unfold paths. rewrite fmap_cons. apply elem_of_cons. by left.
  - intros q Hq. unfold EditorView.selectedFile. rewrite Hq.
    destruct (list_find_path q (parsedFiles st) (Hv q Hq)) as (i & f & -> & Hf).
    by exists f.
Qed.

Lemma edits_keep_selection_valid_witness :
  validSelection (EditorView.handleDeleteFile true "b.txt" editorState).
Proof.
  apply (edits_keep_selection_valid hostNoKey (fun _ => answering EmptyString) []
           EmptyString (TextInput EmptyString) "b.txt" EmptyString true editorState).
  intros p [= <-]. vm_compute. apply elem_of_cons. by left.
Defined.

(** X13: the editing actions keep the paths of the project distinct. *)
Theorem editing_keeps_paths_unique p c confirmed st :
  NoDup (paths (parsedFiles st)) ->
  NoDup (paths (parsedFiles (EditorView.handleSaveFile p c st)))
  /\ NoDup (paths (parsedFiles (EditorView.handleAddFile p st)))
  /\ NoDup (paths (parsedFiles (EditorView.handleAddFileSubmit p st)))
  /\ NoDup (paths (parsedFiles (EditorView.handleDeleteFile confirmed p st))).
Proof.
  intros Hnd.
  assert (Hadd : forall q, NoDup (paths (parsedFiles (EditorView.handleAddFile q st)))).
  { intros q. destruct (handleAddFile_cases q st) as [-> | (_ & Hnew & ->)]; [done |].
    cbn [parsedFiles EditorView.withParsedFiles]. rewrite paths_app.
    apply NoDup_app. split; [done |]. split.
    - intros x Hx ->%list_elem_of_singleton. done.
    - apply NoDup_singleton. }
  repeat split.
  - by rewrite paths_handleSaveFile.
  - apply Hadd.
  - unfold EditorView.handleAddFileSubmit. destruct (Js.truthy _); [apply Hadd | done].
  - unfold EditorView.handleDeleteFile. destruct confirmed; [|done].
    cbn [parsedFiles EditorView.withParsedFiles]. rewrite paths_filter_path.
    by apply NoDup_filter.
Qed.

Lemma editing_keeps_paths_unique_witness :
  NoDup (paths (parsedFiles (EditorView.handleAddFile "c.txt" editorState))).
Proof.
  apply (editing_keeps_paths_unique "c.txt" EmptyString true editorState).
  by apply (bool_decide_unpack _).
Defined.

(** X14: adding a file with a new, non-empty path appends an empty
    file and selects it; deleting it again gives back the file list as
    it was, with nothing selected. *)
Theorem add_then_delete p st :
  p <> EmptyString ->
  p ∉ paths (parsedFiles st) ->
  parsedFiles (EditorView.handleAddFile p st)
  = parsedFiles st ++ [{| path := p; content := EmptyString |}]
  /\ EditorView.selectedFile (EditorView.handleAddFile p st)
     = Some {| path := p; content := EmptyString |}
  /\ parsedFiles (EditorView.handleDeleteFile true p (EditorView.handleAddFile p st))
     = parsedFiles st
  /\ selectedFilePath (EditorView.handleDeleteFile true p (EditorView.handleAddFile p st))
     = None.
Proof.
  intros Hne Hnew.
  rewrite (handleAddFile_new p st Hne Hnew).
  assert (Hall : Forall (fun f => path f <> p) (parsedFiles st)).
  { apply Forall_forall. intros f Hf Hp. apply Hnew. unfold paths.
    apply list_elem_of_fmap. by exists f. }
  repeat split.
  - unfold EditorView.selectedFile. cbn [selectedFilePath parsedFiles EditorView.withParsedFiles].
    destruct (list_find _ _) as [[i f]|] eqn:E.
    + apply list_find_Some in E as (Hi & Hf & _).
      apply list_elem_of_lookup_2 in Hi. apply elem_of_app in Hi as [Hi | Hi].
      * rewrite Forall_forall in Hall. by destruct (Hall f Hi).
      * by apply list_elem_of_singleton in Hi as ->.
    + apply list_find_None in E. apply Forall_app in E as [_ E].
      apply Forall_inv in E. cbn in E. congruence.
  - unfold EditorView.handleDeleteFile. cbn [parsedFiles EditorView.withParsedFiles].
    rewrite filter_app, filter_cons, filter_nil.
    destruct (decide _) as [E|_]; [done |]. rewrite app_nil_r.
    clear -Hall. induction Hall as [|f fs Hf _ IH]; [done |].
    rewrite filter_cons. destruct (decide _); [by rewrite IH | done].
  - unfold EditorView.handleDeleteFile.
    cbn [selectedFilePath parsedFiles EditorView.withParsedFiles].
    by destruct (decide _).
Qed.

Lemma add_then_delete_witness :
  parsedFiles (EditorView.handleDeleteFile true "c.txt"
                 (EditorView.handleAddFile "c.txt" editorState))
  = parsedFiles editorState.
Proof.
  apply (add_then_delete "c.txt" editorState); [done |].
  by apply (bool_decide_unpack _).
Defined.

(** X15: after a save every file with the saved path holds the saved
    content and the other files are untouched; the last of two saves
    wins, and the selected file shows what was saved. *)
Theorem save_then_open p c1 c2 st :
  (forall f, f ∈ parsedFiles (EditorView.handleSaveFile p c2 st) ->
     path f = p -> content f = c2)
  /\ (forall f, path f <> p ->
        f ∈ parsedFiles (EditorView.handleSaveFile p c2 st) <-> f ∈ parsedFiles st)
  /\ EditorView.handleSaveFile p c2 (EditorView.handleSaveFile p c1 st)
     = EditorView.handleSaveFile p c2 st
  /\ (selectedFilePath st = Some p -> p ∈ paths (parsedFiles st) ->
        EditorView.selectedFile (EditorView.handleSaveFile p c2 st)
        = Some {| path := p; content := c2 |}).
Proof.
  repeat split.
  - intros f Hf Hp. unfold EditorView.handleSaveFile in Hf.
    cbn [parsedFiles EditorView.withParsedFiles] in Hf.
    apply list_elem_of_fmap in Hf as (g & -> & _).
    destruct (String.eqb (path g) p) eqn:E; [done |].
    apply String.eqb_neq in E. done.
  - intros Hf. unfold EditorView.handleSaveFile in Hf.
    cbn [parsedFiles EditorView.withParsedFiles] in Hf.
    apply list_elem_of_fmap in Hf as (g & -> & Hg).
    destruct (String.eqb (path g) p) eqn:E; [|done].
    apply String.eqb_eq in E. done.
  - intros Hf. unfold EditorView.handleSaveFile.
    cbn [parsedFiles EditorView.withParsedFiles].
    apply list_elem_of_fmap. exists f. split; [|done].
    destruct (String.eqb (path f) p) eqn:E; [|done].
    apply String.eqb_eq in E. done.
  - unfold EditorView.handleSaveFile, EditorView.withParsedFiles. cbn. f_equal.
    rewrite <- list_fmap_compose. apply list_fmap_ext. intros i f _. cbn.
    destruct (String.eqb (path f) p) eqn:E; cbn; by rewrite E.
  - intros Hsel Hin. unfold EditorView.selectedFile.
    change (selectedFilePath (EditorView.handleSaveFile p c2 st)) with (selectedFilePath st).
    rewrite Hsel.
    destruct (list_find_path p (parsedFiles (EditorView.handleSaveFile p c2 st)))
      as (i & f & E & Hf); [by rewrite paths_handleSaveFile |].
    rewrite E. cbn. f_equal.
    apply list_find_Some in E as (Hi & _ & _).
    apply list_elem_of_lookup_2 in Hi.
    unfold EditorView.handleSaveFile in Hi. cbn [parsedFiles EditorView.withParsedFiles] in Hi.
    apply list_elem_of_fmap in Hi as (g & -> & _).
    destruct (String.eqb (path g) p) eqn:E.
    + apply String.eqb_eq in E. unfold setContent. by rewrite E.
    + apply String.eqb_neq in E. done.
Qed.

(** ** The workflow editor *)

Section WorkflowEditorFacts.

Lemma activeSteps_handleUpdate updatedStep steps :
  enabled updatedStep = false ->
  activeSteps (WorkflowEditor.handleUpdate updatedStep steps)
  = activeSteps (WorkflowEditor.handleDelete true (id updatedStep) steps).
Proof.
  intros Hoff. unfold activeSteps, WorkflowEditor.handleUpdate, WorkflowEditor.handleDelete.
  induction steps as [|s steps IH]; [done |].
  rewrite fmap_cons, !filter_cons, IH.
  destruct (String.eqb (id s) (id updatedStep)) eqn:E.
  - apply String.eqb_eq in E.
    destruct (decide (enabled updatedStep = true)); [congruence |].
    by destruct (decide (id s <> id updatedStep)).
  - apply String.eqb_neq in E.
    destruct (decide (id s <> id updatedStep)); [|done].
    by rewrite filter_cons.
Qed.

End WorkflowEditorFacts.

(** X16: for a run, switching a step off is the same as deleting it. *)
Theorem disabling_is_deleting host service apiKeyOverride updatedStep steps state input :
  enabled updatedStep = false ->
  handleProcessInput host service (WorkflowEditor.handleUpdate updatedStep steps)
    apiKeyOverride state input
  = handleProcessInput host service
      (WorkflowEditor.handleDelete true (id updatedStep) steps)
      apiKeyOverride state input.
Proof.
  intros Hoff. unfold handleProcessInput, runPipeline, afterSteps.
  by rewrite (activeSteps_handleUpdate _ _ Hoff).
Qed.

(** X17: the copy of a step is put right after the step, nothing else
    moves, and the identifiers stay distinct when the new one is fresh. *)
Theorem handleClone_spec uuid steps i s :
  firstWithId steps i s ->
  WorkflowEditor.handleClone uuid (id s) steps !! i = Some s
  /\ WorkflowEditor.handleClone uuid (id s) steps !! S i = Some (cloneOf uuid s)
  /\ delete (S i) (WorkflowEditor.handleClone uuid (id s) steps) = steps
  /\ (NoDup (ids steps) -> uuid ∉ ids steps ->
        NoDup (ids (WorkflowEditor.handleClone uuid (id s) steps))).
Proof.
  unfold firstWithId. intros Hfind. unfold WorkflowEditor.handleClone. rewrite Hfind.
  fold (cloneOf uuid s).
  apply list_find_Some in Hfind as (Hi & _ & _).
  assert (Hlen : i < length steps) by by eapply lookup_lt_Some.
  assert (Htake : length (take (S i) steps) = S i) by (rewrite length_take; lia).
  repeat split.
  - rewrite lookup_app_l by lia. rewrite lookup_take_lt by lia. done.
  - rewrite lookup_app_r by lia. by rewrite Htake, Nat.sub_diag.
  - rewrite <- Htake at 1. rewrite delete_middle. apply take_drop.
  - intros Hnd Hnew. unfold ids. rewrite fmap_app, fmap_cons.
    apply NoDup_app. rewrite <- (take_drop (S i) steps) in Hnd, Hnew.
    unfold ids in Hnd, Hnew. rewrite fmap_app in Hnd, Hnew.
    apply NoDup_app in Hnd as (Hnd1 & Hdis & Hnd2).
    apply not_elem_of_app in Hnew as [Hnew1 Hnew2].
    split; [done |]. split.
    + intros x Hx [->|Hx']%elem_of_cons; [done |]. by apply (Hdis x).
    + apply NoDup_cons. by split.
Qed.

(** X18: dropping a step on another one moves it to the index the
    target had; the other steps keep their order and no step is lost
    or duplicated. *)
Theorem handleDrop_spec steps di d ti t :
  firstWithId steps di d ->
  firstWithId steps ti t ->
  id d <> EmptyString ->
  id d <> id t ->
  exists newSteps,
    WorkflowEditor.handleDrop (Some (id d)) (id t) steps = Some newSteps
    /\ newSteps !! ti = Some d
    /\ delete ti newSteps = delete di steps
    /\ newSteps ≡ₚ steps.
Proof.
  unfold firstWithId. intros Hd Ht Hne Hdiff.
  unfold WorkflowEditor.handleDrop, WorkflowEditor.findIndex. rewrite Hd, Ht.
  destruct (id d) as [|c r] eqn:Eid; [done |]. cbn [Js.truthy negb orb].
  rewrite <- Eid in *.
  destruct (String.eqb (id d) (id t)) eqn:E; [by apply String.eqb_eq in E |].
  apply list_find_Some in Hd as (Hdi & _ & _).
  apply list_find_Some in Ht as (Hti & _ & _).
  assert (Hdl : di < length steps) by by eapply lookup_lt_Some.
  assert (Htl : ti < length steps) by by eapply lookup_lt_Some.
  assert (Hfrom : WorkflowEditor.spliceStart (Z.of_nat di) (length steps) = di).
  { unfold WorkflowEditor.spliceStart.
    destruct (Z.ltb_spec (Z.of_nat di) 0); [lia |]. rewrite Nat2Z.id. lia. }
  rewrite Hfrom, Hdi.
  assert (Hlen : length (delete di steps) = length steps - 1).
  { rewrite length_delete; [done | by exists d]. }
  assert (Hto : WorkflowEditor.spliceStart (Z.of_nat ti) (length (delete di steps)) = ti).
  { unfold WorkflowEditor.spliceStart.
    destruct (Z.ltb_spec (Z.of_nat ti) 0); [lia |]. rewrite Nat2Z.id. lia. }
  rewrite Hto.
  assert (Htake : length (take ti (delete di steps)) = ti) by (rewrite length_take; lia).
  eexists. split; [done |]. repeat split.
  - rewrite lookup_app_r by lia. by rewrite Htake, Nat.sub_diag.
  - rewrite <- Htake at 1. rewrite delete_middle. apply take_drop.
  - rewrite <- Permutation_middle, take_drop. symmetry. by apply delete_Permutation.
Qed.

(** ** The chat with the architect *)

Section ChatFacts.

Lemma insert_last {A} (h : list A) (m x : A) :
  <[length (h ++ [m]) - 1 := x]> (h ++ [m]) = h ++ [x].
Proof.
  rewrite length_app. cbn [length].
  replace (length h + 1 - 1) with (length h + 0) by lia.
  by rewrite insert_app_r.
Qed.

Lemma receive_last arrived : forall modelResponse h m,
  Chat.receive modelResponse arrived (h ++ [m])
  = h ++ [match arrived with
          | [] => m
          | _ => modelMessage (modelResponse +:+ fullAnswer arrived)
          end].
Proof.
  induction arrived as [|c cs IH]; intros acc h m; [done |].
  cbn [Chat.receive]. rewrite insert_last, IH. do 2 f_equal.
  destruct cs as [|c' cs].
  - cbn. by rewrite app_empty_r.
  - cbn [fullAnswer foldr]. by rewrite app_assoc_s.
Qed.

Lemma lastModelMessage_snoc h m :
  Chat.role m = Chat.model -> Chat.lastModelMessage (h ++ [m]) = Some m.
Proof.
  intros Hm. unfold Chat.lastModelMessage. rewrite reverse_app. cbn [reverse app].
  change (reverse [m]) with [m]. cbn [app list_find].
  by destruct (decide (Chat.role m = Chat.model)).
Qed.

Lemma filter_notPlaceholder_clean (h : list Chat.ChatMessage) :
  Chat.placeholder ∉ filter Chat.notPlaceholder h.
Proof.
  intros [[H | H] _]%list_elem_of_filter; by destruct H.
Qed.

End ChatFacts.

(** X19: when the stream delivers at least one chunk and ends
    normally, the history gains the user message and one model message
    holding all the chunks in order, and Use Project copies that answer
    into the input of the main view. *)
Theorem chat_answer_is_used host connect ai currentChat apiKeyOverride message c cs st :
  getAiClient host connect apiKeyOverride = Some ai ->
  currentChat message = Ok {| Chat.chunks := c :: cs; Chat.failure := None |} ->
  Chat.chatHistory
    (Chat.handleSendMessageToArchitect host connect currentChat apiKeyOverride message st)
  = Chat.chatHistory st ++ [userMessage message; modelMessage (fullAnswer (c :: cs))]
  /\ Chat.error
       (Chat.handleSendMessageToArchitect host connect currentChat apiKeyOverride message st)
     = None
  /\ Chat.projectInputText
       (Chat.handleUseProjectFromChat
          (Chat.handleSendMessageToArchitect host connect currentChat apiKeyOverride
             message st))
     = fullAnswer (c :: cs).
Proof.
  intros Hai Hok. unfold Chat.handleSendMessageToArchitect. rewrite Hai, Hok.
  cbn [Chat.chunks Chat.failure Chat.settled Chat.chatHistory Chat.error].
  rewrite receive_last. fold (userMessage message).
  rewrite app_empty_l, <- app_assoc. cbn [app].
  split; [done |]. split; [done |].
  unfold Chat.handleUseProjectFromChat.
  cbn [Chat.projectInputText Chat.chatHistory].
  replace (Chat.chatHistory st ++ [userMessage message; modelMessage (fullAnswer (c :: cs))])
    with ((Chat.chatHistory st ++ [userMessage message])
          ++ [modelMessage (fullAnswer (c :: cs))])
    by (by rewrite <- app_assoc).
  unfold Chat.settled. cbn [Chat.chatHistory]. by rewrite lastModelMessage_snoc.
Qed.

(** X20: when the request or the stream fails, the user message is
    kept behind the earlier messages, no placeholder message is left
    anywhere in the history, and the error is reported. *)
Theorem chat_failure_cleans_up host connect ai currentChat apiKeyOverride message err st :
  getAiClient host connect apiKeyOverride = Some ai ->
  currentChat message = Throw err
  \/ (exists arrived,
        currentChat message = Ok {| Chat.chunks := arrived; Chat.failure := Some err |}) ->
  (exists partial,
     Chat.chatHistory
       (Chat.handleSendMessageToArchitect host connect currentChat apiKeyOverride message st)
     = filter Chat.notPlaceholder (Chat.chatHistory st) ++ userMessage message :: partial)
  /\ (Chat.placeholder
       ∉ Chat.chatHistory
           (Chat.handleSendMessageToArchitect host connect currentChat apiKeyOverride
              message st))
  /\ Chat.error
       (Chat.handleSendMessageToArchitect host connect currentChat apiKeyOverride message st)
     = Some (Chat.errorMessage err).
Proof.
  intros Hai Hfail. unfold Chat.handleSendMessageToArchitect. rewrite Hai.
  fold (userMessage message).
  assert (Huser : filter Chat.notPlaceholder [userMessage message] = [userMessage message]).
  { rewrite filter_cons, filter_nil. destruct (decide _) as [|H]; [done |].
    destruct H. by left. }
  destruct Hfail as [-> | [arrived ->]];
    cbn [Chat.chunks Chat.failure Chat.settled Chat.chatHistory Chat.error].
  - split; [|split; [apply filter_notPlaceholder_clean | done]].
    exists []. by rewrite filter_app, Huser.
  - split; [|split; [apply filter_notPlaceholder_clean | done]].
    rewrite receive_last, !filter_app, Huser, <- app_assoc. cbn [app].
    by eexists.
Qed.

(** ** Fenced answers *)

Section FenceFacts.

Lemma removeFences_fenced body : forall fuel,
  Js.includes "`" body = false ->
  String.length body + 2 <= fuel ->
  removeFences fuel (body +:+ nl +:+ "```") = body +:+ nl.
Proof.
  induction body as [|c body IH]; intros fuel Hno Hfuel.
  - destruct fuel as [|[|fuel]]; [cbn in Hfuel; lia.. |]. by destruct fuel.
  - destruct fuel as [|fuel]; [cbn in Hfuel; lia |].
    rewrite includes_cons in Hno. apply orb_false_iff in Hno as [Hc Hno].
    rewrite !app_cons. cbn [removeFences].
    assert (H1 : Js.startsWith jsonFenceOpen (String c (body +:+ nl +:+ "```")) = false).
    { normal_form jsonFenceOpen. cbn [Js.startsWith]. by rewrite Hc. }
    assert (H2 : Js.startsWith "```" (String c (body +:+ nl +:+ "```")) = false).
    { cbn [Js.startsWith]. by rewrite Hc. }
    rewrite H1, H2. f_equal. apply IH; [done |]. cbn in Hfuel. lia.
Qed.

End FenceFacts.

(** X21: an answer wrapped in a [```json] fence is parsed as the text
    between the fences, when that text holds no backtick. *)
Theorem safeJsonParse_fenced host body :
  Js.includes "`" body = false ->
  safeJsonParse host (jsonFenceOpen +:+ body +:+ nl +:+ "```")
  = default Json.JNull (JSON_parse host (body +:+ nl)).
Proof.
  intros Hno. unfold safeJsonParse.
  assert (Htrim : Js.trim (jsonFenceOpen +:+ body +:+ nl +:+ "```")
                  = jsonFenceOpen +:+ body +:+ nl +:+ "```").
  { replace (jsonFenceOpen +:+ body +:+ nl +:+ "```")
      with (String "`" (("``json" +:+ nl +:+ body +:+ nl) +:+ "```"))
      by (unfold jsonFenceOpen; by rewrite !app_assoc_s).
    by apply trim_keeps. }
  rewrite Htrim.
  replace (Js.startsWith "```json" (jsonFenceOpen +:+ body +:+ nl +:+ "```")) with true
    by (symmetry; unfold jsonFenceOpen; rewrite app_assoc_s; apply startsWith_app).
  cbn [removeFences]. rewrite startsWith_app.
  change 8 with (String.length jsonFenceOpen). rewrite substringFrom_app.
  rewrite removeFences_fenced; [done | done |].
  rewrite !length_app_s. cbn. lia.
Qed.

(** X22: what a click on Refactor leaves in an idle editor.  Without a
    credential or when the service call is rejected nothing changes;
    blank content is kept but marked as modified; otherwise the content
    becomes the cleaned answer and is marked as modified. *)
Theorem refactor_click_outcomes host connect editableRefactorPrompt apiKeyOverride file st :
  FileEditor.isRefactoring st = false ->
  (getAiClient host connect apiKeyOverride = None ->
     FileEditor.handleRefactorClick (Some file)
       (Refactor.handleRefactorRequest host connect editableRefactorPrompt apiKeyOverride) st
     = st)
  /\ (forall ai, getAiClient host connect apiKeyOverride = Some ai ->
        Js.trim (FileEditor.content st) = EmptyString ->
        FileEditor.handleRefactorClick (Some file)
          (Refactor.handleRefactorRequest host connect editableRefactorPrompt apiKeyOverride) st
        = {| FileEditor.content := FileEditor.content st; FileEditor.isDirty := true;
             FileEditor.isRefactoring := false |})
  /\ (forall ai, getAiClient host connect apiKeyOverride = Some ai ->
        Js.trim (FileEditor.content st) <> EmptyString ->
        FileEditor.handleRefactorClick (Some file)
          (Refactor.handleRefactorRequest host connect editableRefactorPrompt apiKeyOverride) st
        = match ai (Refactor.refactorRequest (FileEditor.content st) editableRefactorPrompt) with
          | Ok text =>
              {| FileEditor.content := Refactor.cleanAiCodeResponse text;
                 FileEditor.isDirty := true; FileEditor.isRefactoring := false |}
          | Throw _ => st
          end).
Proof.
  intros Hidle.
  unfold FileEditor.handleRefactorClick, Refactor.handleRefactorRequest, Refactor.refactorCode.
  rewrite Hidle. destruct st as [content dirty busy]. cbn in Hidle. subst busy.
  cbn [FileEditor.content FileEditor.isDirty].
  split; [by intros -> |]. split.
  - intros ai -> Hblank. by rewrite Hblank.
  - intros ai -> Hsome. destruct (Js.trim content); [done |]. cbn [Js.truthy negb].
    by destruct (ai _).
Qed.

Lemma refactor_click_outcomes_witness :
  FileEditor.handleRefactorClick (Some {| path := "a.js"; content := "let x = 1" |})
    (Refactor.handleRefactorRequest hostNoKey (answering "const x = 1")
       "CODE_PLACEHOLDER" EmptyString) cleanEditor
  = cleanEditor.
Proof.
  by apply (refactor_click_outcomes hostNoKey (answering "const x = 1") "CODE_PLACEHOLDER"
              EmptyString {| path := "a.js"; content := "let x = 1" |} cleanEditor).
Defined.

(** ** Uploads *)

Section IngestFacts.

Lemma appendFiles_plain inputFiles : forall texts combinedContent,
  Forall2 plainFile inputFiles texts ->
  Ingest.appendFiles combinedContent inputFiles
  = Ok (combinedContent +:+ plainText texts).
Proof.
  induction inputFiles as [|file rest IH]; intros texts acc Hplain.
  - apply Forall2_nil_inv_l in Hplain as ->. cbn. by rewrite app_empty_r.
  - apply Forall2_cons_inv_l in Hplain as (t & texts' & [Hzip Htext] & Hrest & ->).
    cbn [Ingest.appendFiles plainText foldr]. rewrite Hzip, Htext. cbn [mbind Result_bind].
    rewrite (IH _ _ Hrest). fold (plainText texts'). by rewrite !app_assoc_s.
Qed.

Lemma appendEntries_readable entries : forall combinedContent,
  Forall readableEntry entries ->
  exists combined, Ingest.appendEntries combinedContent entries = Ok combined.
Proof.
  induction entries as [|entry rest IH]; intros acc Hall; [by eexists |].
  apply Forall_cons in Hall as [Hentry Hrest]. cbn [Ingest.appendEntries].
  destruct (Ingest.dir entry) eqn:Hdir; cbn [negb]; [by apply IH |].
  destruct Hentry as [? | [c Hc]]; [congruence |]. rewrite Hc. cbn [mbind Result_bind].
  by apply IH.
Qed.

Lemma appendEntries_fails before entry after err : forall combinedContent,
  Forall readableEntry before ->
  Ingest.dir entry = false ->
  Ingest.async entry = Throw err ->
  Ingest.appendEntries combinedContent (before ++ entry :: after) = Throw err.
Proof.
  intros acc Hall Hdir Herr. revert acc.
  induction Hall as [|e before He _ IH]; intros acc; cbn [app Ingest.appendEntries].
  - by rewrite Hdir, Herr.
  - destruct (Ingest.dir e) eqn:Hd; cbn [negb]; [by apply IH |].
    destruct He as [? | [c Hc]]; [congruence |]. rewrite Hc. cbn [mbind Result_bind].
    by apply IH.
Qed.

Lemma appendFiles_readable inputFiles : forall combinedContent,
  Forall readable inputFiles ->
  exists combined, Ingest.appendFiles combinedContent inputFiles = Ok combined.
Proof.
  induction inputFiles as [|file rest IH]; intros acc Hall; [by eexists |].
  apply Forall_cons in Hall as [Hfile Hrest]. cbn [Ingest.appendFiles].
  unfold readable in Hfile. destruct (Ingest.isZip file).
  - destruct Hfile as (entries & -> & Hentries). cbn [mbind Result_bind].
    destruct (appendEntries_readable entries acc Hentries) as [combined ->].
    cbn [mbind Result_bind]. by apply IH.
  - destruct Hfile as [t ->]. cbn [mbind Result_bind]. by apply IH.
Qed.

Lemma appendFiles_fails before file after err : forall combinedContent,
  Forall readable before ->
  failsWith file err ->
  Ingest.appendFiles combinedContent (before ++ file :: after) = Throw err.
Proof.
  intros acc Hall Hfails. revert acc.
  induction Hall as [|f before Hf _ IH]; intros acc; cbn [app Ingest.appendFiles].
  - unfold failsWith in Hfails. destruct (Ingest.isZip file).
    + destruct Hfails as [-> | (es & e & es' & -> & Hes & Hdir & Herr)]; [done |].
      cbn [mbind Result_bind]. by rewrite (appendEntries_fails es e es' err acc Hes Hdir Herr).
    + by rewrite Hfails.
  - unfold readable in Hf. destruct (Ingest.isZip f).
    + destruct Hf as (entries & -> & Hentries). cbn [mbind Result_bind].
      destruct (appendEntries_readable entries acc Hentries) as [combined ->].
      cbn [mbind Result_bind]. by apply IH.
    + destruct Hf as [t ->]. cbn [mbind Result_bind]. by apply IH.
Qed.

End IngestFacts.

(** X23: when every uploaded file is a plain file and is read without
    error, the upload succeeds and the run is the one of the pasted
    text made of each file's text followed by the delimiter line. *)
Theorem plain_upload_is_text host service workflowSteps apiKeyOverride state
    inputFiles texts :
  Forall2 plainFile inputFiles texts ->
  Ingest.processInputFiles inputFiles = Ok (plainText texts)
  /\ handleProcessInput host service workflowSteps apiKeyOverride state (FileInput inputFiles)
     = handleProcessInput host service workflowSteps apiKeyOverride state
         (TextInput (plainText texts)).
Proof.
  intros Hplain.
  assert (H : Ingest.processInputFiles inputFiles = Ok (plainText texts)).
  { unfold Ingest.processInputFiles. by rewrite (appendFiles_plain _ _ _ Hplain). }
  split; [done |].
  unfold handleProcessInput, runPipeline, afterSteps, prepare. by rewrite H.
Qed.

Lemma plain_upload_is_text_witness :
  Ingest.processInputFiles [notesFile; notesFile]
  = Ok ("# notes" +:+ nl +:+ "---" +:+ nl +:+ "# notes" +:+ nl +:+ "---" +:+ nl).
Proof.
  apply (plain_upload_is_text hostNoKey (fun _ => answering EmptyString) [] EmptyString
           initialAppState [notesFile; notesFile] ["# notes"; "# notes"]).
  by repeat constructor.
Defined.

(** X24: the first read that fails aborts the run.  When the files
    before it are read without error and a file cannot be read (a plain
    file whose text is refused, an archive that cannot be opened or the
    first entry of an archive that cannot be read), the upload throws
    that error whatever comes after: the application is back at the
    input step showing it, and the files and the selection of the
    editor are untouched.  The files before it alone would have been
    accepted. *)
Theorem failed_read_aborts host service workflowSteps apiKeyOverride state
    before file after err :
  Forall readable before ->
  failsWith file err ->
  (exists combined, Ingest.processInputFiles before = Ok combined)
  /\ Ingest.processInputFiles (before ++ file :: after) = Throw err
  /\ handleProcessInput host service workflowSteps apiKeyOverride state
       (FileInput (before ++ file :: after))
     = {| appStep := step_input; error := Some (shownMessage err);
          parsedFiles := parsedFiles state; selectedFilePath := selectedFilePath state;
          processingMessage := None |}.
Proof.
  intros Hbefore Hfails.
  assert (H : Ingest.processInputFiles (before ++ file :: after) = Throw err).
  { unfold Ingest.processInputFiles. by apply appendFiles_fails. }
  split; [by apply appendFiles_readable |]. split; [done |].
  unfold handleProcessInput, runPipeline, afterSteps, prepare. by rewrite H.
Qed.

Lemma failed_read_aborts_witness :
  error (handleProcessInput hostWithKey (fun _ => answering "{}") enabledSteps EmptyString
           initialAppState (FileInput [notesFile; sampleZip; brokenZip; notesFile]))
  = Some "Corrupted zip: missing central directory"
  /\ error (handleProcessInput hostWithKey (fun _ => answering "{}") enabledSteps EmptyString
              initialAppState (FileInput [notesFile; lockedFile; brokenZip]))
     = Some "The requested file could not be read".
Proof.
  split.
  - refine (f_equal error
              (proj2 (proj2
                 (failed_read_aborts hostWithKey (fun _ => answering "{}") enabledSteps
                    EmptyString initialAppState [notesFile; sampleZip] brokenZip [notesFile]
                    (ErrorObject "Corrupted zip: missing central directory") _ _)))).
    + apply Forall_cons. split; [by exists "# notes" |].
      apply Forall_cons. split; [|done].
      exists sampleEntries. split; [done |].
      apply Forall_cons. split; [by left |].
      apply Forall_cons. split; [right; by eexists |].
      apply Forall_cons. split; [right; by eexists | done].
    + by left.
  - refine (f_equal error
              (proj2 (proj2
                 (failed_read_aborts hostWithKey (fun _ => answering "{}") enabledSteps
                    EmptyString initialAppState [notesFile] lockedFile [brokenZip]
                    (ErrorObject "The requested file could not be read") _ _)))).
    + apply Forall_cons. split; [by exists "# notes" | done].
    + done.
Defined.

(** ** Instances of the further properties *)

Lemma findAdditionalFiles_failures_witness :
  findAdditionalFiles hostWithKey (failing "boom") samplePipeline "find" EmptyString
  = samplePipeline
  /\ findAdditionalFiles hostWithKey (answering "not json") samplePipeline "find" EmptyString
     = samplePipeline.
Proof.
  split.
  - by apply (findAdditionalFiles_failures hostWithKey (failing "boom") samplePipeline
                "find" EmptyString (failing "boom" "env-key") eq_refl)
      with (error := ErrorObject "boom").
  - by apply (findAdditionalFiles_failures hostWithKey (answering "not json") samplePipeline
                "find" EmptyString (answering "not json" "env-key") eq_refl)
      with (text := "not json").
Defined.

Lemma extractDocumentationNotes_replaces_witness :
  extractDocumentationNotes hostWithKey (answering notesAnswer) samplePipeline
    "ORIGINAL_CONTENT_PLACEHOLDER" EmptyString
  = withNotes samplePipeline "new notes".
Proof.
  by apply (extractDocumentationNotes_replaces hostWithKey (answering notesAnswer)
              samplePipeline "ORIGINAL_CONTENT_PLACEHOLDER" EmptyString
              (answering notesAnswer "env-key") notesAnswer "new notes").
Defined.

Lemma generateReadme_outcomes_witness :
  generateReadme hostWithKey (answering " # Title ") samplePipeline "readme" EmptyString
  = "# Title"
  /\ Js.includes "boom"
       (generateReadme hostWithKey (failing "boom") samplePipeline "readme" EmptyString)
     = true.
Proof.
  split.
  - exact (proj1 (generateReadme_outcomes hostWithKey (answering " # Title ") samplePipeline
                    "readme" EmptyString (answering " # Title " "env-key") eq_refl)
             " # Title " eq_refl).
  - exact (proj2 (proj2 (proj2 (generateReadme_outcomes hostWithKey (failing "boom")
                                  samplePipeline "readme" EmptyString
                                  (failing "boom" "env-key") eq_refl)
                           (ErrorObject "boom") eq_refl))).
Defined.

Lemma cleanAiCodeResponse_fenced_witness :
  Refactor.cleanAiCodeResponse ("```" +:+ "js" +:+ nl +:+ "const x = 1;" +:+ nl +:+ "```")
  = "const x = 1;".
Proof. by apply (cleanAiCodeResponse_fenced "js" "const x = 1;"). Defined.

(** A tag that is not made of word characters stays in the code. *)
Example cleanAiCodeResponse_keeps_odd_tag :
  Refactor.cleanAiCodeResponse ("```c++" +:+ nl +:+ "int x;" +:+ nl +:+ "```")
  = "c++" +:+ nl +:+ "int x;".
Proof. reflexivity. Qed.

Lemma save_then_open_witness :
  EditorView.selectedFile (EditorView.handleSaveFile "a.txt" "bye" editorState)
  = Some {| path := "a.txt"; content := "bye" |}.
Proof.
  apply (save_then_open "a.txt" EmptyString "bye" editorState); [done |].
  by apply (bool_decide_unpack _).
Defined.

Lemma disabling_is_deleting_witness :
  handleProcessInput hostNoKey (fun _ => answering EmptyString)
    (WorkflowEditor.handleUpdate (switchedOff readmeStep) enabledSteps)
    EmptyString initialAppState (TextInput twoFilesText)
  = handleProcessInput hostNoKey (fun _ => answering EmptyString)
      (WorkflowEditor.handleDelete true "3" enabledSteps)
      EmptyString initialAppState (TextInput twoFilesText).
Proof.
  by apply (disabling_is_deleting hostNoKey (fun _ => answering EmptyString) EmptyString
              (switchedOff readmeStep) enabledSteps initialAppState (TextInput twoFilesText)).
Defined.

Lemma handleClone_spec_witness :
  WorkflowEditor.handleClone "4" "2" enabledSteps !! 2 = Some (cloneOf "4" docsStep)
  /\ NoDup (ids (WorkflowEditor.handleClone "4" "2" enabledSteps)).
Proof.
  split.
  - by apply (handleClone_spec "4" enabledSteps 1 docsStep).
  - apply (handleClone_spec "4" enabledSteps 1 docsStep); [done | |];
      by apply (bool_decide_unpack _).
Defined.

Lemma handleDrop_spec_witness :
  exists newSteps,
    WorkflowEditor.handleDrop (Some "1") "3" enabledSteps = Some newSteps
    /\ newSteps !! 2 = Some findStep
    /\ delete 2 newSteps = delete 0 enabledSteps
    /\ newSteps ≡ₚ enabledSteps.
Proof. by apply (handleDrop_spec enabledSteps 0 findStep 2 readmeStep). Defined.

Lemma chat_answer_is_used_witness :
  Chat.projectInputText
    (Chat.handleUseProjectFromChat
       (Chat.handleSendMessageToArchitect hostWithKey (answering EmptyString)
          (streaming ["### `a.txt`"; nl; "hi"] None) EmptyString "one file, please"
          sampleChat))
  = "### `a.txt`" +:+ nl +:+ "hi".
Proof.
  by apply (chat_answer_is_used hostWithKey (answering EmptyString)
              (answering EmptyString "env-key") (streaming ["### `a.txt`"; nl; "hi"] None)
              EmptyString "one file, please" "### `a.txt`" [nl; "hi"] sampleChat).
Defined.

(** A stream that ends without a chunk leaves the placeholder in the
    history, and it is what Use Project then copies. *)
Example chat_empty_stream_keeps_placeholder :
  Chat.projectInputText
    (Chat.handleUseProjectFromChat
       (Chat.handleSendMessageToArchitect hostWithKey (answering EmptyString)
          (streaming [] None) EmptyString "hello" sampleChat))
  = "...".
Proof. reflexivity. Qed.

Lemma chat_failure_cleans_up_witness :
  Chat.placeholder
  ∉ Chat.chatHistory
      (Chat.handleSendMessageToArchitect hostWithKey (answering EmptyString)
         (streaming ["par"] (Some (ErrorObject "network"))) EmptyString "hello" sampleChat).
Proof.
  apply (chat_failure_cleans_up hostWithKey (answering EmptyString)
           (answering EmptyString "env-key")
           (streaming ["par"] (Some (ErrorObject "network"))) EmptyString "hello"
           (ErrorObject "network") sampleChat); [done |].
  right. by exists ["par"].
Defined.

Lemma safeJsonParse_fenced_witness :
  safeJsonParse hostWithKey (jsonFenceOpen +:+ "{}" +:+ nl +:+ "```") = Json.JObject [].
Proof. by apply (safeJsonParse_fenced hostWithKey "{}"). Defined.

(** The fences are removed wherever they are, also inside a string of
    the answer. *)
Example safeJsonParse_strips_inner_fences :
  safeJsonParse hostWithKey (jsonFenceOpen +:+ q "a```b" +:+ nl +:+ "```")
  = Json.JString "ab".
Proof. reflexivity. Qed.
